(** * Personal schedule assistant: command engine, checkpoint and queries

    A shallow embedding of [src/main.py] (class [PersonalAssistant]) and the
    properties of its command-processing core: validation, the mutations of
    the in-memory document, the single-slot undo, the dispatcher and the
    schedule listing.

    Conventions of the embedding.
    - A Python [str] is a [string]; its characters are the bytes of the text,
      and the character classes used by [str.split], [str.lower], [int] and
      [strptime] are the ASCII ones. Python's own classes are wider outside
      ASCII (U+00A0 separates tokens, other scripts have digits and letter
      cases), so the embedding is that of the program on ASCII text, which
      [plain] names.
    - [print] appends a tagged message to the output of the command; each
      constructor of [Msg] stands for one [print] call of the source and
      carries the values interpolated into its text.
    - [save_data] writes a file; whether the write succeeds or fails with
      the [IOError] it catches is an input of the model (the boolean [io] of
      every operation that saves). [json.dump] can also raise
      [UnicodeEncodeError], which [save_data] does not catch, on text that
      cannot be encoded (a lone surrogate); this cannot happen on [plain]
      text and is not modelled.
    - [datetime.now()] is an input as well: a count of microseconds since
      [datetime.min] (0001-01-01 00:00). *)

From Stdlib Require Import ZArith Lia Bool Ascii String List.
From Stdlib Require Import Sorting.Permutation Sorting.Sorted.
From stdpp Require Import base list sorting strings pretty.

Open Scope Z_scope.

(** ** Characters and text *)

Module Text.

(** The code of a character. *)
Definition code (c : ascii) : Z := Z.of_N (N_of_ascii c).

(** [str.isspace] on ASCII: TAB..CR, FS..US and the space. *)
Definition is_space (c : ascii) : bool :=
  let n := code c in
  (9 <=? n) && (n <=? 13) || (28 <=? n) && (n <=? 32).

(** The value of a decimal digit character (the ASCII digits). *)
Definition digit (c : ascii) : option Z :=
  let n := code c in
  if (48 <=? n) && (n <=? 57) then Some (n - 48) else None.

(** [str.lower] on one ASCII character. *)
Definition lower_char (c : ascii) : ascii :=
  let n := code c in
  if (65 <=? n) && (n <=? 90) then ascii_of_N (Z.to_N (n + 32)) else c.

(** [s.lower()] *)
Fixpoint lower (s : string) : string :=
  match s with
  | EmptyString => EmptyString
  | String c r => String (lower_char c) (lower r)
  end.

(** [s.split()]: the maximal runs of non-space characters, in order.
    [cur] is the run being read, kept reversed. *)
Fixpoint split_from (cur : list ascii) (s : string) : list string :=
  let flush := match cur with
               | [] => []
               | _ :: _ => [string_of_list_ascii (rev cur)]
               end in
  match s with
  | EmptyString => flush
  | String c r =>
      if is_space c then flush ++ split_from [] r
      else split_from (c :: cur) r
  end.

(** [command.strip().split()]; stripping first does not change the runs. *)
Definition split (s : string) : list string := split_from [] s.

(** [sep.join(parts)] *)
Definition join (sep : string) (parts : list string) : string :=
  String.concat sep parts.

(** [s.startswith(p)] *)
Definition startswith (s p : string) : bool := String.prefix p s.

(** The digits of a decimal literal read left to right, with the single
    underscores [int] allows between digits. [acc] is the value so far and
    [after_digit] tells whether the previous character was a digit. *)
Fixpoint int_digits (acc : Z) (after_digit : bool) (s : string) : option Z :=
  match s with
  | EmptyString => if after_digit then Some acc else None
  | String c r =>
      match digit c with
      | Some d => int_digits (10 * acc + d) true r
      | None =>
          if (Ascii.eqb c "_" && after_digit)%bool
          then int_digits acc false r
          else None
      end
  end.

(** [int(s)] for a token [s] (no surrounding space): an optional sign and
    a decimal literal of ASCII digits. [None] stands for [ValueError].
    Python raises the same [ValueError] for a literal of more than 4300
    digits, which is read here; typed lines that long are left aside
    ([plain_line]). *)
Definition int (s : string) : option Z :=
  match s with
  | String "+" r => int_digits 0 false r
  | String "-" r => option_map Z.opp (int_digits 0 false r)
  | _ => int_digits 0 false s
  end.

End Text.

(** ** Calendar arithmetic and [datetime.strptime]

    [strptime(text, "%Y-%m-%d %H:%M")] compiles the format into the regular
    expression

      (\d\d\d\d)-(1[0-2]|0[1-9]|[1-9])-(3[0-1]|[1-2]\d|0[1-9]|[1-9]| [1-9])
      \s+(2[0-3]|[0-1]\d|\d):([0-5]\d|\d)

    matches it at the start of the text, rejects the text when characters
    remain after the match, and builds the date from the five numbers, which
    fails for a year 0 and for a day the month does not have. The matcher
    below tries the alternatives in the order of the expression: a parser
    returns every way of matching, the preferred one first. *)

Module Calendar.
Import Text.

Definition Parser (A : Type) : Type := string -> list (A * string).

Definition ret {A} (a : A) : Parser A := fun s => [(a, s)].

Definition bind {A B} (p : Parser A) (k : A -> Parser B) : Parser B :=
  fun s => flat_map (fun '(a, r) => k a r) (p s).

Definition alt {A} (p q : Parser A) : Parser A := fun s => p s ++ q s.

Module ParserNotations.
Notation "'do' x <- p ; k" := (bind p (fun x => k))
  (at level 10, x name, p at level 100, k at level 200).
Notation "'skip' p ; k" := (bind p (fun _ => k))
  (at level 10, p at level 100, k at level 200).
End ParserNotations.
Import ParserNotations.

(** One digit whose value satisfies [ok]. *)
Definition one (ok : Z -> bool) : Parser Z := fun s =>
  match s with
  | String c r =>
      match digit c with
      | Some d => if ok d then [(d, r)] else []
      | None => []
      end
  | EmptyString => []
  end.

(** Two digits, the first satisfying [hi] and the second [lo]. *)
Definition two (hi lo : Z -> bool) : Parser Z :=
  do a <- one hi; do b <- one lo; ret (10 * a + b).

(** A literal character. *)
Definition lit (c : ascii) : Parser unit := fun s =>
  match s with
  | String c' r => if Ascii.eqb c' c then [(tt, r)] else []
  | EmptyString => []
  end.

Definition any (_ : Z) : bool := true.
Definition between (a b : Z) (d : Z) : bool := (a <=? d) && (d <=? b).

(** [%Y]: [\d\d\d\d] *)
Definition re_Y : Parser Z :=
  do a <- one any; do b <- one any; do c <- one any; do d <- one any;
  ret (1000 * a + 100 * b + 10 * c + d).

(** [%m]: [1[0-2]|0[1-9]|[1-9]] *)
Definition re_m : Parser Z :=
  alt (two (Z.eqb 1) (between 0 2))
 (alt (two (Z.eqb 0) (between 1 9))
      (one (between 1 9))).

(** [%d]: [3[0-1]|[1-2]\d|0[1-9]|[1-9]| [1-9]] *)
Definition re_d : Parser Z :=
  alt (two (Z.eqb 3) (between 0 1))
 (alt (two (between 1 2) any)
 (alt (two (Z.eqb 0) (between 1 9))
 (alt (one (between 1 9))
      (skip lit " "; one (between 1 9))))).

(** [%H]: [2[0-3]|[0-1]\d|\d] *)
Definition re_H : Parser Z :=
  alt (two (Z.eqb 2) (between 0 3))
 (alt (two (between 0 1) any)
      (one any)).

(** [%M]: [[0-5]\d|\d] *)
Definition re_M : Parser Z :=
  alt (two (between 0 5) any) (one any).

(** The remainders after one or more leading space characters, the longest
    run first ([\s+] is greedy). *)
Fixpoint spaces1 (s : string) : list (unit * string) :=
  match s with
  | String c r => if is_space c then spaces1 r ++ [(tt, r)] else []
  | EmptyString => []
  end.

Record Fields := { year : Z; month : Z; day : Z; hour : Z; minute : Z }.

(** The compiled expression for ["%Y-%m-%d %H:%M"]. *)
Definition format_regex : Parser Fields :=
  do y <- re_Y; skip lit "-"; do m <- re_m; skip lit "-"; do d <- re_d;
  skip spaces1; do h <- re_H; skip lit ":"; do mi <- re_M;
  ret {| year := y; month := m; day := d; hour := h; minute := mi |}.

Definition is_leap (y : Z) : bool :=
  (y mod 4 =? 0) && (negb (y mod 100 =? 0) || (y mod 400 =? 0)).

Definition days_in_month (y m : Z) : Z :=
  match m with
  | 2 => if is_leap y then 29 else 28
  | 4 | 6 | 9 | 11 => 30
  | _ => 31
  end.

(** Days before January 1st of year [y] ([_days_before_year]). *)
Definition days_before_year (y : Z) : Z :=
  let p := y - 1 in p * 365 + p / 4 - p / 100 + p / 400.

(** Days of year [y] before the first of month [m] ([_days_before_month]). *)
Definition days_before_month (y m : Z) : Z :=
  fold_right Z.add 0 (map (days_in_month y) (seqZ 1 (m - 1))).

(** [date(y, m, d)] exists. The expression already bounds the month. *)
Definition valid_date (f : Fields) : bool :=
  (1 <=? year f) && (1 <=? day f) && (day f <=? days_in_month (year f) (month f)).

(** [datetime.strptime(text, "%Y-%m-%d %H:%M")]; [None] is [ValueError]. *)
Definition strptime (text : string) : option Fields :=
  match format_regex text with
  | (f, EmptyString) :: _ => if valid_date f then Some f else None
  | _ => None
  end.

Definition usec_per_minute : Z := 60 * 1000000.
Definition usec_per_day : Z := 1440 * usec_per_minute.

(** A naive datetime as microseconds since [datetime.min]; comparison and
    subtraction of datetimes are those of this count. *)
Definition timestamp (f : Fields) : Z :=
  let ord := days_before_year (year f) + days_before_month (year f) (month f)
             + day f in
  ((ord - 1) * 1440 + hour f * 60 + minute f) * usec_per_minute.

(** [timedelta.days] of a difference of [t] microseconds. *)
Definition days_of (t : Z) : Z := t / usec_per_day.

(** The preferred way [p] matches at the start of [s]. *)
Definition starts {A} (p : Parser A) (s : string) (a : A) (r : string) : Prop :=
  exists rest, p s = (a, r) :: rest.

End Calendar.

(** ** The document, the messages and the session state *)

(** A schedule record: [{"task", "datetime", "status"}]. *)
Record ScheduleItem := {
  s_task : string;
  s_datetime : string;
  s_status : string
}.

(** A to-do record: [{"task", "status"}]. *)
Record TodoItem := {
  t_task : string;
  t_status : string
}.

(** [self.data]: [{"schedules": [...], "todos": [...]}]. *)
Record Document := {
  schedules : list ScheduleItem;
  todos : list TodoItem
}.

Definition empty_document : Document := {| schedules := []; todos := [] |}.

Definition with_schedules (l : list ScheduleItem) (d : Document) : Document :=
  {| schedules := l; todos := todos d |}.

Definition with_todos (l : list TodoItem) (d : Document) : Document :=
  {| schedules := schedules d; todos := l |}.

Definition s_with_status (st : string) (s : ScheduleItem) : ScheduleItem :=
  {| s_task := s_task s; s_datetime := s_datetime s; s_status := st |}.

Definition t_with_status (st : string) (t : TodoItem) : TodoItem :=
  {| t_task := t_task t; t_status := st |}.

(** The icon printed in front of an item or a status change. *)
Inductive Icon := IconDone | IconOverdue | IconClock | IconHourglass.

(** The relative-day text of a listed schedule. *)
Inductive DayLabel :=
| Today                 (* "오늘" *)
| Yesterday             (* "어제" *)
| DaysAgo (n : Z)       (* "{n}일 전" *)
| Tomorrow              (* "내일" *)
| DaysLater (n : Z).    (* "{n}일 후" *)

(** One constructor per [print] call of the source. *)
Inductive Msg :=
(* undo_last_command *)
| NothingToUndo                       (* "되돌릴 수 있는 명령이 없습니다." *)
| Undone (label : string)             (* "명령 '{last_command}'이(가) 취소되었습니다." *)
| UndoFailed                          (* "undo 중 오류가 발생했습니다." *)
(* load_data, save_data *)
| LoadFailed                          (* "데이터 파일 로드 중 오류 발생" *)
| SaveFailed                          (* "데이터 저장 중 오류 발생" *)
(* add_schedule, add_todo *)
| BadDatetime                         (* "날짜 형식이 올바르지 않습니다. ..." *)
| DuplicateSchedule (task dt : string) (* "동일한 일정이 이미 존재합니다" *)
| ScheduleAdded (task dt : string)    (* "일정이 추가되었습니다" *)
| DuplicateTodo (task : string)       (* "동일한 할 일이 이미 존재합니다" *)
| TodoAdded (task : string)           (* "할 일이 추가되었습니다" *)
(* list_schedules, list_todos *)
| NoSchedules                         (* "등록된 일정이 없습니다." *)
| NoRecentSchedules                   (* "최근 한달 내 일정이 없습니다." *)
| PastHeader                          (* "지난 일정:" *)
| FutureHeader                        (* "예정된 일정:" *)
| Rule                                (* "-" * 50 *)
| ScheduleLine (i : nat) (icon : Icon) (task dt : string)
               (label : DayLabel) (status : string)
| NoTodos                             (* "등록된 할 일이 없습니다." *)
| TodoHeader                          (* "할 일 목록:" *)
| TodoLine (i : nat) (icon : Icon) (task status : string)
(* update_schedule_status, update_todo_status, toggle_todo_by_number *)
| BadStatus                           (* "상태는 'completed' 또는 'pending'만 가능합니다." *)
| ScheduleStatusChanged (icon : Icon) (task old new : string)
| ScheduleNotFound (task : string)    (* "일정을 찾을 수 없습니다" *)
| TodoStatusChanged (icon : Icon) (task old new : string)
| TodoNotFound (task : string)        (* "할 일을 찾을 수 없습니다" *)
(* done_todo_by_number, delete_todo_by_number, toggle_todo_by_number *)
| EmptyTodos                          (* "등록된 할 일이 없습니다." (as an error) *)
| BadNumber (count : nat)             (* "올바르지 않은 번호입니다. 1-{count} 범위..." *)
| TodoCompleted (task : string)       (* "할 일 '{task}'가 완료 처리되었습니다!" *)
| TodoDeleted (task : string)         (* "할 일 '{task}'가 삭제되었습니다." *)
(* show_help *)
| HelpText
(* parse_command *)
| BadCommandForm                      (* "명령어가 올바르지 않습니다. ..." *)
| AddScheduleUsage | AddScheduleHint  (* "일정 추가 형식: ..." / "단축 명령어: add s, add sc" *)
| AddTodoUsage | AddTodoHint          (* "할 일 추가 형식: ..." / "단축 명령어: add to" *)
| UnknownAdd | AddKindsHint           (* "알 수 없는 추가 명령어입니다." / "사용 가능: ..." *)
| UnknownList | ListKindsHint         (* "알 수 없는 조회 명령어입니다." / "사용 가능: ..." *)
| UpdateUsage | UpdateUsageToggle | UpdateUsageTodo | UpdateUsageSchedule
| ToggleNeedsNumber                   (* "올바른 번호를 입력하거나 상태를 명시하세요." *)
| UpdateTodoBadForm                   (* "올바른 형식이 아닙니다." *)
| UpdateTodoHint                      (* "예시: update todo 1 (토글) 또는 ..." *)
| UpdateScheduleUsage                 (* "일정 업데이트 형식: ..." *)
| UnknownUpdate | UpdateKindsHint     (* "알 수 없는 업데이트 명령어입니다." / "사용 가능: ..." *)
| DoneUsage | DoneHint                (* "완료 형식: done [번호]" / "예시: done 1" *)
| NotANumber                          (* "올바른 번호를 입력하세요." *)
| DeleteUsage | DeleteHint            (* "삭제 형식: ..." / "예시: delete 1, del 2, rm 3" *)
| UnknownCommand (cmd : string)       (* "알 수 없는 명령어입니다: {cmd}" *)
| HelpHint.                           (* "'help' 명령어로 사용법을 확인하세요." *)

(** What [self.backup_data] refers to: an object of its own (the result of
    [copy.deepcopy]), or the very object [self.data] refers to, which is
    what [self.data = self.backup_data] leaves behind until the slot is
    cleared or overwritten. *)
Inductive Held :=
| OwnCopy (d : Document)
| SameObject.

Record PersonalAssistant := {
  data : Document;
  backup_data : option Held;
  last_command : option string
}.

(** The document the checkpoint slot holds, if any. *)
Definition held_document (a : PersonalAssistant) : option Document :=
  match backup_data a with
  | None => None
  | Some (OwnCopy d) => Some d
  | Some SameObject => Some (data a)
  end.

(** Uncaught exceptions of a command. *)
Inductive Exn := ValueError | OverflowError.

Inductive result (A : Type) :=
| Ok (a : A)
| Raise (e : Exn).
Arguments Ok {A} a.
Arguments Raise {A} e.

(** ** Commands: state passing with printed output *)

Definition Cmd (A : Type) : Type :=
  PersonalAssistant -> A * PersonalAssistant * list Msg.

Definition ret {A} (x : A) : Cmd A := fun a => (x, a, []).

Definition bind {A B} (c : Cmd A) (k : A -> Cmd B) : Cmd B := fun a =>
  let '(x, a1, o1) := c a in
  let '(y, a2, o2) := k x a1 in
  (y, a2, o1 ++ o2).

Notation "'do' x <- c ; k" := (bind c (fun x => k))
  (at level 10, x name, c at level 100, k at level 200).
Notation "'run' c ; k" := (bind c (fun _ => k))
  (at level 10, c at level 100, k at level 200).

Definition print (m : Msg) : Cmd unit := fun a => (tt, a, [m]).

(** Reading [self.data]. *)
Definition read {A} (f : Document -> A) : Cmd A := fun a => (f (data a), a, []).

(** An in-place change of the object [self.data] refers to. The slot sees
    it when it refers to the same object ([SameObject]). *)
Definition mutate (f : Document -> Document) : Cmd unit := fun a =>
  (tt, {| data := f (data a); backup_data := backup_data a;
          last_command := last_command a |}, []).

(** [save_data]: [io] tells whether writing the file succeeds or fails
    with the [IOError] the source catches. An encoding error of [json.dump]
    is not caught by the source; it needs text that is not [plain]. *)
Definition save_data (io : bool) : Cmd bool :=
  if io then ret true
  else run print SaveFailed; ret false.

(** The backing file as [load_data] finds it. *)
Inductive DataFile :=
| NoFile
| Unreadable
| Stored (d : Document).

Definition load_data (f : DataFile) : Document * list Msg :=
  match f with
  | Stored d => (d, [])
  | Unreadable => (empty_document, [LoadFailed])
  | NoFile => (empty_document, [])
  end.

(** [PersonalAssistant.__init__] *)
Definition init (f : DataFile) : PersonalAssistant :=
  {| data := fst (load_data f); backup_data := None; last_command := None |}.

(** ** Checkpoint and undo *)

Definition create_backup (command_info : string) : Cmd unit := fun a =>
  (tt, {| data := data a; backup_data := Some (OwnCopy (data a));
          last_command := Some command_info |}, []).

(** [self.data = self.backup_data] for a slot holding [h]. *)
Definition restore (h : Held) : Cmd unit := fun a =>
  (tt, {| data := match h with OwnCopy d => d | SameObject => data a end;
          backup_data := Some SameObject;
          last_command := last_command a |}, []).

Definition clear_backup : Cmd unit := fun a =>
  (tt, {| data := data a; backup_data := None; last_command := None |}, []).

Definition undo_last_command (io : bool) : Cmd bool := fun a =>
  match backup_data a, last_command a with
  | None, _ => (run print NothingToUndo; ret false) a
  | Some _, None => (run print NothingToUndo; ret false) a
  | Some h, Some label =>
      (run restore h;
       do saved <- save_data io;
       if saved then
         run print (Undone label);
         run clear_backup;
         ret true
       else
         run print UndoFailed;
         ret false) a
  end.

(** ** Validation and mutations *)

Definition validate_datetime (datetime_str : string) : bool :=
  match Calendar.strptime datetime_str with
  | Some _ => true
  | None => false
  end.

Definition same_schedule (task datetime_str : string) (s : ScheduleItem) : bool :=
  (s_task s =? task)%string && (s_datetime s =? datetime_str)%string.

Definition add_schedule (io : bool) (task datetime_str : string) : Cmd bool :=
  if negb (validate_datetime datetime_str) then
    run print BadDatetime; ret false
  else
    run create_backup ("add schedule " +:+ task +:+ " " +:+ datetime_str);
    do dup <- read (fun d => existsb (same_schedule task datetime_str) (schedules d));
    if dup then
      run print (DuplicateSchedule task datetime_str); ret false
    else
      let new_schedule :=
        {| s_task := task; s_datetime := datetime_str; s_status := "pending" |} in
      run mutate (fun d => with_schedules (schedules d ++ [new_schedule]) d);
      do saved <- save_data io;
      if saved then run print (ScheduleAdded task datetime_str); ret true
      else ret false.

Definition same_todo (task : string) (t : TodoItem) : bool :=
  (t_task t =? task)%string.

Definition add_todo (io : bool) (task : string) : Cmd bool :=
  run create_backup ("add todo " +:+ task);
  do dup <- read (fun d => existsb (same_todo task) (todos d));
  if dup then
    run print (DuplicateTodo task); ret false
  else
    let new_todo := {| t_task := task; t_status := "pending" |} in
    run mutate (fun d => with_todos (todos d ++ [new_todo]) d);
    do saved <- save_data io;
    if saved then run print (TodoAdded task); ret true
    else ret false.

(** [status in ["completed", "pending"]] *)
Definition known_status (status : string) : bool :=
  (status =? "completed")%string || (status =? "pending")%string.

Definition icon_of (status : string) (other : Icon) : Icon :=
  if (status =? "completed")%string then IconDone else other.

Definition update_schedule_status (io : bool) (task status : string) : Cmd bool :=
  if negb (known_status status) then
    run print BadStatus; ret false
  else
    run create_backup ("update schedule " +:+ task +:+ " " +:+ status);
    do found <- read (fun d => list_find (fun s => s_task s = task) (schedules d));
    match found with
    | Some (i, schedule) =>
        let old_status := s_status schedule in
        run mutate (fun d =>
          with_schedules (<[i := s_with_status status schedule]> (schedules d)) d);
        do saved <- save_data io;
        if saved then
          run print (ScheduleStatusChanged (icon_of status IconClock)
                       task old_status status);
          ret true
        else ret false
    | None => run print (ScheduleNotFound task); ret false
    end.

Definition update_todo_status (io : bool) (task status : string) : Cmd bool :=
  if negb (known_status status) then
    run print BadStatus; ret false
  else
    run create_backup ("update todo " +:+ task +:+ " " +:+ status);
    do found <- read (fun d => list_find (fun t => t_task t = task) (todos d));
    match found with
    | Some (i, todo) =>
        let old_status := t_status todo in
        run mutate (fun d =>
          with_todos (<[i := t_with_status status todo]> (todos d)) d);
        do saved <- save_data io;
        if saved then
          run print (TodoStatusChanged (icon_of status IconHourglass)
                       task old_status status);
          ret true
        else ret false
    | None => run print (TodoNotFound task); ret false
    end.

(** The checks shared by the number-addressed operations; [body i todo]
    runs with the 0-based index and the addressed item. The last branch
    ([IndexError]) is never taken: the range check excludes it. *)
Definition by_number (number : Z) (body : nat -> TodoItem -> Cmd bool) : Cmd bool :=
  do l <- read todos;
  match l with
  | [] => run print EmptyTodos; ret false
  | _ :: _ =>
      if (number <? 1) || (number >? Z.of_nat (length l)) then
        run print (BadNumber (length l)); ret false
      else
        let i := Z.to_nat (number - 1) in
        match l !! i with
        | Some todo => body i todo
        | None => ret false
        end
  end.

Definition done_todo_by_number (io : bool) (number : Z) : Cmd bool :=
  by_number number (fun i todo =>
    run create_backup ("done " +:+ pretty number +:+ " (" +:+ t_task todo +:+ ")");
    run mutate (fun d => with_todos (<[i := t_with_status "completed" todo]> (todos d)) d);
    do saved <- save_data io;
    if saved then run print (TodoCompleted (t_task todo)); ret true
    else ret false).

Definition delete_todo_by_number (io : bool) (number : Z) : Cmd bool :=
  by_number number (fun i todo =>
    run create_backup ("delete " +:+ pretty number +:+ " (" +:+ t_task todo +:+ ")");
    let task_name := t_task todo in
    run mutate (fun d => with_todos (delete i (todos d)) d);
    do saved <- save_data io;
    if saved then run print (TodoDeleted task_name); ret true
    else ret false).

(** ["completed" if old_status == "pending" else "pending"] *)
Definition toggled (old_status : string) : string :=
  if (old_status =? "pending")%string then "completed" else "pending".

Definition toggle_todo_by_number (io : bool) (number : Z) : Cmd bool :=
  by_number number (fun i todo =>
    let old_status := t_status todo in
    let new_status := toggled old_status in
    run create_backup ("update todo " +:+ pretty number +:+ " (" +:+ t_task todo
                       +:+ ": " +:+ old_status +:+ " -> " +:+ new_status +:+ ")");
    run mutate (fun d => with_todos (<[i := t_with_status new_status todo]> (todos d)) d);
    do saved <- save_data io;
    if saved then
      run print (TodoStatusChanged (icon_of new_status IconHourglass)
                   (t_task todo) old_status new_status);
      ret true
    else ret false).

(** ** Queries *)

(** The parsed time of a schedule, the key of the listing. *)
Definition schedule_time (s : ScheduleItem) : option Z :=
  option_map Calendar.timestamp (Calendar.strptime (s_datetime s)).

(** The keys [sorted] computes, one [strptime] per schedule in list order;
    [None] when one of them raises [ValueError]. *)
Fixpoint keyed (l : list ScheduleItem) : option (list (Z * ScheduleItem)) :=
  match l with
  | [] => Some []
  | s :: r =>
      match schedule_time s with
      | Some t => option_map (cons (t, s)) (keyed r)
      | None => None
      end
  end.

(** [sorted(..., key=...)] is stable; so is insertion from the right, each
    element going before the first one whose key is not smaller. *)
Fixpoint insert_by_time (x : Z * ScheduleItem) (l : list (Z * ScheduleItem))
  : list (Z * ScheduleItem) :=
  match l with
  | [] => [x]
  | y :: r => if fst x <=? fst y then x :: y :: r else y :: insert_by_time x r
  end.

Definition sorted_by_time (l : list (Z * ScheduleItem)) : list (Z * ScheduleItem) :=
  fold_right insert_by_time [] l.

Definition thirty_days : Z := 30 * Calendar.usec_per_day.

(** The two groups [list_schedules] builds, each schedule with its parsed
    time: the sorted schedules not older than thirty days, split at [now].
    The source parses the text again in each loop; the key is the same. *)
Definition recent (now : Z) (l : list (Z * ScheduleItem)) : list (Z * ScheduleItem) :=
  filter (fun x => now - thirty_days <= fst x) (sorted_by_time l).

Definition past_schedules (now : Z) (l : list (Z * ScheduleItem)) :=
  filter (fun x => fst x < now) (recent now l).

Definition future_schedules (now : Z) (l : list (Z * ScheduleItem)) :=
  filter (fun x => ~ fst x < now) (recent now l).

Definition past_label (now t : Z) : DayLabel :=
  let days_ago := Calendar.days_of (now - t) in
  if days_ago =? 0 then Today
  else if days_ago =? 1 then Yesterday
  else DaysAgo days_ago.

Definition future_label (now t : Z) : DayLabel :=
  let days_later := Calendar.days_of (t - now) in
  if days_later =? 0 then Today
  else if days_later =? 1 then Tomorrow
  else DaysLater days_later.

Definition schedule_line (other : Icon) (label : Z -> DayLabel)
    (i : nat) (x : Z * ScheduleItem) : Msg :=
  let s := snd x in
  ScheduleLine (S i) (icon_of (s_status s) other) (s_task s) (s_datetime s)
               (label (fst x)) (s_status s).

(** A group under its header; nothing for an empty group. *)
Definition group (header : Msg) (lines : list Msg) : list Msg :=
  match lines with
  | [] => []
  | _ :: _ => header :: Rule :: lines
  end.

Definition list_schedules (now : Z) (d : Document) : result (list Msg) :=
  match schedules d with
  | [] => Ok [NoSchedules]
  | _ :: _ =>
      if now - thirty_days <? 0 then Raise OverflowError
      else
        match keyed (schedules d) with
        | None => Raise ValueError
        | Some l =>
            match recent now l with
            | [] => Ok [NoRecentSchedules]
            | _ :: _ =>
                Ok (group PastHeader
                      (imap (schedule_line IconOverdue (past_label now))
                            (past_schedules now l))
                    ++ group FutureHeader
                      (imap (schedule_line IconClock (future_label now))
                            (future_schedules now l)))
            end
        end
  end.

Definition todo_line (i : nat) (t : TodoItem) : Msg :=
  TodoLine (S i) (icon_of (t_status t) IconHourglass) (t_task t) (t_status t).

Definition list_todos (d : Document) : list Msg :=
  match todos d with
  | [] => [NoTodos]
  | _ :: _ => TodoHeader :: Rule :: imap todo_line (todos d)
  end.

Definition list_all (now : Z) (d : Document) : result (list Msg) :=
  match list_schedules now d with
  | Ok o => Ok (o ++ list_todos d)
  | Raise e => Raise e
  end.

(** ** The dispatcher *)

(** What a command line leaves behind: the value [parse_command] returns,
    the session state and the printed messages, unless it raises. *)
Definition Step : Type := result (bool * PersonalAssistant * list Msg).

(** A branch that only prints and lets the loop go on. *)
Definition say (o : list Msg) (a : PersonalAssistant) : Step := Ok (true, a, o).

(** A branch that calls an operation and ignores what it returns. *)
Definition call (c : Cmd bool) (a : PersonalAssistant) : Step :=
  let '(_, a', o) := c a in Ok (true, a', o).

(** A branch that calls a query on the document. *)
Definition query (q : Document -> result (list Msg)) (a : PersonalAssistant) : Step :=
  match q (data a) with
  | Ok o => Ok (true, a, o)
  | Raise e => Raise e
  end.

(** [parts[i]], read only under a length check. *)
Definition tok (parts : list string) (i : nat) : string := nth i parts EmptyString.

(** The abbreviation step on token 1 of [add]. *)
Definition add_sub_cmd (sub_cmd : string) : string :=
  if Text.startswith sub_cmd "sc" || (sub_cmd =? "s")%string then "schedule"
  else if Text.startswith sub_cmd "to" then "todo"
  else sub_cmd.

(** The abbreviation step on token 1 of [list]. *)
Definition list_sub_cmd (sub_cmd : string) : string :=
  if Text.startswith sub_cmd "sc" || (sub_cmd =? "s")%string then "schedules"
  else if Text.startswith sub_cmd "to" || (sub_cmd =? "t")%string then "todos"
  else if Text.startswith sub_cmd "a" then "all"
  else sub_cmd.

(** The abbreviation step on token 1 of [update]. *)
Definition update_sub_cmd (sub_cmd : string) : string :=
  if Text.startswith sub_cmd "sc" || (sub_cmd =? "s")%string then "schedule"
  else if Text.startswith sub_cmd "to" || (sub_cmd =? "t")%string then "todo"
  else sub_cmd.

(** The [schedule] branch of [add]. *)
Definition add_schedule_cmd (io : bool) (parts : list string)
  : PersonalAssistant -> Step :=
  if (length parts <? 5)%nat then say [AddScheduleUsage; AddScheduleHint]
  else
    let task := tok parts 2 in
    let datetime_str := tok parts 3 +:+ " " +:+ tok parts 4 in
    call (add_schedule io task datetime_str).

(** The [todo] branch of [add]. *)
Definition add_todo_cmd (io : bool) (parts : list string)
  : PersonalAssistant -> Step :=
  if (length parts <? 3)%nat then say [AddTodoUsage; AddTodoHint]
  else call (add_todo io (Text.join " " (drop 2 parts))).

Definition parse_add (io : bool) (parts : list string) : PersonalAssistant -> Step :=
  if (length parts <? 2)%nat then say [BadCommandForm]
  else
    let sub_cmd := add_sub_cmd (Text.lower (tok parts 1)) in
    if (sub_cmd =? "schedule")%string then add_schedule_cmd io parts
    else if (sub_cmd =? "todo")%string then add_todo_cmd io parts
    else say [UnknownAdd; AddKindsHint].

Definition parse_list (now : Z) (parts : list string) : PersonalAssistant -> Step :=
  if (length parts =? 1)%nat then query (list_all now)
  else
    let sub_cmd := list_sub_cmd (Text.lower (tok parts 1)) in
    if (sub_cmd =? "schedules")%string then query (list_schedules now)
    else if (sub_cmd =? "todos")%string then query (fun d => Ok (list_todos d))
    else if (sub_cmd =? "all")%string then query (list_all now)
    else say [UnknownList; ListKindsHint].

(** The [todo] branch of [update]. *)
Definition update_todo_cmd (io : bool) (parts : list string)
  : PersonalAssistant -> Step :=
  if (length parts =? 3)%nat then
    match Text.int (tok parts 2) with
    | Some number => call (toggle_todo_by_number io number)
    | None => say [ToggleNeedsNumber; UpdateTodoHint]
    end
  else if (length parts =? 4)%nat then
    call (update_todo_status io (tok parts 2) (Text.lower (tok parts 3)))
  else say [UpdateTodoBadForm; UpdateTodoHint].

(** The [schedule] branch of [update]. *)
Definition update_schedule_cmd (io : bool) (parts : list string)
  : PersonalAssistant -> Step :=
  if (length parts <? 4)%nat then say [UpdateScheduleUsage]
  else call (update_schedule_status io (tok parts 2) (Text.lower (tok parts 3))).

Definition parse_update (io : bool) (parts : list string) : PersonalAssistant -> Step :=
  if (length parts <? 3)%nat then
    say [UpdateUsage; UpdateUsageToggle; UpdateUsageTodo; UpdateUsageSchedule]
  else
    let sub_cmd := update_sub_cmd (Text.lower (tok parts 1)) in
    if (sub_cmd =? "todo")%string then update_todo_cmd io parts
    else if (sub_cmd =? "schedule")%string then update_schedule_cmd io parts
    else say [UnknownUpdate; UpdateKindsHint].

Definition parse_command (io : bool) (now : Z) (command : string)
  : PersonalAssistant -> Step :=
  let parts := Text.split command in
  match parts with
  | [] => fun a => Ok (true, a, [])
  | first :: _ =>
      let cmd := Text.lower first in
      if (cmd =? "help")%string then say [HelpText]
      else if (cmd =? "exit")%string then fun a => Ok (false, a, [])
      else if (cmd =? "add")%string then parse_add io parts
      else if (cmd =? "list")%string then parse_list now parts
      else if (cmd =? "update")%string then parse_update io parts
      else if (cmd =? "done")%string then
        if (length parts <? 2)%nat then say [DoneUsage; DoneHint]
        else
          match Text.int (tok parts 1) with
          | Some number => call (done_todo_by_number io number)
          | None => say [NotANumber; DoneHint]
          end
      else if (cmd =? "delete")%string || (cmd =? "del")%string
              || (cmd =? "rm")%string then
        if (length parts <? 2)%nat then say [DeleteUsage; DeleteHint]
        else
          match Text.int (tok parts 1) with
          | Some number => call (delete_todo_by_number io number)
          | None => say [NotANumber; DeleteHint]
          end
      else if (cmd =? "undo")%string then call (undo_last_command io)
      else say [UnknownCommand cmd; HelpHint]
  end.

(** ** The mutations as one type, and the error kinds of the specification *)

(** A call of one of the seven mutating operations. *)
Inductive Mutation :=
| AddSchedule (task datetime_str : string)
| AddTodo (task : string)
| UpdateSchedule (task status : string)
| UpdateTodo (task status : string)
| DoneByNumber (number : Z)
| DeleteByNumber (number : Z)
| ToggleByNumber (number : Z).

Definition apply_mutation (io : bool) (m : Mutation) : Cmd bool :=
  match m with
  | AddSchedule task dt => add_schedule io task dt
  | AddTodo task => add_todo io task
  | UpdateSchedule task status => update_schedule_status io task status
  | UpdateTodo task status => update_todo_status io task status
  | DoneByNumber n => done_todo_by_number io n
  | DeleteByNumber n => delete_todo_by_number io n
  | ToggleByNumber n => toggle_todo_by_number io n
  end.

(** The error kinds the specification names. *)
Inductive ErrorKind :=
| InvalidFormat
| InvalidStatus
| DuplicateEntry
| NotFound
| OutOfRange
| EmptyCollection
| PersistenceFailure.

(** The kind a message reports, for the messages that report an error of
    one of these kinds. *)
Definition kind_of (m : Msg) : option ErrorKind :=
  match m with
  | BadDatetime | NotANumber | ToggleNeedsNumber => Some InvalidFormat
  | BadStatus => Some InvalidStatus
  | DuplicateSchedule _ _ | DuplicateTodo _ => Some DuplicateEntry
  | ScheduleNotFound _ | TodoNotFound _ => Some NotFound
  | BadNumber _ => Some OutOfRange
  | EmptyTodos => Some EmptyCollection
  | SaveFailed => Some PersistenceFailure
  | _ => None
  end.

(** The error a command reports: the kind of the first message it prints. *)
Definition reported (o : list Msg) : option ErrorKind :=
  match o with
  | m :: _ => kind_of m
  | [] => None
  end.

(** An operation fails with kind [k]: it returns [False] after reporting [k]. *)
Definition fails_with (k : ErrorKind) (r : bool * PersonalAssistant * list Msg) : Prop :=
  r.1.1 = false /\ reported r.2 = Some k.

(** The state a checkpoint labelled [label] leaves when nothing else changes. *)
Definition checkpointed (label : string) (a : PersonalAssistant) : PersonalAssistant :=
  {| data := data a; backup_data := Some (OwnCopy (data a));
     last_command := Some label |}.

(** The state after a checkpoint and the in-place change [f]. *)
Definition changed (label : string) (f : Document -> Document)
    (a : PersonalAssistant) : PersonalAssistant :=
  {| data := f (data a); backup_data := Some (OwnCopy (data a));
     last_command := Some label |}.

(** What a saving operation returns and prints at its end. *)
Definition saved_or (io : bool) (m : Msg) : list Msg :=
  if io then [m] else [SaveFailed].

(** ** Predicates of the statements *)

(** [number] addresses an item of [l]. *)
Definition in_range (number : Z) (l : list TodoItem) : Prop :=
  1 <= number <= Z.of_nat (length l).

(** Kinds checked before the checkpoint is taken, and after it. *)
Definition checked_first (k : ErrorKind) : bool :=
  match k with
  | InvalidFormat | InvalidStatus | OutOfRange | EmptyCollection => true
  | _ => false
  end.

Definition checked_after (k : ErrorKind) : bool :=
  match k with
  | DuplicateEntry | NotFound => true
  | _ => false
  end.

(** Every call of a mutating operation ends in one of three ways: refused
    before the checkpoint, refused after it, or applied under a checkpoint
    and then saved or not. *)
Inductive outcome (io : bool) (a : PersonalAssistant)
  : bool * PersonalAssistant * list Msg -> Prop :=
| Refused m k :
    kind_of m = Some k -> checked_first k = true ->
    outcome io a (false, a, [m])
| Missed label m k :
    kind_of m = Some k -> checked_after k = true ->
    outcome io a (false, checkpointed label a, [m])
| Applied label f m :
    kind_of m = None ->
    outcome io a (io, changed label f a, saved_or io m).

(** A command line either only prints (guidance, help, or nothing), calls
    one mutating operation, calls undo, or calls a query. The messages of
    the first kind report no error kind or a malformed number. *)
Inductive dispatched (io : bool) (a : PersonalAssistant) : Step -> Prop :=
| OnlyPrints b o :
    reported o = None \/ reported o = Some InvalidFormat ->
    dispatched io a (Ok (b, a, o))
| CallsMutation m :
    dispatched io a (call (apply_mutation io m) a)
| CallsUndo :
    dispatched io a (call (undo_last_command io) a)
| CallsQuery q :
    (forall d o, q d = Ok o -> reported o = None) ->
    dispatched io a (query q a).

(** The slot and its label are set together and cleared together. *)
Definition slot_consistent (a : PersonalAssistant) : Prop :=
  backup_data a = None <-> last_command a = None.

Definition two_digits (a b : ascii) : option Z :=
  match Text.digit a, Text.digit b with
  | Some x, Some y => Some (10 * x + y)
  | _, _ => None
  end.

Definition four_digits (a b c d : ascii) : option Z :=
  match Text.digit a, Text.digit b, Text.digit c, Text.digit d with
  | Some x, Some y, Some z, Some w => Some (1000 * x + 100 * y + 10 * z + w)
  | _, _, _, _ => None
  end.

(** The specification's canonical datetime: sixteen characters
    [YYYY-MM-DD HH:MM], every field of its full width with leading zeros,
    one space between date and time, naming a real calendar date (years
    from 1, the smallest a [datetime] has) and a real time of day. This
    definition follows the specification's words, not the code. *)
Definition canonical_datetime (text : string) : bool :=
  match list_ascii_of_string text with
  | [y1; y2; y3; y4; s1; m1; m2; s2; d1; d2; s3; h1; h2; s4; n1; n2] =>
      match four_digits y1 y2 y3 y4, two_digits m1 m2, two_digits d1 d2,
            two_digits h1 h2, two_digits n1 n2 with
      | Some y, Some m, Some d, Some h, Some n =>
          Ascii.eqb s1 "-" && Ascii.eqb s2 "-" && Ascii.eqb s3 " "
          && Ascii.eqb s4 ":"
          && (1 <=? y) && (1 <=? m) && (m <=? 12)
          && (1 <=? d) && (d <=? Calendar.days_in_month y m)
          && (h <=? 23) && (n <=? 59)
      | _, _, _, _, _ => false
      end
  | _ => false
  end.

(** The document holds a schedule with this task and datetime text. *)
Definition has_schedule (task dt : string) (d : Document) : Prop :=
  exists s, s ∈ schedules d /\ s_task s = task /\ s_datetime s = dt.

(** The document holds a to-do with this task text. *)
Definition has_todo (task : string) (d : Document) : Prop :=
  exists t, t ∈ todos d /\ t_task t = task.

(** The item numbered [number] (from 1) in a to-do list. *)
Definition item_at (number : Z) (l : list TodoItem) : option TodoItem :=
  l !! Z.to_nat (number - 1).

(** The sub-noun is one of the abbreviations of [schedule]. *)
Definition names_schedule (s : string) : Prop :=
  Text.startswith s "sc" = true \/ s = "s".

(** Ascending parsed time. *)
Definition by_time (x y : Z * ScheduleItem) : Prop := fst x <= fst y.

(** The time of the examples: seven microseconds after 2024-05-15 14:00. *)
Definition example_now : Z :=
  Calendar.timestamp {| Calendar.year := 2024; Calendar.month := 5;
                        Calendar.day := 15; Calendar.hour := 14;
                        Calendar.minute := 0 |} + 7.

Definition example_schedules : Document :=
  {| schedules :=
       [{| s_task := "later"; s_datetime := "2024-05-20 09:00"; s_status := "pending" |};
        {| s_task := "old"; s_datetime := "2024-04-14 14:00"; s_status := "completed" |};
        {| s_task := "recent"; s_datetime := "2024-04-16 14:00"; s_status := "completed" |}];
     todos := [] |}.

(** ** Tab completion, the input loop and document well-formedness *)

(** The table of [completer]. *)
Definition commands : list string :=
  ["add schedule"; "add s"; "add sc"; "add todo"; "add to";
   "list"; "list schedules"; "list s"; "list sc"; "list todos"; "list t";
   "list to"; "list all"; "list a";
   "update schedule"; "update s"; "update sc"; "update todo"; "update t";
   "update to";
   "done"; "delete"; "del"; "rm"; "undo";
   "help"; "exit"].

(** [completer(text, state)]: the [state]-th command that starts with
    [text]; readline asks with [state] 0, 1, 2, ... until it gets [None]. *)
Definition completer (text : string) (state : nat) : option string :=
  let matches := filter (fun cmd => Text.startswith cmd text = true) commands in
  if (state <? length matches)%nat then matches !! state else None.

(** [s.lstrip()] *)
Fixpoint lstrip (s : string) : string :=
  match s with
  | EmptyString => EmptyString
  | String c r => if Text.is_space c then lstrip r else s
  end.

(** The characters of [s] without the space characters at its end. *)
Fixpoint rstrip_chars (s : list ascii) : list ascii :=
  match s with
  | [] => []
  | c :: r =>
      match rstrip_chars r with
      | [] => if Text.is_space c then [] else [c]
      | kept => c :: kept
      end
  end.

(** [s.strip()] *)
Definition strip (s : string) : string :=
  string_of_list_ascii (rstrip_chars (list_ascii_of_string (lstrip s))).

(** One turn of the input loop: the line [input] returns, with whether a
    save would succeed and the clock while the command runs. *)
Record Entered := {
  typed : string;
  saves : bool;
  clock : Z
}.

(** How the loop of [run] ends: on [exit], when the input source ends or
    is interrupted ([EOFError], [KeyboardInterrupt]: the farewell is
    printed), or with an exception no handler of the loop catches. *)
Inductive Ending :=
| Exited
| InputEnded
| Crashed (e : Exn).

(** The [while True] loop of [run] on the lines the input source yields:
    how it ends, the session state then, and the messages the commands
    printed. The banner before the loop, the farewell and the history file
    are left to the line-editing side. *)
Fixpoint loop (inputs : list Entered) (a : PersonalAssistant)
  : Ending * PersonalAssistant * list Msg :=
  match inputs with
  | [] => (InputEnded, a, [])
  | i :: rest =>
      let command := strip (typed i) in
      match command with
      | EmptyString => loop rest a
      | String _ _ =>
          match parse_command (saves i) (clock i) command a with
          | Raise e => (Crashed e, a, [])
          | Ok (false, a', o) => (Exited, a', o)
          | Ok (true, a', o) =>
              let '(e, a'', o') := loop rest a' in (e, a'', o ++ o')
          end
      end
  end.

(** The verbs whose branch in [parse_command] calls an operation that
    writes the session state. *)
Definition writing_verbs : list string :=
  ["add"; "update"; "done"; "delete"; "del"; "rm"; "undo"].

(** The key of a schedule: its task and datetime text. *)
Definition s_key (s : ScheduleItem) : string * string := (s_task s, s_datetime s).

(** The one-step changes of the document the mutating operations make. *)
Inductive edit (d : Document) : Document -> Prop :=
| AppendSchedule task dt :
    validate_datetime dt = true -> ~ has_schedule task dt d ->
    edit d (with_schedules
              (schedules d ++ [{| s_task := task; s_datetime := dt;
                                  s_status := "pending" |}]) d)
| AppendTodo task :
    ~ has_todo task d ->
    edit d (with_todos
              (todos d ++ [{| t_task := task; t_status := "pending" |}]) d)
| SetScheduleStatus i s status :
    known_status status = true -> schedules d !! i = Some s ->
    edit d (with_schedules (<[i := s_with_status status s]> (schedules d)) d)
| SetTodoStatus i t status :
    known_status status = true -> todos d !! i = Some t ->
    edit d (with_todos (<[i := t_with_status status t]> (todos d)) d)
| RemoveTodo i t :
    todos d !! i = Some t ->
    edit d (with_todos (delete i (todos d)) d).

(** Every status is [pending] or [completed]. *)
Definition statuses_known (d : Document) : Prop :=
  Forall (fun s => known_status (s_status s) = true) (schedules d) /\
  Forall (fun t => known_status (t_status t) = true) (todos d).

(** Every schedule's datetime text passes [validate_datetime]. *)
Definition datetimes_valid (d : Document) : Prop :=
  Forall (fun s => validate_datetime (s_datetime s) = true) (schedules d).

(** No two schedules with the same task and datetime text, no two to-dos
    with the same task text. *)
Definition keys_unique (d : Document) : Prop :=
  NoDup (s_key <$> schedules d) /\ NoDup (t_task <$> todos d).

Definition well_formed (d : Document) : Prop :=
  statuses_known d /\ datetimes_valid d /\ keys_unique d.

(** [P] holds of the live document and of the document in the slot. *)
Definition session_ok (P : Document -> Prop) (a : PersonalAssistant) : Prop :=
  P (data a) /\ forall d, held_document a = Some d -> P d.

(** No space character among [l]. *)
Definition no_space (l : list ascii) : Prop :=
  Forall (fun c => Text.is_space c = false) l.

(** A token: not empty and without space characters. *)
Definition word (w : string) : Prop :=
  w <> EmptyString /\ no_space (list_ascii_of_string w).

(** Every value the parser [p] can return satisfies [P]. *)
Definition yields {A} (p : Calendar.Parser A) (P : A -> Prop) : Prop :=
  forall s a r, In (a, r) (p s) -> P a.

(** The fields name a real date and time of day. *)
Definition real_datetime (f : Calendar.Fields) : Prop :=
  1 <= Calendar.year f <= 9999 /\
  1 <= Calendar.month f <= 12 /\
  1 <= Calendar.day f <= Calendar.days_in_month (Calendar.year f) (Calendar.month f) /\
  0 <= Calendar.hour f <= 23 /\
  0 <= Calendar.minute f <= 59.

(** Calendar order of two datetimes: by year, then month, day, hour and
    minute. *)
Definition earlier (f g : Calendar.Fields) : Prop :=
  Calendar.year f < Calendar.year g \/
  Calendar.year f = Calendar.year g /\
  (Calendar.month f < Calendar.month g \/
   Calendar.month f = Calendar.month g /\
   (Calendar.day f < Calendar.day g \/
    Calendar.day f = Calendar.day g /\
    (Calendar.hour f < Calendar.hour g \/
     Calendar.hour f = Calendar.hour g /\
     Calendar.minute f < Calendar.minute g))).

(** The extra day of a leap year. *)
Definition leap_day (y : Z) : Z := if Calendar.is_leap y then 1 else 0.

(** ** Plain text

    Text made of ASCII characters only. On such text the character classes
    of the embedding are those of Python: [str.split] and [str.strip] cut
    at the same characters, [str.lower] changes the same letters, [int] and
    the expression of [strptime] read the same digits. Such text can also
    always be encoded, so [print] and the [json.dump] of [save_data] do not
    raise [UnicodeEncodeError] on it. *)
Fixpoint plainb (s : string) : bool :=
  match s with
  | EmptyString => true
  | String c r => (Text.code c <? 128) && plainb r
  end.

Definition plain (s : string) : Prop := plainb s = true.

(** A typed line of plain text, short enough for every number in it to stay
    under the limit [int] puts on the digits of a literal (4300). *)
Definition plain_line (s : string) : Prop :=
  plain s /\ Z.of_nat (String.length s) <= 4300.

(** Every text stored in the document is plain. *)
Definition plain_document (d : Document) : Prop :=
  Forall (fun s => plain (s_task s) /\ plain (s_datetime s) /\ plain (s_status s))
         (schedules d) /\
  Forall (fun t => plain (t_task t) /\ plain (t_status t)) (todos d).

(** Every text the session holds is plain: the live document, the document
    in the slot and the label of the checkpoint. *)
Definition plain_session (a : PersonalAssistant) : Prop :=
  session_ok plain_document a /\
  forall label, last_command a = Some label -> plain label.

(** The texts a mutating call is given are plain. *)
Definition plain_mutation (m : Mutation) : Prop :=
  match m with
  | AddSchedule task dt => plain task /\ plain dt
  | AddTodo task => plain task
  | UpdateSchedule task status | UpdateTodo task status =>
      plain task /\ plain status
  | DoneByNumber _ | DeleteByNumber _ | ToggleByNumber _ => True
  end.

(** ** The operations, case by case *)

Ltac unfold_cmd :=
  cbv [bind ret print read mutate create_backup restore clear_backup save_data].

Lemma add_schedule_eq io task dt a :
  add_schedule io task dt a =
  if negb (validate_datetime dt) then (false, a, [BadDatetime])
  else
    let label := "add schedule " +:+ task +:+ " " +:+ dt in
    if existsb (same_schedule task dt) (schedules (data a)) then
      (false, checkpointed label a, [DuplicateSchedule task dt])
    else
      (io, changed label (fun d => with_schedules
             (schedules d ++ [{| s_task := task; s_datetime := dt;
                                 s_status := "pending" |}]) d) a,
       saved_or io (ScheduleAdded task dt)).
Proof.
  unfold add_schedule. destruct (validate_datetime dt); [|reflexivity].
  unfold_cmd. cbn.
  destruct (existsb _ _); [reflexivity|]. destruct io; reflexivity.
Qed.

Lemma add_todo_eq io task a :
  add_todo io task a =
  let label := "add todo " +:+ task in
  if existsb (same_todo task) (todos (data a)) then
    (false, checkpointed label a, [DuplicateTodo task])
  else
    (io, changed label (fun d => with_todos
           (todos d ++ [{| t_task := task; t_status := "pending" |}]) d) a,
     saved_or io (TodoAdded task)).
Proof.
  unfold add_todo. unfold_cmd. cbn.
  destruct (existsb _ _); [reflexivity|]. destruct io; reflexivity.
Qed.

Lemma update_schedule_status_eq io task status a :
  update_schedule_status io task status a =
  if negb (known_status status) then (false, a, [BadStatus])
  else
    let label := "update schedule " +:+ task +:+ " " +:+ status in
    match list_find (fun s => s_task s = task) (schedules (data a)) with
    | Some (i, s) =>
        (io, changed label (fun d => with_schedules
               (<[i := s_with_status status s]> (schedules d)) d) a,
         saved_or io (ScheduleStatusChanged (icon_of status IconClock)
                        task (s_status s) status))
    | None => (false, checkpointed label a, [ScheduleNotFound task])
    end.
Proof.
  unfold update_schedule_status. destruct (known_status status); [|reflexivity].
  unfold_cmd. cbn.
  destruct (list_find _ _) as [[i s]|]; [|reflexivity]. destruct io; reflexivity.
Qed.

Lemma update_todo_status_eq io task status a :
  update_todo_status io task status a =
  if negb (known_status status) then (false, a, [BadStatus])
  else
    let label := "update todo " +:+ task +:+ " " +:+ status in
    match list_find (fun t => t_task t = task) (todos (data a)) with
    | Some (i, t) =>
        (io, changed label (fun d => with_todos
               (<[i := t_with_status status t]> (todos d)) d) a,
         saved_or io (TodoStatusChanged (icon_of status IconHourglass)
                        task (t_status t) status))
    | None => (false, checkpointed label a, [TodoNotFound task])
    end.
Proof.
  unfold update_todo_status. destruct (known_status status); [|reflexivity].
  unfold_cmd. cbn.
  destruct (list_find _ _) as [[i s]|]; [|reflexivity]. destruct io; reflexivity.
Qed.

Lemma in_range_lookup number l :
  in_range number l -> exists t, l !! Z.to_nat (number - 1) = Some t.
Proof.
  intros [H1 H2]. apply lookup_lt_is_Some. lia.
Qed.

Lemma by_number_empty number body a :
  todos (data a) = [] -> by_number number body a = (false, a, [EmptyTodos]).
Proof. intros E. unfold by_number. unfold_cmd. rewrite E. reflexivity. Qed.

Lemma by_number_out_of_range number body a :
  todos (data a) <> [] -> ~ in_range number (todos (data a)) ->
  by_number number body a = (false, a, [BadNumber (length (todos (data a)))]).
Proof.
  intros NE H. unfold by_number. unfold_cmd.
  destruct (todos (data a)) as [|t l] eqn:E; [congruence|].
  destruct (_ || _) eqn:C; [reflexivity|].
  exfalso. apply H. apply orb_false_iff in C as [C1 C2]. unfold in_range. lia.
Qed.

Lemma by_number_in_range number body a t :
  todos (data a) !! Z.to_nat (number - 1) = Some t ->
  in_range number (todos (data a)) ->
  by_number number body a =
  let '(r, a', o) := body (Z.to_nat (number - 1)) t a in (r, a', o).
Proof.
  intros L [H1 H2]. unfold by_number. unfold_cmd.
  destruct (todos (data a)) as [|t0 l] eqn:E; [discriminate|].
  destruct (_ || _) eqn:C.
  { apply orb_true_iff in C as [C|C]; lia. }
  rewrite L. destruct (body _ _ _) as [[r a'] o]. reflexivity.
Qed.

Lemma done_todo_by_number_eq io number a t :
  in_range number (todos (data a)) ->
  todos (data a) !! Z.to_nat (number - 1) = Some t ->
  done_todo_by_number io number a =
  (io,
   changed ("done " +:+ pretty number +:+ " (" +:+ t_task t +:+ ")")
     (fun d => with_todos
        (<[Z.to_nat (number - 1) := t_with_status "completed" t]> (todos d)) d) a,
   saved_or io (TodoCompleted (t_task t))).
Proof.
  intros R L. unfold done_todo_by_number.
  rewrite (by_number_in_range _ _ _ t L R).
  unfold_cmd. cbn. destruct io; reflexivity.
Qed.

Lemma delete_todo_by_number_eq io number a t :
  in_range number (todos (data a)) ->
  todos (data a) !! Z.to_nat (number - 1) = Some t ->
  delete_todo_by_number io number a =
  (io,
   changed ("delete " +:+ pretty number +:+ " (" +:+ t_task t +:+ ")")
     (fun d => with_todos (delete (Z.to_nat (number - 1)) (todos d)) d) a,
   saved_or io (TodoDeleted (t_task t))).
Proof.
  intros R L. unfold delete_todo_by_number.
  rewrite (by_number_in_range _ _ _ t L R).
  unfold_cmd. cbn. destruct io; reflexivity.
Qed.

Lemma toggle_todo_by_number_eq io number a t :
  in_range number (todos (data a)) ->
  todos (data a) !! Z.to_nat (number - 1) = Some t ->
  toggle_todo_by_number io number a =
  (io,
   changed ("update todo " +:+ pretty number +:+ " (" +:+ t_task t +:+ ": "
            +:+ t_status t +:+ " -> " +:+ toggled (t_status t) +:+ ")")
     (fun d => with_todos
        (<[Z.to_nat (number - 1) := t_with_status (toggled (t_status t)) t]>
           (todos d)) d) a,
   saved_or io (TodoStatusChanged (icon_of (toggled (t_status t)) IconHourglass)
                  (t_task t) (t_status t) (toggled (t_status t)))).
Proof.
  intros R L. unfold toggle_todo_by_number.
  rewrite (by_number_in_range _ _ _ t L R).
  unfold_cmd. cbn. destruct io; reflexivity.
Qed.

(** ** The three shapes of a mutation's outcome *)

(** The three ways a number-addressed operation can go. *)
Lemma by_number_cases number (a : PersonalAssistant) :
  todos (data a) = [] \/
  (todos (data a) <> [] /\ ~ in_range number (todos (data a))) \/
  (in_range number (todos (data a)) /\
   exists t, todos (data a) !! Z.to_nat (number - 1) = Some t).
Proof.
  destruct (decide (todos (data a) = [])) as [E|E]; [by left|right].
  destruct (decide (in_range number (todos (data a)))) as [R|R]; [right|by left].
  split; [exact R|]. by apply in_range_lookup.
Qed.

Lemma apply_mutation_outcome io m a : outcome io a (apply_mutation io m a).
Proof.
  destruct m as [task dt|task|task status|task status|n|n|n]; cbn [apply_mutation].
  - rewrite add_schedule_eq. destruct (negb _); [by eapply Refused|].
    cbv zeta. destruct (existsb _ _); [by eapply Missed|by apply Applied].
  - rewrite add_todo_eq. cbv zeta.
    destruct (existsb _ _); [by eapply Missed|by apply Applied].
  - rewrite update_schedule_status_eq. destruct (negb _); [by eapply Refused|].
    cbv zeta. destruct (list_find _ _) as [[i s]|];
      [by apply Applied|by eapply Missed].
  - rewrite update_todo_status_eq. destruct (negb _); [by eapply Refused|].
    cbv zeta. destruct (list_find _ _) as [[i s]|];
      [by apply Applied|by eapply Missed].
  - unfold done_todo_by_number at 1.
    destruct (by_number_cases n a) as [E|[[E R]|[R [t L]]]].
    + rewrite by_number_empty by exact E. by eapply Refused.
    + rewrite by_number_out_of_range by assumption. by eapply Refused.
    + fold (done_todo_by_number io n).
      rewrite (done_todo_by_number_eq _ _ _ t R L). by apply Applied.
  - unfold delete_todo_by_number at 1.
    destruct (by_number_cases n a) as [E|[[E R]|[R [t L]]]].
    + rewrite by_number_empty by exact E. by eapply Refused.
    + rewrite by_number_out_of_range by assumption. by eapply Refused.
    + fold (delete_todo_by_number io n).
      rewrite (delete_todo_by_number_eq _ _ _ t R L). by apply Applied.
  - unfold toggle_todo_by_number at 1.
    destruct (by_number_cases n a) as [E|[[E R]|[R [t L]]]].
    + rewrite by_number_empty by exact E. by eapply Refused.
    + rewrite by_number_out_of_range by assumption. by eapply Refused.
    + fold (toggle_todo_by_number io n).
      rewrite (toggle_todo_by_number_eq _ _ _ t R L). by apply Applied.
Qed.

(** ** The shapes of a dispatched command line *)

Lemma group_reported header lines rest :
  kind_of header = None -> reported rest = None ->
  reported (group header lines ++ rest) = None.
Proof. intros H R. destruct lines; [exact R|exact H]. Qed.

Lemma list_todos_reported d : reported (list_todos d) = None.
Proof. unfold list_todos. by destruct (todos d). Qed.

Lemma list_schedules_reported now d o :
  list_schedules now d = Ok o -> reported o = None.
Proof.
  unfold list_schedules. intros H.
  destruct (schedules d) as [|s0 ss]; [by inversion H|].
  destruct (_ <? _); [discriminate|].
  destruct (keyed _) as [ks|]; [|discriminate].
  destruct (recent now ks); inversion H; [reflexivity|].
  apply group_reported; [reflexivity|].
  rewrite <- (app_nil_r (group FutureHeader _)). by apply group_reported.
Qed.

Lemma list_all_reported now d o :
  list_all now d = Ok o -> reported o = None.
Proof.
  unfold list_all. intros H.
  destruct (list_schedules now d) as [o1|] eqn:E; inversion H.
  apply list_schedules_reported in E.
  destruct o1; [apply list_todos_reported|exact E].
Qed.

Ltac split_ifs :=
  repeat match goal with
         | |- context [if ?c then _ else _] => destruct c
         | |- context [match Text.int ?s with _ => _ end] => destruct (Text.int s)
         end.

Ltac dispatched_leaf :=
  first
    [ apply OnlyPrints; cbn; tauto
    | apply CallsUndo
    | apply CallsQuery;
      first [ apply list_schedules_reported | apply list_all_reported
            | intros ? ? [= <-]; apply list_todos_reported ]
    | apply (CallsMutation _ _ (AddSchedule _ _))
    | apply (CallsMutation _ _ (AddTodo _))
    | apply (CallsMutation _ _ (UpdateSchedule _ _))
    | apply (CallsMutation _ _ (UpdateTodo _ _))
    | apply (CallsMutation _ _ (DoneByNumber _))
    | apply (CallsMutation _ _ (DeleteByNumber _))
    | apply (CallsMutation _ _ (ToggleByNumber _)) ].

Lemma parse_command_dispatched io now command a :
  dispatched io a (parse_command io now command a).
Proof.
  unfold parse_command. destruct (Text.split command) as [|first rest].
  { apply OnlyPrints. by left. }
  unfold parse_add, parse_list, parse_update, add_schedule_cmd, add_todo_cmd,
    update_todo_cmd, update_schedule_cmd.
  split_ifs; unfold say; dispatched_leaf.
Qed.

(** ** Checkpoint ordering, undo and the slot invariant *)

Lemma outcome_reported io a r a' o k :
  outcome io a (r, a', o) -> reported o = Some k ->
  (checked_first k = true -> a' = a) /\
  (checked_after k = true -> exists label, a' = checkpointed label a).
Proof.
  intros H K. inversion H as [m k0 Km F|label m k0 Km F|label f m Km]; subst.
  - cbn in K. rewrite Km in K. injection K as <-. split; [done|].
    intros F'. destruct k0; discriminate.
  - cbn in K. rewrite Km in K. injection K as <-. split; [|by exists label].
    intros F'. destruct k0; discriminate.
  - destruct r; cbn in K; [congruence|]. injection K as <-. by split.
Qed.

Lemma undo_last_command_eq io a :
  undo_last_command io a =
  match backup_data a, last_command a with
  | Some h, Some label =>
      let d := match h with OwnCopy d => d | SameObject => data a end in
      if io then
        (true, {| data := d; backup_data := None; last_command := None |},
         [Undone label])
      else
        (false, {| data := d; backup_data := Some SameObject;
                   last_command := Some label |},
         [SaveFailed; UndoFailed])
  | _, _ => (false, a, [NothingToUndo])
  end.
Proof.
  unfold undo_last_command.
  destruct (backup_data a) as [h|]; destruct (last_command a) as [label|] eqn:El;
    try reflexivity.
  unfold_cmd. rewrite El. destruct io; reflexivity.
Qed.

(** C1, as stated, fails: a number-addressed operation rejected for
    [EmptyCollection] or [OutOfRange] returns before any checkpoint is
    taken, so the slot is not replaced by a copy of the document. *)
Lemma checkpoint_ordering_counterexample :
  let a := init NoFile in
  let b := init (Stored {| schedules := [];
                           todos := [{| t_task := "a"; t_status := "pending" |}] |}) in
  (fails_with EmptyCollection (done_todo_by_number true 1 a) /\
   held_document (done_todo_by_number true 1 a).1.2 <> Some (data a)) /\
  (fails_with OutOfRange (delete_todo_by_number true 2 b) /\
   held_document (delete_todo_by_number true 2 b).1.2 <> Some (data b)).
Proof. repeat split; cbn; discriminate. Qed.

(** C1 (amended): a mutation rejected for [InvalidFormat], [InvalidStatus],
    [OutOfRange] or [EmptyCollection] leaves the whole session state, and so
    the held checkpoint and its label, unchanged; a mutation rejected for
    [DuplicateEntry] or [NotFound] leaves the document unchanged and
    replaces the held checkpoint with a copy of the pre-command document
    under a new label. This holds for each operation called directly and
    for every command line given to the dispatcher. *)
Theorem checkpoint_ordering :
  (forall io m a k,
     fails_with k (apply_mutation io m a) ->
     (checked_first k = true -> (apply_mutation io m a).1.2 = a) /\
     (checked_after k = true ->
      exists label, (apply_mutation io m a).1.2 = checkpointed label a)) /\
  (forall io now command a b a' o k,
     parse_command io now command a = Ok (b, a', o) ->
     reported o = Some k ->
     (checked_first k = true -> a' = a) /\
     (checked_after k = true -> exists label, a' = checkpointed label a)).
Proof.
  split.
  - intros io m a k [_ K].
    pose proof (apply_mutation_outcome io m a) as H.
    destruct (apply_mutation io m a) as [[r a'] o]. cbn in *.
    exact (outcome_reported _ _ _ _ _ _ H K).
  - intros io now command a b a' o k E K.
    pose proof (parse_command_dispatched io now command a) as D.
    rewrite E in D.
    inversion D as [b0 o0 Hk|m Hc|Hc|q Hq Hc]; subst.
    + split; [done|]. intros F. destruct Hk as [Hk|Hk]; rewrite Hk in K;
        [discriminate|]. injection K as <-. discriminate.
    + unfold call in Hc.
      pose proof (apply_mutation_outcome io m a) as H.
      destruct (apply_mutation io m a) as [[r a1] o1].
      injection Hc as <- <- <-.
      exact (outcome_reported _ _ _ _ _ _ H K).
    + unfold call in Hc. rewrite undo_last_command_eq in Hc.
      destruct (backup_data a) as [h|], (last_command a) as [label|];
        try destruct io; injection Hc as <- <- <-; cbn in K;
        try discriminate; injection K as <-; by split.
    + unfold query in Hc. destruct (q (data a)) as [o1|] eqn:Q; [|discriminate].
      injection Hc as <- <- <-. rewrite (Hq _ _ Q) in K. discriminate.
Qed.

(** One instance of each half: a malformed status changes nothing, a
    duplicate to-do replaces the checkpoint. *)
Lemma checkpoint_ordering_witness :
  let a := init (Stored {| schedules := [];
                           todos := [{| t_task := "a"; t_status := "pending" |}] |}) in
  (update_todo_status true "a" "finished" a).1.2 = a /\
  exists label, (add_todo true "a" a).1.2 = checkpointed label a.
Proof.
  intros a. split.
  - apply (proj1 checkpoint_ordering true (UpdateTodo "a" "finished") a InvalidStatus);
      [split; reflexivity | reflexivity].
  - apply (proj1 checkpoint_ordering true (AddTodo "a") a DuplicateEntry);
      [split; reflexivity | reflexivity].
Defined.

(** C2: after a mutation that succeeds, one undo whose save succeeds
    returns success and restores the document the mutation started from;
    a second undo right after it fails with "nothing to undo", whatever
    its save would do, and leaves the session as it is. *)
Theorem undo_single_use io m a a1 o1 :
  apply_mutation io m a = (true, a1, o1) ->
  exists a2 label,
    undo_last_command true a1 = (true, a2, [Undone label]) /\
    data a2 = data a /\
    forall io', undo_last_command io' a2 = (false, a2, [NothingToUndo]).
Proof.
  intros E. pose proof (apply_mutation_outcome io m a) as H. rewrite E in H.
  inversion H as [| |label f msg Km]; subst.
  exists {| data := data a; backup_data := None; last_command := None |}, label.
  rewrite undo_last_command_eq. cbn. split; [reflexivity|split; [reflexivity|]].
  intros io'. reflexivity.
Qed.

Lemma undo_single_use_witness :
  exists a2 label,
    undo_last_command true (add_todo true "a" (init NoFile)).1.2
      = (true, a2, [Undone label]) /\
    data a2 = data (init NoFile) /\
    forall io', undo_last_command io' a2 = (false, a2, [NothingToUndo]).
Proof.
  apply (undo_single_use true (AddTodo "a") (init NoFile) _ [TodoAdded "a"]).
  reflexivity.
Defined.

Lemma outcome_slot_consistent io a r a' o :
  outcome io a (r, a', o) -> slot_consistent a -> slot_consistent a'.
Proof.
  intros H I. inversion H; subst; [exact I| |]; split; discriminate.
Qed.

(** C9: [backup_data] is [None] exactly when [last_command] is [None]:
    this holds after initialization and is preserved by every mutating
    operation, by undo, and by every command line the dispatcher handles
    (queries and guidance included). *)
Theorem slot_invariant :
  (forall f, slot_consistent (init f)) /\
  (forall io m a,
     slot_consistent a -> slot_consistent (apply_mutation io m a).1.2) /\
  (forall io a,
     slot_consistent a -> slot_consistent (undo_last_command io a).1.2) /\
  (forall io now command a b a' o,
     slot_consistent a ->
     parse_command io now command a = Ok (b, a', o) ->
     slot_consistent a').
Proof.
  assert (U : forall io a,
             slot_consistent a -> slot_consistent (undo_last_command io a).1.2).
  { intros io a I. rewrite undo_last_command_eq.
    destruct (backup_data a) as [h|] eqn:Eb, (last_command a) as [label|] eqn:El;
      try exact I.
    destruct io; split; cbn; done. }
  split; [|split; [|split]].
  - intros f. split; reflexivity.
  - intros io m a I. pose proof (apply_mutation_outcome io m a) as H.
    destruct (apply_mutation io m a) as [[r a'] o].
    exact (outcome_slot_consistent _ _ _ _ _ H I).
  - exact U.
  - intros io now command a b a' o I E.
    pose proof (parse_command_dispatched io now command a) as D. rewrite E in D.
    inversion D as [b0 o0 Hk|m Hc|Hc|q Hq Hc]; subst.
    + exact I.
    + unfold call in Hc. pose proof (apply_mutation_outcome io m a) as H.
      destruct (apply_mutation io m a) as [[r a1] o1]. injection Hc as <- <- <-.
      exact (outcome_slot_consistent _ _ _ _ _ H I).
    + unfold call in Hc. specialize (U io a I).
      destruct (undo_last_command io a) as [[r a1] o1]. by injection Hc as <- <- <-.
    + unfold query in Hc. destruct (q (data a)); [|discriminate].
      by injection Hc as <- <- <-.
Qed.

Lemma slot_invariant_witness :
  slot_consistent (init NoFile) /\
  slot_consistent
    {| data := {| schedules := [];
                  todos := [{| t_task := "a"; t_status := "pending" |}] |};
       backup_data := Some (OwnCopy empty_document);
       last_command := Some "add todo a" |}.
Proof.
  split; [apply slot_invariant|].
  apply (proj2 (proj2 (proj2 slot_invariant))
           true 0 "add todo a" (init NoFile) true _ [TodoAdded "a"]).
  - apply slot_invariant.
  - reflexivity.
Defined.

(** C10: when undo finds a checkpoint and its label but the save fails, the
    document has already been replaced by the checkpoint's, undo returns
    failure, and the slot and the label stay set; the next undo does not
    report "nothing to undo": it restores the same document and saves
    again, succeeding when that save does. *)
Theorem undo_save_failure a d label :
  held_document a = Some d ->
  last_command a = Some label ->
  exists a1,
    undo_last_command false a = (false, a1, [SaveFailed; UndoFailed]) /\
    data a1 = d /\
    held_document a1 = Some d /\
    last_command a1 = Some label /\
    undo_last_command false a1 = (false, a1, [SaveFailed; UndoFailed]) /\
    undo_last_command true a1 =
      (true, {| data := d; backup_data := None; last_command := None |},
       [Undone label]).
Proof.
  intros Hd Hl. unfold held_document in Hd.
  destruct (backup_data a) as [h|] eqn:Eb; [|discriminate].
  eexists. rewrite undo_last_command_eq, Eb, Hl. cbv zeta.
  split; [reflexivity|].
  assert (match h with OwnCopy d0 => d0 | SameObject => data a end = d) as ->.
  { destruct h; congruence. }
  rewrite !undo_last_command_eq. cbn. repeat split.
Qed.

Lemma undo_save_failure_witness :
  exists a1,
    undo_last_command false (add_todo true "a" (init NoFile)).1.2
      = (false, a1, [SaveFailed; UndoFailed]) /\
    data a1 = empty_document /\
    held_document a1 = Some empty_document /\
    last_command a1 = Some "add todo a" /\
    undo_last_command false a1 = (false, a1, [SaveFailed; UndoFailed]) /\
    undo_last_command true a1 =
      (true, {| data := empty_document; backup_data := None;
                last_command := None |},
       [Undone "add todo a"]).
Proof.
  apply (undo_save_failure (add_todo true "a" (init NoFile)).1.2
           empty_document "add todo a"); reflexivity.
Defined.

(** ** Facts about the matcher *)

Module CalendarFacts.
Import Text Calendar.

Lemma starts_ret {A} (a : A) s : starts (Calendar.ret a) s a s.
Proof. by exists []. Qed.

Lemma starts_bind {A B} (p : Parser A) (k : A -> Parser B) s a r b r' :
  starts p s a r -> starts (k a) r b r' -> starts (Calendar.bind p k) s b r'.
Proof.
  intros [rest E] [rest' E']. unfold starts, Calendar.bind. rewrite E. cbn. rewrite E'.
  eexists. reflexivity.
Qed.

Lemma starts_alt_l {A} (p q : Parser A) s a r :
  starts p s a r -> starts (alt p q) s a r.
Proof. intros [rest E]. unfold starts, alt. rewrite E. eexists. reflexivity. Qed.

Lemma starts_alt_r {A} (p q : Parser A) s a r :
  p s = [] -> starts q s a r -> starts (alt p q) s a r.
Proof. intros E [rest E']. unfold starts, alt. rewrite E, E'. eexists. reflexivity. Qed.

Lemma starts_lit c r : starts (lit c) (String c r) tt r.
Proof. exists []. cbn. by rewrite Ascii.eqb_refl. Qed.

Lemma starts_one ok c d r :
  digit c = Some d -> ok d = true -> starts (one ok) (String c r) d r.
Proof. intros D O. exists []. cbn. by rewrite D, O. Qed.

Lemma one_nil ok c d r :
  digit c = Some d -> ok d = false -> one ok (String c r) = [].
Proof. intros D O. cbn. by rewrite D, O. Qed.

Lemma starts_two hi lo c1 c2 a b r :
  digit c1 = Some a -> hi a = true -> digit c2 = Some b -> lo b = true ->
  starts (two hi lo) (String c1 (String c2 r)) (10 * a + b) r.
Proof.
  intros. unfold two. eapply starts_bind; [by apply starts_one|].
  eapply starts_bind; [by apply starts_one|]. apply starts_ret.
Qed.

Lemma two_nil_hi hi lo c d r :
  digit c = Some d -> hi d = false -> two hi lo (String c r) = [].
Proof. intros D O. unfold two, Calendar.bind. by rewrite (one_nil _ _ _ _ D O). Qed.

Lemma digit_range c d : digit c = Some d -> 0 <= d <= 9.
Proof.
  unfold digit. destruct (_ && _) eqn:E; [|discriminate].
  intros [= <-]. apply andb_true_iff in E as [E1 E2]. lia.
Qed.

Lemma digit_not_space c d : digit c = Some d -> is_space c = false.
Proof.
  unfold digit, is_space. destruct (_ && _) eqn:E; [|discriminate].
  intros _. apply andb_true_iff in E as [E1 E2].
  apply orb_false_iff. split; apply andb_false_iff; lia.
Qed.

Lemma starts_spaces1 c d r :
  digit c = Some d -> starts spaces1 (String " " (String c r)) tt (String c r).
Proof.
  intros D. exists []. cbn [spaces1].
  replace (is_space " ") with true by reflexivity.
  by rewrite (digit_not_space _ _ D).
Qed.

Lemma days_in_month_le y m : days_in_month y m <= 31.
Proof.
  unfold days_in_month.
  repeat match goal with
         | |- context [match ?x with _ => _ end] => destruct x
         end; lia.
Qed.

Ltac ok_side :=
  unfold between, any;
  first [ reflexivity
        | repeat first [ rewrite andb_true_iff | rewrite andb_false_iff
                       | rewrite Z.leb_le | rewrite Z.leb_gt
                       | rewrite Z.eqb_eq | rewrite Z.eqb_neq ];
          lia ].

(** Choose the alternative of a two-digit field that matches. *)
Ltac pick_alt :=
  first
    [ eapply starts_two; [eassumption | ok_side | eassumption | ok_side]
    | apply starts_alt_l;
      eapply starts_two; [eassumption | ok_side | eassumption | ok_side]
    | apply starts_alt_r;
      [ eapply two_nil_hi; [eassumption | ok_side] | pick_alt ] ].

Lemma starts_re_Y c1 c2 c3 c4 a b c d r :
  digit c1 = Some a -> digit c2 = Some b -> digit c3 = Some c ->
  digit c4 = Some d ->
  starts re_Y (String c1 (String c2 (String c3 (String c4 r))))
         (1000 * a + 100 * b + 10 * c + d) r.
Proof.
  intros. unfold re_Y.
  repeat (eapply starts_bind; [by apply starts_one|]). apply starts_ret.
Qed.

Lemma starts_re_m c1 c2 a b r :
  digit c1 = Some a -> digit c2 = Some b -> 1 <= 10 * a + b <= 12 ->
  starts re_m (String c1 (String c2 r)) (10 * a + b) r.
Proof.
  intros Da Db R.
  pose proof (digit_range _ _ Da). pose proof (digit_range _ _ Db).
  assert (a = 0 \/ a = 1) as [-> | ->] by lia; unfold re_m; pick_alt.
Qed.

Lemma starts_re_d c1 c2 a b r :
  digit c1 = Some a -> digit c2 = Some b -> 1 <= 10 * a + b <= 31 ->
  starts re_d (String c1 (String c2 r)) (10 * a + b) r.
Proof.
  intros Da Db R.
  pose proof (digit_range _ _ Da). pose proof (digit_range _ _ Db).
  assert (a = 0 \/ a = 1 \/ a = 2 \/ a = 3) as [-> | [-> | [-> | ->]]] by lia;
    unfold re_d; pick_alt.
Qed.

Lemma starts_re_H c1 c2 a b r :
  digit c1 = Some a -> digit c2 = Some b -> 10 * a + b <= 23 ->
  starts re_H (String c1 (String c2 r)) (10 * a + b) r.
Proof.
  intros Da Db R.
  pose proof (digit_range _ _ Da). pose proof (digit_range _ _ Db).
  assert (a = 0 \/ a = 1 \/ a = 2) as [-> | [-> | ->]] by lia;
    unfold re_H; pick_alt.
Qed.

Lemma starts_re_M c1 c2 a b r :
  digit c1 = Some a -> digit c2 = Some b -> 10 * a + b <= 59 ->
  starts re_M (String c1 (String c2 r)) (10 * a + b) r.
Proof.
  intros Da Db R.
  pose proof (digit_range _ _ Da). pose proof (digit_range _ _ Db).
  unfold re_M. pick_alt.
Qed.

End CalendarFacts.

(** Every canonical text parses. *)
Lemma canonical_strptime text :
  canonical_datetime text = true -> exists f, Calendar.strptime text = Some f.
Proof.
  unfold canonical_datetime. intros H.
  destruct (list_ascii_of_string text)
    as [|y1 [|y2 [|y3 [|y4 [|s1 [|m1 [|m2 [|s2 [|d1 [|d2 [|s3 [|h1 [|h2 [|s4
        [|n1 [|n2 [|x l]]]]]]]]]]]]]]]]] eqn:L; try discriminate.
  apply (f_equal string_of_list_ascii) in L.
  rewrite string_of_list_ascii_of_string in L. cbn in L. subst text.
  unfold four_digits, two_digits in H.
  destruct (Text.digit y1) as [ya|] eqn:Dy1; [|discriminate].
  destruct (Text.digit y2) as [yb|] eqn:Dy2; [|discriminate].
  destruct (Text.digit y3) as [yc|] eqn:Dy3; [|discriminate].
  destruct (Text.digit y4) as [yd|] eqn:Dy4; [|discriminate].
  destruct (Text.digit m1) as [ma|] eqn:Dm1; [|discriminate].
  destruct (Text.digit m2) as [mb|] eqn:Dm2; [|discriminate].
  destruct (Text.digit d1) as [da|] eqn:Dd1; [|discriminate].
  destruct (Text.digit d2) as [db|] eqn:Dd2; [|discriminate].
  destruct (Text.digit h1) as [ha|] eqn:Dh1; [|discriminate].
  destruct (Text.digit h2) as [hb|] eqn:Dh2; [|discriminate].
  destruct (Text.digit n1) as [na|] eqn:Dn1; [|discriminate].
  destruct (Text.digit n2) as [nb|] eqn:Dn2; [|discriminate].
  repeat match type of H with
         | _ && _ = true => let H' := fresh "C" in
                            apply andb_true_iff in H as [H H']
         end.
  apply Ascii.eqb_eq in H, C8, C7, C6. subst s1 s2 s3 s4.
  pose proof (CalendarFacts.days_in_month_le
                (1000 * ya + 100 * yb + 10 * yc + yd) (10 * ma + mb)).
  assert (S : Calendar.starts Calendar.format_regex
                (String y1 (String y2 (String y3 (String y4 (String "-"
                 (String m1 (String m2 (String "-" (String d1 (String d2
                 (String " " (String h1 (String h2 (String ":"
                 (String n1 (String n2 EmptyString))))))))))))))))
                {| Calendar.year := 1000 * ya + 100 * yb + 10 * yc + yd;
                   Calendar.month := 10 * ma + mb;
                   Calendar.day := 10 * da + db;
                   Calendar.hour := 10 * ha + hb;
                   Calendar.minute := 10 * na + nb |} EmptyString).
  { unfold Calendar.format_regex.
    eapply CalendarFacts.starts_bind; [by apply CalendarFacts.starts_re_Y|].
    eapply CalendarFacts.starts_bind; [apply CalendarFacts.starts_lit|].
    eapply CalendarFacts.starts_bind;
      [apply CalendarFacts.starts_re_m; [done|done|lia]|].
    eapply CalendarFacts.starts_bind; [apply CalendarFacts.starts_lit|].
    eapply CalendarFacts.starts_bind;
      [apply CalendarFacts.starts_re_d; [done|done|lia]|].
    eapply CalendarFacts.starts_bind; [by eapply CalendarFacts.starts_spaces1|].
    eapply CalendarFacts.starts_bind;
      [apply CalendarFacts.starts_re_H; [done|done|lia]|].
    eapply CalendarFacts.starts_bind; [apply CalendarFacts.starts_lit|].
    eapply CalendarFacts.starts_bind;
      [apply CalendarFacts.starts_re_M; [done|done|lia]|].
    apply CalendarFacts.starts_ret. }
  destruct S as [rest S]. unfold Calendar.strptime. rewrite S.
  unfold Calendar.valid_date. cbn [Calendar.year Calendar.month Calendar.day].
  rewrite C5, C2, C1. cbn. eauto.
Qed.

Lemma canonical_valid text :
  canonical_datetime text = true -> validate_datetime text = true.
Proof.
  intros H. unfold validate_datetime.
  by destruct (canonical_strptime _ H) as [f ->].
Qed.


(** ** Adding schedules and to-dos *)

(** C4, as stated, fails in one direction: [strptime] accepts fields
    without their leading zeros, so a text that is not canonical can pass
    the check and be added. *)
Lemma add_schedule_format_counterexample :
  canonical_datetime "2024-5-5 9:5" = false /\
  add_schedule true "x" "2024-5-5 9:5" (init NoFile) =
    (true,
     {| data := {| schedules := [{| s_task := "x"; s_datetime := "2024-5-5 9:5";
                                    s_status := "pending" |}];
                   todos := [] |};
        backup_data := Some (OwnCopy empty_document);
        last_command := Some "add schedule x 2024-5-5 9:5" |},
     [ScheduleAdded "x" "2024-5-5 9:5"]) /\
  ~ fails_with InvalidFormat (add_schedule true "x" "2024-5-5 9:5" (init NoFile)).
Proof.
  split; [reflexivity|]. split; [reflexivity|]. intros [H _]. discriminate.
Qed.

(** C4 (amended): [add_schedule] fails with [InvalidFormat] exactly when
    [strptime] with the format ["%Y-%m-%d %H:%M"] rejects the text. Every
    canonical text is accepted, so a rejected text is never canonical. On
    that failure the session state is returned as it was: no checkpoint is
    taken and neither the document nor the slot changes. *)
Theorem add_schedule_invalid_format io task dt a :
  (fails_with InvalidFormat (add_schedule io task dt a)
   <-> Calendar.strptime dt = None) /\
  (fails_with InvalidFormat (add_schedule io task dt a)
   -> canonical_datetime dt = false) /\
  (fails_with InvalidFormat (add_schedule io task dt a)
   -> add_schedule io task dt a = (false, a, [BadDatetime])).
Proof.
  assert (E : fails_with InvalidFormat (add_schedule io task dt a)
              <-> Calendar.strptime dt = None).
  { rewrite add_schedule_eq. unfold validate_datetime.
    destruct (Calendar.strptime dt) as [f|]; cbn.
    - split; [|discriminate]. intros [_ K].
      destruct (existsb _ _); [discriminate|]. by destruct io.
    - split; [reflexivity|]. intros _. by split. }
  split; [exact E|]. split.
  - intros F. apply E in F.
    destruct (canonical_datetime dt) eqn:C; [|reflexivity].
    destruct (canonical_strptime _ C) as [f Hf]. congruence.
  - intros F. apply E in F. rewrite add_schedule_eq. unfold validate_datetime.
    by rewrite F.
Qed.

Lemma add_schedule_invalid_format_witness :
  canonical_datetime "2024-02-30 10:00" = false /\
  add_schedule true "x" "2024-02-30 10:00" (init NoFile)
    = (false, init NoFile, [BadDatetime]).
Proof.
  assert (F : fails_with InvalidFormat
                (add_schedule true "x" "2024-02-30 10:00" (init NoFile))).
  { apply (add_schedule_invalid_format true "x" "2024-02-30 10:00" (init NoFile)).
    reflexivity. }
  split; apply (add_schedule_invalid_format true "x" "2024-02-30 10:00"
                  (init NoFile)); exact F.
Defined.

Lemma existsb_same_schedule task dt d :
  existsb (same_schedule task dt) (schedules d) = true <-> has_schedule task dt d.
Proof.
  rewrite existsb_exists. unfold has_schedule, same_schedule.
  split; intros [s [I E]]; exists s.
  - apply andb_true_iff in E as [E1 E2].
    apply String.eqb_eq in E1, E2. by rewrite list_elem_of_In.
  - destruct E as [E1 E2]. rewrite <- list_elem_of_In.
    split; [done|]. apply andb_true_iff. by rewrite !String.eqb_eq.
Qed.

Lemma existsb_same_todo task d :
  existsb (same_todo task) (todos d) = true <-> has_todo task d.
Proof.
  rewrite existsb_exists. unfold has_todo, same_todo.
  split; intros [t [I E]]; exists t.
  - apply String.eqb_eq in E. by rewrite list_elem_of_In.
  - rewrite <- list_elem_of_In. split; [done|]. by apply String.eqb_eq.
Qed.

Lemma not_true_false b : ~ b = true -> b = false.
Proof. by destruct b. Qed.

(** C3: for every task and canonical datetime text, two calls of
    [add_schedule] in a row: the first, on a document without that pair and
    with a save that succeeds, returns success and appends the schedule as
    [pending]; the second, whatever the first did, fails with
    [DuplicateEntry] and leaves the schedules as the first call left them.
    The same for [add_todo] and the task text. *)
Theorem add_twice :
  (forall io1 io2 task dt a,
     canonical_datetime dt = true ->
     let r1 := add_schedule io1 task dt a in
     let r2 := add_schedule io2 task dt r1.1.2 in
     (~ has_schedule task dt (data a) -> io1 = true ->
      r1.1.1 = true /\
      schedules (data r1.1.2) =
        schedules (data a) ++ [{| s_task := task; s_datetime := dt;
                                  s_status := "pending" |}]) /\
     fails_with DuplicateEntry r2 /\
     r2.2 = [DuplicateSchedule task dt] /\
     data r2.1.2 = data r1.1.2) /\
  (forall io1 io2 task a,
     let r1 := add_todo io1 task a in
     let r2 := add_todo io2 task r1.1.2 in
     (~ has_todo task (data a) -> io1 = true ->
      r1.1.1 = true /\
      todos (data r1.1.2) =
        todos (data a) ++ [{| t_task := task; t_status := "pending" |}]) /\
     fails_with DuplicateEntry r2 /\
     r2.2 = [DuplicateTodo task] /\
     data r2.1.2 = data r1.1.2).
Proof.
  split.
  - intros io1 io2 task dt a C r1 r2. subst r1 r2.
    apply canonical_valid in C.
    assert (P : has_schedule task dt (data (add_schedule io1 task dt a).1.2)).
    { rewrite add_schedule_eq, C. cbn.
      destruct (existsb _ _) eqn:X; cbn.
      - by apply existsb_same_schedule.
      - exists {| s_task := task; s_datetime := dt; s_status := "pending" |}.
        cbn. split; [|done]. apply elem_of_app. right. by apply list_elem_of_singleton. }
    split.
    + intros N ->. rewrite add_schedule_eq, C. cbn.
      rewrite <- existsb_same_schedule in N. by rewrite (not_true_false _ N).
    + revert P. generalize ((add_schedule io1 task dt a).1.2). intros a1 P.
      apply existsb_same_schedule in P.
      rewrite (add_schedule_eq io2), C. cbn. rewrite P. by cbn.
  - intros io1 io2 task a r1 r2. subst r1 r2.
    assert (P : has_todo task (data (add_todo io1 task a).1.2)).
    { rewrite add_todo_eq. cbn.
      destruct (existsb _ _) eqn:X; cbn.
      - by apply existsb_same_todo.
      - exists {| t_task := task; t_status := "pending" |}.
        cbn. split; [|done]. apply elem_of_app. right. by apply list_elem_of_singleton. }
    split.
    + intros N ->. rewrite add_todo_eq. cbn.
      rewrite <- existsb_same_todo in N. by rewrite (not_true_false _ N).
    + revert P. generalize ((add_todo io1 task a).1.2). intros a1 P.
      apply existsb_same_todo in P.
      rewrite (add_todo_eq io2). cbn. rewrite P. by cbn.
Qed.

Lemma add_twice_witness :
  let r1 := add_schedule true "meeting" "2024-05-15 14:00" (init NoFile) in
  let r2 := add_schedule true "meeting" "2024-05-15 14:00" r1.1.2 in
  (r1.1.1 = true /\
   schedules (data r1.1.2) =
     [{| s_task := "meeting"; s_datetime := "2024-05-15 14:00";
         s_status := "pending" |}]) /\
  fails_with DuplicateEntry r2 /\
  r2.2 = [DuplicateSchedule "meeting" "2024-05-15 14:00"] /\
  data r2.1.2 = data r1.1.2.
Proof.
  pose proof (proj1 add_twice true true "meeting" "2024-05-15 14:00"
                (init NoFile) eq_refl) as [H1 H2].
  split; [|exact H2]. apply H1; [|reflexivity].
  intros [s [I _]]. cbn in I. by apply elem_of_nil in I.
Defined.

(** ** Deleting a to-do by number *)

(** C5: [delete_todo_by_number n] fails with [EmptyCollection] on an empty
    list and with [OutOfRange] when the list is not empty and [n] is outside
    [1..count], leaving the session as it was; for [n] in range it removes
    exactly the n-th item, whether or not the save succeeds: the items
    numbered below [n] keep their numbers, every item numbered [n+k]
    ([k >= 1]) is then numbered [n+k-1], and the schedules are untouched. *)
Theorem delete_by_number io n a :
  let r := delete_todo_by_number io n a in
  let l := todos (data a) in
  let l' := todos (data r.1.2) in
  (l = [] -> fails_with EmptyCollection r /\ r.1.2 = a) /\
  (l <> [] -> ~ in_range n l -> fails_with OutOfRange r /\ r.1.2 = a) /\
  (in_range n l ->
   r.1.1 = io /\
   l' = take (Z.to_nat (n - 1)) l ++ drop (Z.to_nat n) l /\
   Z.of_nat (length l') = Z.of_nat (length l) - 1 /\
   (forall p, 1 <= p < n -> item_at p l' = item_at p l) /\
   (forall k, 1 <= k -> item_at (n + k - 1) l' = item_at (n + k) l) /\
   schedules (data r.1.2) = schedules (data a)).
Proof.
  intros r l l'. subst r l l'. split; [|split].
  - intros E. unfold delete_todo_by_number. by rewrite by_number_empty.
  - intros E R. unfold delete_todo_by_number.
    by rewrite by_number_out_of_range.
  - intros R. destruct (in_range_lookup _ _ R) as [t L].
    rewrite (delete_todo_by_number_eq io n a t R L). cbn.
    destruct R as [R1 R2].
    split; [reflexivity|]. split.
    { rewrite delete_take_drop. do 2 f_equal. lia. }
    split.
    { rewrite length_delete by eauto.
      apply lookup_lt_Some in L. lia. }
    split; [|split; [|reflexivity]].
    + intros p Hp. unfold item_at. apply list_lookup_delete_lt. lia.
    + intros k Hk. unfold item_at.
      rewrite list_lookup_delete_ge by lia. f_equal. lia.
Qed.

Lemma delete_by_number_witness :
  let a := init (Stored {| schedules := [];
                           todos := [{| t_task := "a"; t_status := "pending" |};
                                     {| t_task := "b"; t_status := "pending" |};
                                     {| t_task := "c"; t_status := "pending" |}] |}) in
  todos (data (delete_todo_by_number true 1 a).1.2) =
    [{| t_task := "b"; t_status := "pending" |};
     {| t_task := "c"; t_status := "pending" |}] /\
  (fails_with OutOfRange (delete_todo_by_number true 4 a) /\
   (delete_todo_by_number true 4 a).1.2 = a) /\
  (fails_with EmptyCollection (delete_todo_by_number true 1 (init NoFile)) /\
   (delete_todo_by_number true 1 (init NoFile)).1.2 = init NoFile).
Proof.
  intros a. split; [|split].
  - apply (delete_by_number true 1 a). cbv. split; discriminate.
  - apply (delete_by_number true 4 a); [discriminate|].
    cbv. intros [_ H]. by apply H.
  - by apply (delete_by_number true 1 (init NoFile)).
Defined.

(** Numbering after a deletion: with three to-dos, deleting number 1 and
    then completing number 1 marks the former number 2. *)
Example numbering_shifts :
  let a := init (Stored {| schedules := [];
                           todos := [{| t_task := "a"; t_status := "pending" |};
                                     {| t_task := "b"; t_status := "pending" |};
                                     {| t_task := "c"; t_status := "pending" |}] |}) in
  todos (data (done_todo_by_number true 1
                 (delete_todo_by_number true 1 a).1.2).1.2) =
    [{| t_task := "b"; t_status := "completed" |};
     {| t_task := "c"; t_status := "pending" |}].
Proof. reflexivity. Qed.

(** ** Routing of [add] and [update] *)

Lemma startswith_two a b s :
  Text.startswith s (String a (String b EmptyString)) = true
  <-> exists r, s = String a (String b r).
Proof.
  unfold Text.startswith. split.
  - destruct s as [|c [|c' r]]; cbn; try discriminate.
    + by destruct (ascii_dec a c).
    + destruct (ascii_dec a c) as [->|]; [|discriminate].
      destruct (ascii_dec b c') as [->|]; [|discriminate]. eauto.
  - intros [r ->]. cbn.
    destruct (ascii_dec a a); [|done]. destruct (ascii_dec b b); [|done].
    by destruct r.
Qed.

Lemma names_schedule_test s :
  Text.startswith s "sc" || (s =? "s")%string = true <-> names_schedule s.
Proof.
  unfold names_schedule. rewrite orb_true_iff, String.eqb_eq. tauto.
Qed.

Lemma to_not_schedule s :
  Text.startswith s "to" = true -> ~ names_schedule s.
Proof.
  intros T [S| ->]; [|discriminate].
  apply startswith_two in T as [r ->]. discriminate.
Qed.

Lemma add_sub_cmd_schedule s : add_sub_cmd s = "schedule" <-> names_schedule s.
Proof.
  unfold add_sub_cmd. destruct (_ || _) eqn:S.
  - apply names_schedule_test in S. tauto.
  - split.
    + destruct (Text.startswith s "to"); [discriminate|].
      intros ->. discriminate.
    + intros N. apply names_schedule_test in N. congruence.
Qed.

Lemma add_sub_cmd_todo s :
  add_sub_cmd s = "todo" <-> Text.startswith s "to" = true.
Proof.
  unfold add_sub_cmd. destruct (_ || _) eqn:S.
  - apply names_schedule_test in S. split; [discriminate|].
    intros T. by destruct (to_not_schedule _ T).
  - destruct (Text.startswith s "to") eqn:T; [done|].
    split; [|discriminate]. intros ->. discriminate.
Qed.

Lemma update_sub_cmd_schedule s :
  update_sub_cmd s = "schedule" <-> names_schedule s.
Proof.
  unfold update_sub_cmd. destruct (Text.startswith s "sc" || _) eqn:S.
  - apply names_schedule_test in S. tauto.
  - split.
    + destruct (Text.startswith s "to" || _); [discriminate|].
      intros ->. discriminate.
    + intros N. apply names_schedule_test in N. congruence.
Qed.

Lemma update_sub_cmd_todo s :
  update_sub_cmd s = "todo"
  <-> Text.startswith s "to" = true \/ s = "t".
Proof.
  unfold update_sub_cmd. destruct (Text.startswith s "sc" || _) eqn:S.
  - apply names_schedule_test in S. split; [discriminate|].
    intros [T| ->]; [by destruct (to_not_schedule _ T)|].
    destruct S as [S| S]; discriminate.
  - destruct (Text.startswith s "to" || _) eqn:T.
    + apply orb_true_iff in T. rewrite String.eqb_eq in T. tauto.
    + split.
      * intros ->. discriminate.
      * intros T'. rewrite <- (String.eqb_eq s "t"), <- orb_true_iff in T'.
        congruence.
Qed.

Lemma parse_command_add io now command first rest a :
  Text.split command = first :: rest -> Text.lower first = "add" ->
  parse_command io now command a = parse_add io (first :: rest) a.
Proof. intros S L. unfold parse_command. rewrite S. cbv zeta. by rewrite L. Qed.

Lemma parse_command_update io now command first rest a :
  Text.split command = first :: rest -> Text.lower first = "update" ->
  parse_command io now command a = parse_update io (first :: rest) a.
Proof. intros S L. unfold parse_command. rewrite S. cbv zeta. by rewrite L. Qed.

(** C7, as stated, fails: with more than five tokens the dispatcher still
    calls [add_schedule] on tokens 2, 3 and 4 and ignores the rest. *)
Lemma add_schedule_arity_counterexample :
  length (Text.split "add s meeting 2024-05-15 14:00 extra") = 6%nat /\
  parse_command true 0 "add s meeting 2024-05-15 14:00 extra" (init NoFile) =
    Ok (true,
        {| data := {| schedules := [{| s_task := "meeting";
                                       s_datetime := "2024-05-15 14:00";
                                       s_status := "pending" |}];
                      todos := [] |};
           backup_data := Some (OwnCopy empty_document);
           last_command := Some "add schedule meeting 2024-05-15 14:00" |},
        [ScheduleAdded "meeting" "2024-05-15 14:00"]).
Proof. split; reflexivity. Qed.

(** C7 (amended): for a line whose token 0 is [add] (in any case) and whose
    token 1 resolves to the schedule sub-noun, the dispatcher calls
    [add_schedule] when the line has at least five tokens, with token 2 as
    the task and tokens 3 and 4 joined by a space as the datetime text,
    ignoring further tokens; with fewer than five tokens it prints the
    format guidance and leaves the session state unchanged. *)
Theorem add_schedule_arity io now command first sub rest a :
  Text.split command = first :: sub :: rest ->
  Text.lower first = "add" ->
  names_schedule (Text.lower sub) ->
  parse_command io now command a =
  match rest with
  | task :: date :: time :: _ =>
      call (add_schedule io task (date +:+ " " +:+ time)) a
  | _ => Ok (true, a, [AddScheduleUsage; AddScheduleHint])
  end.
Proof.
  intros S L N. rewrite (parse_command_add _ _ _ _ _ _ S L).
  apply add_sub_cmd_schedule in N.
  unfold parse_add. cbn [length Nat.ltb Nat.leb tok nth]. rewrite N. cbn [String.eqb].
  unfold add_schedule_cmd.
  destruct rest as [|task [|date [|time rest]]]; reflexivity.
Qed.

Lemma add_schedule_arity_witness :
  parse_command true 0 "ADD sched meeting 2024-05-15" (init NoFile) =
    Ok (true, init NoFile, [AddScheduleUsage; AddScheduleHint]) /\
  parse_command true 0 "add sc meeting 2024-05-15 14:00" (init NoFile) =
    call (add_schedule true "meeting" "2024-05-15 14:00") (init NoFile).
Proof.
  split.
  - apply (add_schedule_arity true 0 "ADD sched meeting 2024-05-15"
             "ADD" "sched" ["meeting"; "2024-05-15"]); [reflexivity..|].
    left. reflexivity.
  - apply (add_schedule_arity true 0 "add sc meeting 2024-05-15 14:00"
             "add" "sc" ["meeting"; "2024-05-15"; "14:00"]); [reflexivity..|].
    left. reflexivity.
Defined.

(** C8, as stated, fails for [update]: there token 1 resolves to the to-do
    sub-noun also when it is exactly ["t"], although it does not start with
    ["to"]; the line is routed to the to-do branch and changes the state. *)
Lemma sub_noun_counterexample :
  let a := init (Stored {| schedules := [];
                           todos := [{| t_task := "a"; t_status := "pending" |}] |}) in
  Text.startswith "t" "to" = false /\
  update_sub_cmd "t" = "todo" /\
  parse_command true 0 "update t 1" a =
    Ok (true,
        {| data := {| schedules := [];
                      todos := [{| t_task := "a"; t_status := "completed" |}] |};
           backup_data := Some (OwnCopy (data a));
           last_command := Some "update todo 1 (a: pending -> completed)" |},
        [TodoStatusChanged IconDone "a" "pending" "completed"]).
Proof. repeat split. Qed.

(** C8 (amended): with [s] the lower-cased token 1. For [add], [s] resolves
    to schedule exactly when it starts with ["sc"] or is ["s"], and to to-do
    exactly when it starts with ["to"]. For [update] on a line of at least
    three tokens, [s] resolves to schedule under the same rule, and to to-do
    exactly when it starts with ["to"] or is ["t"]. The line is routed to
    the branch of the resolved sub-noun; any other token 1 yields the
    unknown-sub-command messages and leaves the session state unchanged. *)
Theorem sub_noun_resolution io now command first sub rest a :
  Text.split command = first :: sub :: rest ->
  let parts := first :: sub :: rest in
  let s := Text.lower sub in
  (Text.lower first = "add" ->
   (add_sub_cmd s = "schedule" <-> names_schedule s) /\
   (add_sub_cmd s = "todo" <-> Text.startswith s "to" = true) /\
   (names_schedule s ->
    parse_command io now command a = add_schedule_cmd io parts a) /\
   (Text.startswith s "to" = true ->
    parse_command io now command a = add_todo_cmd io parts a) /\
   (~ names_schedule s -> Text.startswith s "to" <> true ->
    parse_command io now command a = Ok (true, a, [UnknownAdd; AddKindsHint])))
  /\
  (Text.lower first = "update" -> rest <> [] ->
   (update_sub_cmd s = "schedule" <-> names_schedule s) /\
   (update_sub_cmd s = "todo" <-> Text.startswith s "to" = true \/ s = "t") /\
   (names_schedule s ->
    parse_command io now command a = update_schedule_cmd io parts a) /\
   (Text.startswith s "to" = true \/ s = "t" ->
    parse_command io now command a = update_todo_cmd io parts a) /\
   (~ names_schedule s -> ~ (Text.startswith s "to" = true \/ s = "t") ->
    parse_command io now command a
      = Ok (true, a, [UnknownUpdate; UpdateKindsHint]))).
Proof.
  intros S parts s. split.
  - intros L. rewrite (parse_command_add _ _ _ _ _ _ S L).
    split; [apply add_sub_cmd_schedule|]. split; [apply add_sub_cmd_todo|].
    unfold parse_add. cbn [length Nat.ltb Nat.leb tok nth]. fold s.
    split; [|split].
    + intros N. apply add_sub_cmd_schedule in N. by rewrite N.
    + intros T. apply add_sub_cmd_todo in T. by rewrite T.
    + intros N T. rewrite <- add_sub_cmd_schedule in N.
      rewrite <- add_sub_cmd_todo in T.
      apply String.eqb_neq in N, T. by rewrite N, T.
  - intros L R. rewrite (parse_command_update _ _ _ _ _ _ S L).
    split; [apply update_sub_cmd_schedule|]. split; [apply update_sub_cmd_todo|].
    unfold parse_update. destruct rest as [|x rest]; [done|].
    cbn [length Nat.ltb Nat.leb tok nth]. fold s.
    split; [|split].
    + intros N. apply update_sub_cmd_schedule in N. by rewrite N.
    + intros T. apply update_sub_cmd_todo in T. by rewrite T.
    + intros N T. rewrite <- update_sub_cmd_schedule in N.
      rewrite <- update_sub_cmd_todo in T.
      apply String.eqb_neq in N, T. by rewrite N, T.
Qed.

Lemma sub_noun_resolution_witness :
  parse_command true 0 "add sx wash" (init NoFile)
    = Ok (true, init NoFile, [UnknownAdd; AddKindsHint]) /\
  parse_command true 0 "update x wash completed" (init NoFile)
    = Ok (true, init NoFile, [UnknownUpdate; UpdateKindsHint]).
Proof.
  split.
  - apply (sub_noun_resolution true 0 "add sx wash" "add" "sx" ["wash"]
             (init NoFile) eq_refl); [reflexivity| |discriminate].
    intros [N|N]; discriminate.
  - apply (sub_noun_resolution true 0 "update x wash completed" "update" "x"
             ["wash"; "completed"] (init NoFile) eq_refl);
      [reflexivity|discriminate| |].
    + intros [N|N]; discriminate.
    + intros [N|N]; discriminate.
Defined.

(** ** Bounds on what the matcher returns *)

Module ParserBounds.
Import Text Calendar.

Lemma yields_ret {A} (a : A) (P : A -> Prop) : P a -> yields (Calendar.ret a) P.
Proof. intros H s x r [[= <- _]|[]]. exact H. Qed.

Lemma yields_bind {A B} (p : Parser A) (k : A -> Parser B) P Q :
  yields p P -> (forall a, P a -> yields (k a) Q) -> yields (Calendar.bind p k) Q.
Proof.
  intros Hp Hk s b r I. unfold Calendar.bind in I.
  apply in_flat_map in I as [[a r'] [I1 I2]].
  eapply Hk; [eapply Hp; exact I1|exact I2].
Qed.

Lemma yields_alt {A} (p q : Parser A) P :
  yields p P -> yields q P -> yields (alt p q) P.
Proof.
  intros Hp Hq s a r I. unfold alt in I. apply in_app_iff in I as [I|I].
  - by eapply Hp.
  - by eapply Hq.
Qed.

Lemma yields_any {A} (p : Parser A) : yields p (fun _ => True).
Proof. done. Qed.

Lemma yields_one ok :
  yields (one ok) (fun d => 0 <= d <= 9 /\ ok d = true).
Proof.
  intros s d r I. destruct s as [|c s]; [done|]. cbn in I.
  destruct (digit c) as [d'|] eqn:D; [|done].
  destruct (ok d') eqn:O; [|done]. destruct I as [[= <- _]|[]].
  split; [by eapply CalendarFacts.digit_range|done].
Qed.

Lemma yields_two hi lo :
  yields (two hi lo)
    (fun v => exists a b, v = 10 * a + b /\ 0 <= a <= 9 /\ 0 <= b <= 9
                          /\ hi a = true /\ lo b = true).
Proof.
  unfold two. eapply yields_bind; [apply yields_one|]. intros a [Ra Ha].
  eapply yields_bind; [apply yields_one|]. intros b [Rb Hb].
  apply yields_ret. by exists a, b.
Qed.

Lemma yields_impl {A} (p : Parser A) (P Q : A -> Prop) :
  yields p P -> (forall a, P a -> Q a) -> yields p Q.
Proof. intros Hp HPQ s a r I. apply HPQ. by eapply Hp. Qed.

Ltac bounds :=
  intros; cbv beta in *;
  repeat match goal with
         | H : ex _ |- _ => destruct H as [? H]
         | H : _ /\ _ |- _ => destruct H as [? ?]
         end;
  unfold between, any in *;
  repeat match goal with
         | H : (_ && _)%bool = true |- _ => apply andb_true_iff in H as [? ?]
         | H : (_ <=? _) = true |- _ => apply Z.leb_le in H
         | H : (_ =? _) = true |- _ => apply Z.eqb_eq in H
         end;
  lia.

Lemma yields_re_Y : yields re_Y (fun y => 0 <= y <= 9999).
Proof.
  unfold re_Y.
  eapply yields_bind; [apply yields_one|]. intros a Ha.
  eapply yields_bind; [apply yields_one|]. intros b Hb.
  eapply yields_bind; [apply yields_one|]. intros c Hc.
  eapply yields_bind; [apply yields_one|]. intros d Hd.
  apply yields_ret. bounds.
Qed.

Lemma yields_re_m : yields re_m (fun m => 1 <= m <= 12).
Proof.
  unfold re_m.
  repeat apply yields_alt;
    (eapply yields_impl; [first [apply yields_two|apply yields_one]|bounds]).
Qed.

Lemma yields_re_d : yields re_d (fun d => 1 <= d <= 31).
Proof.
  unfold re_d.
  repeat apply yields_alt;
    try (eapply yields_impl; [first [apply yields_two|apply yields_one]|bounds]).
  eapply yields_bind; [apply yields_any|]. intros _ _.
  eapply yields_impl; [apply yields_one|bounds].
Qed.

Lemma yields_re_H : yields re_H (fun h => 0 <= h <= 23).
Proof.
  unfold re_H.
  repeat apply yields_alt;
    (eapply yields_impl; [first [apply yields_two|apply yields_one]|bounds]).
Qed.

Lemma yields_re_M : yields re_M (fun m => 0 <= m <= 59).
Proof.
  unfold re_M.
  repeat apply yields_alt;
    (eapply yields_impl; [first [apply yields_two|apply yields_one]|bounds]).
Qed.

Lemma yields_format_regex :
  yields format_regex
    (fun f => 0 <= year f <= 9999 /\ 1 <= month f <= 12 /\ 1 <= day f <= 31
              /\ 0 <= hour f <= 23 /\ 0 <= minute f <= 59).
Proof.
  unfold format_regex.
  eapply yields_bind; [apply yields_re_Y|]. intros y Hy.
  eapply yields_bind; [apply yields_any|]. intros _ _.
  eapply yields_bind; [apply yields_re_m|]. intros m Hm.
  eapply yields_bind; [apply yields_any|]. intros _ _.
  eapply yields_bind; [apply yields_re_d|]. intros d Hd.
  eapply yields_bind; [apply yields_any|]. intros _ _.
  eapply yields_bind; [apply yields_re_H|]. intros h Hh.
  eapply yields_bind; [apply yields_any|]. intros _ _.
  eapply yields_bind; [apply yields_re_M|]. intros mi Hmi.
  apply yields_ret. cbv beta in *. cbn [year month day hour minute].
  repeat split; lia.
Qed.

End ParserBounds.

(** ** The schedule listing *)

Lemma keyed_spec l ks :
  keyed l = Some ks ->
  Forall2 (fun s x => snd x = s /\ schedule_time s = Some (fst x)) l ks.
Proof.
  revert ks. induction l as [|s l IH]; intros ks; cbn.
  - intros [= <-]. constructor.
  - destruct (schedule_time s) as [t|] eqn:T; [|discriminate].
    destruct (keyed l) as [ks'|]; [|discriminate]. intros [= <-].
    constructor; [by split|]. by apply IH.
Qed.

Lemma keyed_valid l :
  Forall (fun s => validate_datetime (s_datetime s) = true) l ->
  exists ks, keyed l = Some ks.
Proof.
  induction 1 as [|s l V _ [ks IH]]; cbn; [by eexists|].
  unfold schedule_time, validate_datetime in *.
  destruct (Calendar.strptime (s_datetime s)); [|discriminate].
  cbn. rewrite IH. cbn. by eexists.
Qed.

Lemma keyed_elem_of l ks t s :
  keyed l = Some ks ->
  (t, s) ∈ ks <-> s ∈ l /\ schedule_time s = Some t.
Proof.
  intros K. apply keyed_spec in K.
  induction K as [|s0 [t0 s0'] l ks [E T] K IH]; cbn in *.
  - split; [intros H|intros [H _]]; by apply elem_of_nil in H.
  - subst s0'. rewrite !elem_of_cons, IH. split.
    + intros [[= -> ->]|[I T']]; [by split; [left|]|]. split; [by right|done].
    + intros [[->|I] T']; [left|right; by split]. congruence.
Qed.

Lemma insert_by_time_perm x l : insert_by_time x l ≡ₚ x :: l.
Proof.
  induction l as [|y l IH]; cbn; [done|].
  destruct (_ <=? _); [done|]. rewrite IH. apply perm_swap.
Qed.

Lemma sorted_by_time_perm l : sorted_by_time l ≡ₚ l.
Proof.
  induction l as [|x l IH]; cbn; [done|].
  by rewrite insert_by_time_perm, IH.
Qed.

Lemma insert_by_time_sorted x l :
  StronglySorted by_time l -> StronglySorted by_time (insert_by_time x l).
Proof.
  induction 1 as [|y l S IH F]; cbn.
  - repeat constructor.
  - destruct (fst x <=? fst y) eqn:C.
    + apply Z.leb_le in C. constructor; [by constructor|].
      constructor; [exact C|].
      eapply Forall_impl; [exact F|]. unfold by_time. intros z Hz. cbn in *. lia.
    + apply Z.leb_gt in C. constructor; [exact IH|].
      rewrite insert_by_time_perm. constructor; [|exact F].
      unfold by_time. lia.
Qed.

Lemma sorted_by_time_sorted l : StronglySorted by_time (sorted_by_time l).
Proof.
  induction l as [|x l IH]; cbn; [constructor|]. by apply insert_by_time_sorted.
Qed.



Lemma filter_sorted (P : Z * ScheduleItem -> Prop) `{!forall x, Decision (P x)} l :
  StronglySorted by_time l -> StronglySorted by_time (filter P l).
Proof.
  induction 1 as [|x l S IH F]; [constructor|].
  rewrite filter_cons. destruct (decide (P x)); [|exact IH].
  constructor; [exact IH|].
  rewrite Forall_forall in F |- *. intros y Hy.
  apply list_elem_of_filter in Hy as [_ Hy]. by apply F.
Qed.

(** In a list in time order the items before [now] form a prefix: the two
    groups, one after the other, are the list itself. *)
Lemma split_at_now now l :
  StronglySorted by_time l ->
  filter (fun x => fst x < now) l ++ filter (fun x => ~ fst x < now) l = l.
Proof.
  induction 1 as [|x l S IH F]; [done|].
  destruct (decide (fst x < now)) as [C|C].
  - rewrite filter_cons_True by exact C.
    rewrite (filter_cons_False (fun x => ~ fst x < now)) by tauto.
    cbn. by rewrite IH.
  - rewrite filter_cons_False by exact C.
    rewrite (filter_cons_True (fun x => ~ fst x < now)) by exact C.
    assert (E : filter (fun x => fst x < now) l = []).
    { clear IH S. induction F as [|y l R F IH]; [done|].
      rewrite filter_cons_False; [exact IH|]. unfold by_time in R. lia. }
    rewrite E in IH |- *. cbn in *. by rewrite IH.
Qed.

Lemma groups_recent now l :
  past_schedules now l ++ future_schedules now l = recent now l.
Proof.
  unfold past_schedules, future_schedules. apply split_at_now.
  unfold recent. apply filter_sorted, sorted_by_time_sorted.
Qed.

(** The scenario of the specification: from an empty document, add a
    to-do, list it, complete it, list it, delete it, list again. *)
Example todo_scenario :
  let a0 := init NoFile in
  let a1 := (add_todo true "laundry" a0).1.2 in
  let a2 := (done_todo_by_number true 1 a1).1.2 in
  let a3 := (delete_todo_by_number true 1 a2).1.2 in
  list_todos (data a1) = [TodoHeader; Rule;
                          TodoLine 1 IconHourglass "laundry" "pending"] /\
  list_todos (data a2) = [TodoHeader; Rule;
                          TodoLine 1 IconDone "laundry" "completed"] /\
  list_todos (data a3) = [NoTodos].
Proof. repeat split. Qed.

(** ** The calendar behind the listing, and what the listing shows *)

(** The days of the year before each month. *)
Lemma days_before_month_table y m :
  1 <= m <= 12 ->
  Calendar.days_before_month y m
  = match m with
    | 1 => 0 | 2 => 31 | 3 => 59 + leap_day y | 4 => 90 + leap_day y
    | 5 => 120 + leap_day y | 6 => 151 + leap_day y | 7 => 181 + leap_day y
    | 8 => 212 + leap_day y | 9 => 243 + leap_day y | 10 => 273 + leap_day y
    | 11 => 304 + leap_day y | _ => 334 + leap_day y
    end.
Proof.
  intros R.
  assert (M : m = 1 \/ m = 2 \/ m = 3 \/ m = 4 \/ m = 5 \/ m = 6 \/ m = 7
              \/ m = 8 \/ m = 9 \/ m = 10 \/ m = 11 \/ m = 12) by lia.
  unfold Calendar.days_before_month, leap_day.
  repeat (destruct M as [->|M]); [..|subst m];
    match goal with
    | |- context [seqZ ?a ?b] =>
        let l := eval vm_compute in (seqZ a b) in change (seqZ a b) with l
    end;
    cbn [map fold_right Calendar.days_in_month];
    destruct (Calendar.is_leap y); reflexivity.
Qed.

(** A year has 365 days, and one more when it is a leap year. *)
Lemma days_before_year_next y :
  Calendar.days_before_year (y + 1)
  = Calendar.days_before_year y + 365 + leap_day y.
Proof.
  unfold Calendar.days_before_year, leap_day, Calendar.is_leap. cbv zeta.
  replace (y + 1 - 1) with y by lia.
  destruct (y mod 4 =? 0) eqn:E4; destruct (y mod 100 =? 0) eqn:E100;
    destruct (y mod 400 =? 0) eqn:E400; cbn [andb orb negb];
    rewrite ?Z.eqb_eq, ?Z.eqb_neq in *; Z.div_mod_to_equations; lia.
Qed.

Lemma days_before_year_mono y y' :
  y <= y' -> Calendar.days_before_year y <= Calendar.days_before_year y'.
Proof.
  unfold Calendar.days_before_year. cbv zeta. intros H.
  Z.div_mod_to_equations. lia.
Qed.

Lemma leap_day_range y : 0 <= leap_day y <= 1.
Proof. unfold leap_day. destruct (Calendar.is_leap y); lia. Qed.

Lemma days_in_month_leap y m :
  Calendar.days_in_month y m
  = match m with
    | 2 => 28 + leap_day y
    | 4 | 6 | 9 | 11 => 30
    | _ => 31
    end.
Proof.
  unfold Calendar.days_in_month, leap_day.
  destruct m as [|p|p]; try reflexivity.
  do 4 (try destruct p as [p|p|]; try reflexivity);
    destruct (Calendar.is_leap y); reflexivity.
Qed.

(** The day of the year of a real date lies within the year and grows
    with the month and, within a month, with the day. *)
Lemma day_of_year_order y m d m' d' :
  1 <= m <= 12 -> 1 <= d <= Calendar.days_in_month y m ->
  1 <= m' <= 12 -> 1 <= d' <= Calendar.days_in_month y m' ->
  let o := Calendar.days_before_month y m + d in
  let o' := Calendar.days_before_month y m' + d' in
  1 <= o <= 365 + leap_day y /\
  (m < m' -> o < o') /\ (m = m' -> o - o' = d - d').
Proof.
  intros Rm Rd Rm' Rd' o o'. subst o o'.
  rewrite (days_before_month_table y m Rm), (days_before_month_table y m' Rm').
  rewrite days_in_month_leap in Rd, Rd'.
  pose proof (leap_day_range y) as L.
  assert (M : m = 1 \/ m = 2 \/ m = 3 \/ m = 4 \/ m = 5 \/ m = 6 \/ m = 7
              \/ m = 8 \/ m = 9 \/ m = 10 \/ m = 11 \/ m = 12) by lia.
  assert (M' : m' = 1 \/ m' = 2 \/ m' = 3 \/ m' = 4 \/ m' = 5 \/ m' = 6 \/ m' = 7
              \/ m' = 8 \/ m' = 9 \/ m' = 10 \/ m' = 11 \/ m' = 12) by lia.
  repeat (destruct M as [->|M]); [..|subst m];
    (repeat (destruct M' as [->|M']); [..|subst m']); lia.
Qed.

(** The count of microseconds orders real datetimes as the calendar does. *)
Lemma timestamp_earlier f g :
  real_datetime f -> real_datetime g ->
  (Calendar.timestamp f < Calendar.timestamp g <-> earlier f g).
Proof.
  intros (Yf & Mf & Df & Hf & If) (Yg & Mg & Dg & Hg & Ig).
  unfold Calendar.timestamp, Calendar.usec_per_minute, earlier. cbv zeta.
  destruct f as [y m d h mi], g as [y' m' d' h' mi']; cbn in *.
  destruct (day_of_year_order y m d m d Mf Df Mf Df) as (B & _ & _).
  destruct (day_of_year_order y' m' d' m' d' Mg Dg Mg Dg) as (B' & _ & _).
  cbv zeta in B, B'.
  destruct (Z.lt_trichotomy y y') as [Y|[<-|Y]].
  - pose proof (days_before_year_mono (y + 1) y' ltac:(lia)) as Mo.
    rewrite days_before_year_next in Mo. pose proof (leap_day_range y). lia.
  - destruct (day_of_year_order y m d m' d' Mf Df Mg Dg) as (_ & Lt & Eq).
    destruct (day_of_year_order y m' d' m d Mg Dg Mf Df) as (_ & Lt' & _).
    cbv zeta in *. lia.
  - pose proof (days_before_year_mono (y' + 1) y ltac:(lia)) as Mo.
    rewrite days_before_year_next in Mo. pose proof (leap_day_range y'). lia.
Qed.

(** What [strptime] returns is a real date and time of day. *)
Lemma strptime_real text f :
  Calendar.strptime text = Some f -> real_datetime f.
Proof.
  unfold Calendar.strptime. intros E.
  destruct (Calendar.format_regex text) as [|[f' r] rest] eqn:R; [done|].
  destruct r; [|done]. destruct (Calendar.valid_date f') eqn:V; [|done].
  injection E as ->.
  assert (I : In (f, EmptyString) (Calendar.format_regex text))
    by (rewrite R; by left).
  apply ParserBounds.yields_format_regex in I.
  unfold Calendar.valid_date in V.
  apply andb_true_iff in V as [V V3]. apply andb_true_iff in V as [V1 V2].
  apply Z.leb_le in V1, V2, V3. unfold real_datetime. lia.
Qed.

(** The count of microseconds is that of the calendar: it is 0 at
    0001-01-01 00:00, grows by sixty million with each minute of the day,
    and by one day from each day to the next one, within a month, from the
    last day of a month to the first of the next month, and from 31
    December to 1 January of the next year. *)
Lemma timestamp_calendar :
  Calendar.timestamp {| Calendar.year := 1; Calendar.month := 1; Calendar.day := 1;
                        Calendar.hour := 0; Calendar.minute := 0 |} = 0 /\
  (forall y m d h mi,
     Calendar.timestamp {| Calendar.year := y; Calendar.month := m; Calendar.day := d;
                           Calendar.hour := h; Calendar.minute := mi |}
     = Calendar.timestamp {| Calendar.year := y; Calendar.month := m; Calendar.day := d;
                             Calendar.hour := 0; Calendar.minute := 0 |}
       + (60 * h + mi) * 60000000) /\
  (forall y m d,
     Calendar.timestamp {| Calendar.year := y; Calendar.month := m; Calendar.day := d + 1;
                           Calendar.hour := 0; Calendar.minute := 0 |}
     = Calendar.timestamp {| Calendar.year := y; Calendar.month := m; Calendar.day := d;
                             Calendar.hour := 0; Calendar.minute := 0 |}
       + 86400000000) /\
  (forall y m, 1 <= m < 12 ->
     Calendar.timestamp {| Calendar.year := y; Calendar.month := m + 1; Calendar.day := 1;
                           Calendar.hour := 0; Calendar.minute := 0 |}
     = Calendar.timestamp {| Calendar.year := y; Calendar.month := m;
                             Calendar.day := Calendar.days_in_month y m;
                             Calendar.hour := 0; Calendar.minute := 0 |}
       + 86400000000) /\
  (forall y,
     Calendar.timestamp {| Calendar.year := y + 1; Calendar.month := 1; Calendar.day := 1;
                           Calendar.hour := 0; Calendar.minute := 0 |}
     = Calendar.timestamp {| Calendar.year := y; Calendar.month := 12; Calendar.day := 31;
                             Calendar.hour := 0; Calendar.minute := 0 |}
       + 86400000000).
Proof.
  unfold Calendar.timestamp, Calendar.usec_per_minute.
  cbn [Calendar.year Calendar.month Calendar.day Calendar.hour Calendar.minute].
  split; [reflexivity|]. split; [intros; lia|]. split; [intros; lia|]. split.
  - intros y m R.
    rewrite (days_before_month_table y m), (days_before_month_table y (m + 1)) by lia.
    rewrite days_in_month_leap.
    assert (M : m = 1 \/ m = 2 \/ m = 3 \/ m = 4 \/ m = 5 \/ m = 6 \/ m = 7
                \/ m = 8 \/ m = 9 \/ m = 10 \/ m = 11) by lia.
    repeat (destruct M as [->|M]); [..|subst m];
      match goal with
      | |- context [match ?a + 1 with _ => _ end] =>
          let v := eval vm_compute in (a + 1) in change (a + 1) with v
      end;
      cbv iota; lia.
  - intros y. rewrite days_before_year_next.
    rewrite (days_before_month_table y 12), (days_before_month_table (y + 1) 1) by lia.
    lia.
Qed.

Lemma usec_per_day_eq : Calendar.usec_per_day = 86400000000.
Proof. reflexivity. Qed.

(** The time of the examples as a count of microseconds. *)
Lemma example_now_eq : example_now = 63851378400000007.
Proof. reflexivity. Qed.

(** C6: what [list_schedules] displays, for a document whose schedule
    datetimes all parse and a current time [now] at least thirty days
    after [datetime.min] (before that, [now - timedelta(days=30)] raises).
    Times are counts of microseconds since [datetime.min]; a day is
    86400000000 of them.

    There are the schedules of the document, each with the time
    [strptime] reads from its datetime text, a real date and time ([ks]),
    and two groups [past] and [future] such that:
    - the two groups together are exactly the schedules whose time is at or
      after [now] minus thirty days, each one once;
    - past then future, they are in ascending order of time;
    - every schedule of [past] is before [now], every schedule of [future]
      is at or after [now];
    - the output is: the no-schedules message for an empty document; the
      no-recent-schedules message when both groups are empty; otherwise
      the past header, a rule and one line for each schedule of [past],
      when there is one, followed by the future header, a rule and one
      line for each schedule of [future], when there is one. A line carries
      its number within its group, from 1, the icon (done for a completed
      schedule, otherwise overdue in the past group and clock in the future
      group), the task, the datetime text, the count of whole days between
      the schedule and [now] as today, yesterday or tomorrow, or a number
      of days ago or ahead, and the status;
    - a schedule dated exactly 31 days before [now] is in neither group;
    - a schedule dated exactly 29 days before [now] has a line in the past
      group, labelled 29 days ago;
    - the time of a datetime orders as the calendar does: year first, then
      month, day, hour and minute;
    - for instance, seven microseconds after 2024-05-15 14:00, of three
      schedules dated 2024-05-20 09:00, 2024-04-14 14:00 (31 days before)
      and 2024-04-16 14:00 (29 days before), the second is not displayed,
      the third is the one line of the past group, labelled 29 days ago,
      and the first is the one line of the future group, labelled 4 days
      ahead. *)
Theorem list_schedules_groups now d :
  30 * 86400000000 <= now ->
  Forall (fun s => validate_datetime (s_datetime s) = true) (schedules d) ->
  let ago (x : Z * ScheduleItem) := (now - fst x) / 86400000000 in
  let ahead (x : Z * ScheduleItem) := (fst x - now) / 86400000000 in
  let past_line (i : nat) (x : Z * ScheduleItem) :=
    ScheduleLine (S i)
      (if (s_status (snd x) =? "completed")%string then IconDone else IconOverdue)
      (s_task (snd x)) (s_datetime (snd x))
      (if ago x =? 0 then Today else if ago x =? 1 then Yesterday
       else DaysAgo (ago x))
      (s_status (snd x)) in
  let future_line (i : nat) (x : Z * ScheduleItem) :=
    ScheduleLine (S i)
      (if (s_status (snd x) =? "completed")%string then IconDone else IconClock)
      (s_task (snd x)) (s_datetime (snd x))
      (if ahead x =? 0 then Today else if ahead x =? 1 then Tomorrow
       else DaysLater (ahead x))
      (s_status (snd x)) in
  exists ks past future : list (Z * ScheduleItem),
    Forall2 (fun s x =>
               snd x = s /\
               exists f, Calendar.strptime (s_datetime s) = Some f /\
                         real_datetime f /\ fst x = Calendar.timestamp f)
            (schedules d) ks /\
    past ++ future ≡ₚ filter (fun x => now - 30 * 86400000000 <= fst x) ks /\
    StronglySorted (fun x y => fst x <= fst y) (past ++ future) /\
    Forall (fun x => fst x < now) past /\
    Forall (fun x => now <= fst x) future /\
    list_schedules now d =
      Ok match schedules d, past, future with
         | [], _, _ => [NoSchedules]
         | _ :: _, [], [] => [NoRecentSchedules]
         | _ :: _, _ :: _, [] => PastHeader :: Rule :: imap past_line past
         | _ :: _, [], _ :: _ => FutureHeader :: Rule :: imap future_line future
         | _ :: _, _ :: _, _ :: _ =>
             PastHeader :: Rule :: imap past_line past
             ++ FutureHeader :: Rule :: imap future_line future
         end /\
    (forall x, x ∈ ks -> fst x = now - 31 * 86400000000 -> x ∉ past ++ future) /\
    (forall x, x ∈ ks -> fst x = now - 29 * 86400000000 ->
       exists i : nat,
         past !! i = Some x /\
         past_line i x =
           ScheduleLine (S i)
             (if (s_status (snd x) =? "completed")%string then IconDone
              else IconOverdue)
             (s_task (snd x)) (s_datetime (snd x)) (DaysAgo 29)
             (s_status (snd x))) /\
    (forall f g, real_datetime f -> real_datetime g ->
       (Calendar.timestamp f < Calendar.timestamp g <-> earlier f g)) /\
    list_schedules 63851378400000007
      {| schedules :=
           [{| s_task := "later"; s_datetime := "2024-05-20 09:00";
               s_status := "pending" |};
            {| s_task := "old"; s_datetime := "2024-04-14 14:00";
               s_status := "completed" |};
            {| s_task := "recent"; s_datetime := "2024-04-16 14:00";
               s_status := "completed" |}];
         todos := [] |}
    = Ok [PastHeader; Rule;
          ScheduleLine 1 IconDone "recent" "2024-04-16 14:00" (DaysAgo 29) "completed";
          FutureHeader; Rule;
          ScheduleLine 1 IconClock "later" "2024-05-20 09:00" (DaysLater 4) "pending"].
Proof.
  intros Hnow V ago ahead past_line future_line.
  destruct (keyed_valid _ V) as [ks K].
  exists ks, (past_schedules now ks), (future_schedules now ks).
  split; [|split; [|split; [|split; [|split; [|split; [|split; [|split; [|split]]]]]]]].
  - apply keyed_spec in K. eapply Forall2_impl; [exact K|].
    intros s x [E T]. split; [exact E|]. unfold schedule_time in T.
    destruct (Calendar.strptime (s_datetime s)) as [f|] eqn:P; [|discriminate].
    injection T as T. exists f. split; [done|]. split; [|done].
    by eapply strptime_real.
  - rewrite groups_recent. unfold recent. by rewrite sorted_by_time_perm.
  - rewrite groups_recent. unfold recent.
    apply filter_sorted, sorted_by_time_sorted.
  - apply Forall_forall. intros x Hx. unfold past_schedules in Hx.
    by apply list_elem_of_filter in Hx as [Hx _].
  - apply Forall_forall. intros x Hx. unfold future_schedules in Hx.
    apply list_elem_of_filter in Hx as [Hx _]. lia.
  - unfold list_schedules. destruct (schedules d) as [|s0 ss]; [reflexivity|].
    assert ((now - thirty_days <? 0) = false) as ->
      by (apply Z.ltb_ge; unfold thirty_days; rewrite usec_per_day_eq; lia).
    rewrite K, <- groups_recent.
    destruct (past_schedules now ks) as [|p l], (future_schedules now ks) as [|q r];
      cbn [app imap group]; rewrite ?app_nil_r; reflexivity.
  - intros x _ E. rewrite groups_recent. unfold recent.
    rewrite list_elem_of_filter. intros [C _].
    unfold thirty_days in C. rewrite usec_per_day_eq in C. lia.
  - intros x I E.
    assert (P : x ∈ past_schedules now ks).
    { unfold past_schedules, recent. rewrite !list_elem_of_filter.
      rewrite sorted_by_time_perm. unfold thirty_days. rewrite usec_per_day_eq.
      repeat split; [lia..|done]. }
    apply list_elem_of_lookup_1 in P as [i L]. exists i. split; [exact L|].
    subst past_line ago. cbv beta.
    replace (now - fst x) with (29 * 86400000000) by lia. reflexivity.
  - apply timestamp_earlier.
  - vm_compute. reflexivity.
Qed.

Lemma list_schedules_groups_witness :
  list_schedules 63851378400000007 example_schedules
  = Ok [PastHeader; Rule;
        ScheduleLine 1 IconDone "recent" "2024-04-16 14:00" (DaysAgo 29) "completed";
        FutureHeader; Rule;
        ScheduleLine 1 IconClock "later" "2024-05-20 09:00" (DaysLater 4) "pending"].
Proof.
  destruct (list_schedules_groups 63851378400000007 example_schedules)
    as (ks & past & future & _ & _ & _ & _ & _ & _ & _ & _ & _ & E).
  - lia.
  - repeat constructor.
  - exact E.
Defined.

(** The listing of the example: the schedule of 31 days ago is left out,
    the one of 29 days ago is listed as past, the coming one as future. *)
Example list_schedules_example :
  list_schedules example_now example_schedules =
  Ok [PastHeader; Rule;
      ScheduleLine 1 IconDone "recent" "2024-04-16 14:00" (DaysAgo 29) "completed";
      FutureHeader; Rule;
      ScheduleLine 1 IconClock "later" "2024-05-20 09:00" (DaysLater 4) "pending"].
Proof. vm_compute. reflexivity. Qed.

(** * Further properties of the code *)

(** ** Every mutation is one edit *)

Lemma known_status_toggled s : known_status (toggled s) = true.
Proof. unfold toggled. by destruct (s =? "pending")%string. Qed.

Lemma negb_false b : negb b = false -> b = true.
Proof. by destruct b. Qed.

(** A call of a mutating operation leaves the state as it was, only takes
    the checkpoint, or takes the checkpoint and makes one edit. *)
Lemma apply_mutation_edit io m a :
  (apply_mutation io m a).1.2 = a \/
  (exists label, (apply_mutation io m a).1.2 = checkpointed label a) \/
  (exists label f, edit (data a) (f (data a)) /\
                   (apply_mutation io m a).1.2 = changed label f a).
Proof.
  destruct m as [task dt|task|task status|task status|n|n|n]; cbn [apply_mutation].
  - rewrite add_schedule_eq. destruct (negb _) eqn:V; [by left|right].
    apply negb_false in V. cbv zeta.
    destruct (existsb _ _) eqn:X; [left; by eexists|right].
    eexists _, _. split; [|reflexivity]. cbv beta. apply AppendSchedule; [done|].
    rewrite <- existsb_same_schedule. congruence.
  - rewrite add_todo_eq. cbv zeta. right.
    destruct (existsb _ _) eqn:X; [left; by eexists|right].
    eexists _, _. split; [|reflexivity]. cbv beta. apply AppendTodo.
    rewrite <- existsb_same_todo. congruence.
  - rewrite update_schedule_status_eq. destruct (negb _) eqn:V; [by left|right].
    apply negb_false in V. cbv zeta.
    destruct (list_find _ _) as [[i s]|] eqn:F; [right|left; by eexists].
    apply list_find_Some in F as (L & _ & _).
    eexists _, _. split; [|reflexivity]. cbv beta. by apply SetScheduleStatus.
  - rewrite update_todo_status_eq. destruct (negb _) eqn:V; [by left|right].
    apply negb_false in V. cbv zeta.
    destruct (list_find _ _) as [[i s]|] eqn:F; [right|left; by eexists].
    apply list_find_Some in F as (L & _ & _).
    eexists _, _. split; [|reflexivity]. cbv beta. by apply SetTodoStatus.
  - unfold done_todo_by_number at 1 2.
    destruct (by_number_cases n a) as [E|[[E R]|[R [t L]]]].
    + rewrite by_number_empty by exact E. by left.
    + rewrite by_number_out_of_range by assumption. by left.
    + fold (done_todo_by_number io n).
      rewrite (done_todo_by_number_eq _ _ _ t R L). right. right.
      eexists _, _. split; [|reflexivity]. cbv beta. by apply SetTodoStatus.
  - unfold delete_todo_by_number at 1 2.
    destruct (by_number_cases n a) as [E|[[E R]|[R [t L]]]].
    + rewrite by_number_empty by exact E. by left.
    + rewrite by_number_out_of_range by assumption. by left.
    + fold (delete_todo_by_number io n).
      rewrite (delete_todo_by_number_eq _ _ _ t R L). right. right.
      eexists _, _. split; [|reflexivity]. cbv beta. by eapply RemoveTodo.
  - unfold toggle_todo_by_number at 1 2.
    destruct (by_number_cases n a) as [E|[[E R]|[R [t L]]]].
    + rewrite by_number_empty by exact E. by left.
    + rewrite by_number_out_of_range by assumption. by left.
    + fold (toggle_todo_by_number io n).
      rewrite (toggle_todo_by_number_eq _ _ _ t R L). right. right.
      eexists _, _. split; [|reflexivity]. cbv beta.
      apply SetTodoStatus; [apply known_status_toggled|done].
Qed.

Lemma edit_statuses_known d d' : edit d d' -> statuses_known d -> statuses_known d'.
Proof.
  intros E [S T]. destruct E; split; cbn; try done.
  - apply Forall_app_2; [done|]. by repeat constructor.
  - apply Forall_app_2; [done|]. by repeat constructor.
  - by apply Forall_insert.
  - by apply Forall_insert.
  - by apply Forall_delete.
Qed.

Lemma edit_datetimes_valid d d' : edit d d' -> datetimes_valid d -> datetimes_valid d'.
Proof.
  unfold datetimes_valid. intros E V. destruct E; cbn; try done.
  - apply Forall_app_2; [done|]. by repeat constructor.
  - apply Forall_insert; [done|]. cbn.
    rewrite Forall_forall in V. apply V. by eapply list_elem_of_lookup_2.
Qed.

Lemma set_schedule_status_keys (i : nat) s status (l : list ScheduleItem) :
  l !! i = Some s -> s_key <$> <[i := s_with_status status s]> l = s_key <$> l.
Proof.
  intros L. rewrite list_fmap_insert. apply list_insert_id.
  by rewrite list_lookup_fmap, L.
Qed.

Lemma set_todo_status_tasks (i : nat) t status (l : list TodoItem) :
  l !! i = Some t -> t_task <$> <[i := t_with_status status t]> l = t_task <$> l.
Proof.
  intros L. rewrite list_fmap_insert. apply list_insert_id.
  by rewrite list_lookup_fmap, L.
Qed.

Lemma edit_keys_unique d d' : edit d d' -> keys_unique d -> keys_unique d'.
Proof.
  intros E [S T]. destruct E as [task dt V N|task N|i s status K L|i t status K L|i t L];
    split; cbn; try done.
  - rewrite fmap_app. apply NoDup_app. split; [done|]. split; [|apply NoDup_singleton].
    intros k Hk Hk'. apply list_elem_of_singleton in Hk'. subst k.
    apply list_elem_of_fmap in Hk as [s [E I]]. apply N. exists s.
    injection E as E1 E2. done.
  - rewrite fmap_app. apply NoDup_app. split; [done|]. split; [|apply NoDup_singleton].
    intros k Hk Hk'. apply list_elem_of_singleton in Hk'. subst k.
    apply list_elem_of_fmap in Hk as [t [E I]]. apply N. by exists t.
  - by rewrite set_schedule_status_keys.
  - by rewrite set_todo_status_tasks.
  - rewrite list_fmap_delete. eapply sublist_NoDup; [exact T|apply sublist_delete].
Qed.

Lemma edit_well_formed d d' : edit d d' -> well_formed d -> well_formed d'.
Proof.
  intros E (S & V & K). split; [|split].
  - by eapply edit_statuses_known.
  - by eapply edit_datetimes_valid.
  - by eapply edit_keys_unique.
Qed.

(** ** Properties kept by every command *)

Section Preserved.
Variable P : Document -> Prop.
Hypothesis P_edit : forall d d', edit d d' -> P d -> P d'.

Lemma session_ok_mutation io m a :
  session_ok P a -> session_ok P (apply_mutation io m a).1.2.
Proof.
  intros [D H].
  destruct (apply_mutation_edit io m a) as [->|[[label ->]|(label & f & E & ->)]].
  - by split.
  - split; [exact D|]. cbn. by intros d [= <-].
  - split; [by eapply P_edit|]. cbn. by intros d [= <-].
Qed.

Lemma session_ok_undo io a :
  session_ok P a -> session_ok P (undo_last_command io a).1.2.
Proof.
  intros I. rewrite undo_last_command_eq.
  destruct (backup_data a) as [h|] eqn:Eb; [|by destruct (last_command a)].
  destruct (last_command a) as [label|] eqn:El; [|exact I].
  destruct I as [D H]. unfold held_document in H. rewrite Eb in H.
  assert (X : P match h with OwnCopy d => d | SameObject => data a end).
  { destruct h; [by apply H|exact D]. }
  destruct io; cbn; (split; [exact X|]); cbn; [done|]. by intros d [= <-].
Qed.

Lemma session_ok_parse_command io now command a b a' o :
  session_ok P a ->
  parse_command io now command a = Ok (b, a', o) ->
  session_ok P a'.
Proof.
  intros I E.
  pose proof (parse_command_dispatched io now command a) as D. rewrite E in D.
  inversion D as [b0 o0 Hk|m Hc|Hc|q Hq Hc]; subst.
  - exact I.
  - unfold call in Hc. pose proof (session_ok_mutation io m a I) as H.
    destruct (apply_mutation io m a) as [[r a1] o1]. by injection Hc as <- <- <-.
  - unfold call in Hc. pose proof (session_ok_undo io a I) as H.
    destruct (undo_last_command io a) as [[r a1] o1]. by injection Hc as <- <- <-.
  - unfold query in Hc. destruct (q (data a)); [|discriminate].
    by injection Hc as <- <- <-.
Qed.

Lemma session_ok_loop inputs a :
  session_ok P a -> session_ok P (loop inputs a).1.2.
Proof.
  revert a. induction inputs as [|i rest IH]; intros a I; cbn [loop]; [exact I|].
  destruct (strip (typed i)) as [|c r] eqn:S; [by apply IH|].
  destruct (parse_command _ _ _ a) as [[[b a'] o]|e] eqn:E; [|exact I].
  apply session_ok_parse_command in E; [|exact I].
  destruct b; [|exact E].
  specialize (IH a' E). by destruct (loop rest a') as [[e a''] o'].
Qed.

End Preserved.

Lemma call_ok c a : exists r, call c a = Ok r.
Proof. unfold call. destruct (c a) as [[r a'] o]. by eexists. Qed.

Lemma list_schedules_ok now d :
  thirty_days <= now -> datetimes_valid d -> exists o, list_schedules now d = Ok o.
Proof.
  intros Hnow V. unfold list_schedules.
  destruct (schedules d) as [|s0 ss] eqn:E; [by eexists|].
  assert ((now - thirty_days <? 0) = false) as -> by (apply Z.ltb_ge; lia).
  unfold datetimes_valid in V. rewrite E in V.
  destruct (keyed_valid _ V) as [ks ->]. destruct (recent now ks); by eexists.
Qed.

Lemma list_all_ok now d :
  thirty_days <= now -> datetimes_valid d -> exists o, list_all now d = Ok o.
Proof.
  intros Hnow V. unfold list_all.
  destruct (list_schedules_ok now d Hnow V) as [o ->]. by eexists.
Qed.

Lemma parse_command_ok io now command a :
  thirty_days <= now -> datetimes_valid (data a) ->
  exists r, parse_command io now command a = Ok r.
Proof.
  intros Hnow V.
  destruct (list_schedules_ok now _ Hnow V) as [o1 E1].
  destruct (list_all_ok now _ Hnow V) as [o2 E2].
  unfold parse_command. destruct (Text.split command) as [|first rest]; [by eexists|].
  unfold parse_add, parse_list, parse_update, add_schedule_cmd, add_todo_cmd,
    update_todo_cmd, update_schedule_cmd.
  split_ifs;
    first [ apply call_ok
          | unfold say, query; rewrite ?E1, ?E2; by eexists ].
Qed.

(** ** Well-formedness through commands and the loop *)

(** X1: if every status of the live document and of the checkpoint is
    [pending] or [completed], this still holds after any command line the
    dispatcher handles: no command stores another status. *)
Theorem statuses_stay_known io now command a b a' o :
  session_ok statuses_known a ->
  parse_command io now command a = Ok (b, a', o) ->
  session_ok statuses_known a'.
Proof. apply session_ok_parse_command, edit_statuses_known. Qed.

Lemma statuses_stay_known_witness :
  session_ok statuses_known
    {| data := {| schedules := [];
                  todos := [{| t_task := "a"; t_status := "completed" |}] |};
       backup_data := Some (OwnCopy {| schedules := [];
                  todos := [{| t_task := "a"; t_status := "pending" |}] |});
       last_command := Some "update todo a completed" |}.
Proof.
  apply (statuses_stay_known true 0 "update todo a COMPLETED"
           (init (Stored {| schedules := [];
                            todos := [{| t_task := "a"; t_status := "pending" |}] |}))
           true _ [TodoStatusChanged IconDone "a" "pending" "completed"]).
  - split; [split; by repeat constructor|]. intros d H. discriminate.
  - reflexivity.
Defined.

(** X2: if no two schedules share a task and datetime text and no two
    to-dos share a task text, in the live document and in the checkpoint,
    this still holds after any command line: duplicates cannot be created,
    by adding, by changing a status, by deleting or by undoing. *)
Theorem keys_stay_unique io now command a b a' o :
  session_ok keys_unique a ->
  parse_command io now command a = Ok (b, a', o) ->
  session_ok keys_unique a'.
Proof. apply session_ok_parse_command, edit_keys_unique. Qed.

Lemma keys_stay_unique_witness :
  session_ok keys_unique
    {| data := {| schedules := [];
                  todos := [{| t_task := "a"; t_status := "pending" |};
                            {| t_task := "b"; t_status := "pending" |}] |};
       backup_data := Some (OwnCopy {| schedules := [];
                  todos := [{| t_task := "a"; t_status := "pending" |}] |});
       last_command := Some "add todo b" |}.
Proof.
  apply (keys_stay_unique true 0 "add todo b"
           (init (Stored {| schedules := [];
                            todos := [{| t_task := "a"; t_status := "pending" |}] |}))
           true _ [TodoAdded "b"]).
  - split; [split; cbn; [apply NoDup_nil_2|apply NoDup_singleton]|].
    intros d H. discriminate.
  - reflexivity.
Defined.

(** X5: the loop runs its input in order and stops for good at the first
    [exit] or uncaught exception: on two batches of lines it is the loop
    on the first batch and, only when that one ended for lack of input, the
    loop on the second batch from the state reached, the output of the
    first followed by the output of the second. *)
Theorem loop_app l1 l2 a :
  loop (l1 ++ l2) a =
  match loop l1 a with
  | (InputEnded, a1, o1) => let '(e, a2, o2) := loop l2 a1 in (e, a2, o1 ++ o2)
  | stopped => stopped
  end.
Proof.
  revert a. induction l1 as [|i rest IH]; intros a; cbn [loop app].
  - by destruct (loop l2 a) as [[e a2] o2].
  - destruct (strip (typed i)) as [|c r]; [apply IH|].
    destruct (parse_command _ _ _ a) as [[[b a'] o]|e]; [|done].
    destruct b; [|done]. rewrite IH.
    destruct (loop rest a') as [[[| |e1] a1] o1]; try done.
    destruct (loop l2 a1) as [[e2 a2] o2]. by rewrite app_assoc.
Qed.

(** ** Plain text *)

Lemma plain_cons c r : plain (String c r) <-> Text.code c < 128 /\ plain r.
Proof.
  unfold plain. cbn [plainb]. rewrite andb_true_iff, Z.ltb_lt. done.
Qed.

Lemma plain_app s t : plain (s +:+ t) <-> plain s /\ plain t.
Proof.
  induction s as [|c s IH].
  - change (EmptyString +:+ t) with t. unfold plain at 2. cbn. tauto.
  - change (String c s +:+ t) with (String c (s +:+ t)).
    rewrite !plain_cons, IH. tauto.
Qed.

Lemma plain_chars l :
  plain (string_of_list_ascii l) <-> Forall (fun c => Text.code c < 128) l.
Proof.
  induction l as [|c l IH]; cbn [string_of_list_ascii].
  - split; [constructor|done].
  - rewrite plain_cons, Forall_cons, IH. done.
Qed.

Lemma plain_list s :
  plain s <-> Forall (fun c => Text.code c < 128) (list_ascii_of_string s).
Proof. by rewrite <- plain_chars, string_of_list_ascii_of_string. Qed.

Lemma lower_char_plain c : Text.code c < 128 -> Text.code (Text.lower_char c) < 128.
Proof. destruct c as [[] [] [] [] [] [] [] []]; vm_compute; done. Qed.

Lemma plain_lower s : plain s -> plain (Text.lower s).
Proof.
  induction s as [|c s IH]; [done|]. cbn [Text.lower]. rewrite !plain_cons.
  intros [C S]. split; [by apply lower_char_plain|by apply IH].
Qed.

Lemma split_from_plain cur s :
  Forall (fun c => Text.code c < 128) cur -> plain s ->
  Forall plain (Text.split_from cur s).
Proof.
  revert cur. induction s as [|c r IH]; intros cur C S; cbn [Text.split_from].
  - destruct cur as [|c0 cur0]; [constructor|].
    constructor; [|constructor]. apply plain_chars. by apply Forall_rev.
  - apply plain_cons in S as [Hc S]. destruct (Text.is_space c).
    + apply Forall_app_2; [|apply IH; [constructor|exact S]].
      destruct cur as [|c0 cur0]; [constructor|].
      constructor; [|constructor]. apply plain_chars. by apply Forall_rev.
    + apply IH; [by constructor|exact S].
Qed.

(** The tokens of a plain line are plain. *)
Lemma split_plain s : plain s -> Forall plain (Text.split s).
Proof. apply split_from_plain. constructor. Qed.

Lemma plain_join ws : Forall plain ws -> plain (Text.join " " ws).
Proof.
  unfold Text.join. induction 1 as [|w ws W F IH]; [done|].
  destruct ws as [|w' ws']; [exact W|].
  change (String.concat " " (w :: w' :: ws'))
    with (w +:+ " " +:+ String.concat " " (w' :: ws')).
  rewrite !plain_app. by repeat split.
Qed.

Lemma plain_tok parts i : Forall plain parts -> plain (tok parts i).
Proof.
  intros F. unfold tok. revert i.
  induction F as [|w ws W F IH]; intros [|i]; cbn [nth]; done.
Qed.

Lemma lstrip_plain s : plain s -> plain (lstrip s).
Proof.
  induction s as [|c r IH]; [done|]. cbn [lstrip]. intros P.
  destruct (Text.is_space c); [|exact P]. apply IH. by apply plain_cons in P as [_ P].
Qed.

Lemma rstrip_chars_sub (P : ascii -> Prop) l : Forall P l -> Forall P (rstrip_chars l).
Proof.
  induction 1 as [|c r C F IH]; [constructor|]. cbn [rstrip_chars].
  destruct (rstrip_chars r) as [|k kept].
  - destruct (Text.is_space c); by repeat constructor.
  - by constructor.
Qed.

Lemma strip_plain s : plain s -> plain (strip s).
Proof.
  intros P. unfold strip. apply plain_chars, rstrip_chars_sub.
  by apply plain_list, lstrip_plain.
Qed.

(** ** Splitting and stripping *)

Lemma split_from_lstrip s : Text.split_from [] (lstrip s) = Text.split_from [] s.
Proof.
  induction s as [|c r IH]; [done|]. cbn [lstrip].
  destruct (Text.is_space c) eqn:C; [|done]. cbn [Text.split_from]. by rewrite C.
Qed.

Lemma split_from_rstrip cur l :
  Text.split_from cur (string_of_list_ascii (rstrip_chars l))
  = Text.split_from cur (string_of_list_ascii l).
Proof.
  revert cur. induction l as [|c r IH]; intros cur; [done|].
  cbn [rstrip_chars string_of_list_ascii].
  destruct (rstrip_chars r) as [|k kept] eqn:R.
  - cbn [Text.split_from]. destruct (Text.is_space c) eqn:C.
    + cbn. rewrite <- IH. cbn. by rewrite app_nil_r.
    + cbn. rewrite C. by rewrite <- IH.
  - change (string_of_list_ascii (c :: k :: kept))
      with (String c (string_of_list_ascii (k :: kept))).
    generalize dependent (string_of_list_ascii (k :: kept)).
    generalize (string_of_list_ascii r). intros s2 s1 IH.
    cbn [Text.split_from]. destruct (Text.is_space c); by rewrite IH.
Qed.

Lemma split_strip s : Text.split (strip s) = Text.split s.
Proof.
  unfold Text.split, strip. rewrite split_from_rstrip.
  by rewrite string_of_list_ascii_of_string, split_from_lstrip.
Qed.

Lemma split_from_nonempty c cur s : Text.split_from (c :: cur) s <> [].
Proof.
  revert c cur. induction s as [|c' r IH]; intros c cur; cbn [Text.split_from].
  - discriminate.
  - destruct (Text.is_space c'); [discriminate|apply IH].
Qed.

Lemma lstrip_head s c r : lstrip s = String c r -> Text.is_space c = false.
Proof.
  induction s as [|c' r' IH]; [discriminate|]. cbn [lstrip].
  destruct (Text.is_space c') eqn:C; [exact IH|]. by intros [= <- <-].
Qed.

Lemma strip_head s c r : strip s = String c r -> Text.is_space c = false.
Proof.
  unfold strip. destruct (lstrip s) as [|c' r'] eqn:L; [discriminate|].
  apply lstrip_head in L. cbn [list_ascii_of_string rstrip_chars].
  destruct (rstrip_chars _); rewrite ?L; cbn; by intros [= <- <-].
Qed.

(** X6: stripping a line does not change its tokens, and the stripped line
    is empty exactly when the line has no token: the blank-line test of the
    input loop and the empty-token-list test of the dispatcher agree, and
    the dispatcher sees the same tokens with or without the loop's
    stripping. *)
Theorem strip_split s :
  Text.split (strip s) = Text.split s /\
  (strip s = EmptyString <-> Text.split s = []).
Proof.
  split; [apply split_strip|]. rewrite <- split_strip. split.
  - by intros ->.
  - destruct (strip s) as [|c r] eqn:E; [done|].
    apply strip_head in E. unfold Text.split. cbn [Text.split_from]. rewrite E.
    intros H. by apply split_from_nonempty in H.
Qed.

Lemma flush_word cur :
  cur <> [] -> no_space cur -> word (string_of_list_ascii (rev cur)).
Proof.
  intros N S. split.
  - intros E. apply (f_equal list_ascii_of_string) in E.
    rewrite list_ascii_of_string_of_list_ascii in E. cbn in E.
    apply (f_equal (@rev ascii)) in E. rewrite rev_involutive in E. done.
  - rewrite list_ascii_of_string_of_list_ascii. unfold no_space in *.
    rewrite Forall_forall in S |- *. intros c Hc. apply S.
    rewrite list_elem_of_In in Hc |- *. by apply in_rev.
Qed.

Lemma split_from_words cur s :
  no_space cur -> Forall word (Text.split_from cur s).
Proof.
  revert cur. induction s as [|c r IH]; intros cur S; cbn [Text.split_from].
  - destruct cur as [|c0 cur0]; [constructor|].
    constructor; [by apply flush_word|constructor].
  - destruct (Text.is_space c) eqn:C.
    + apply Forall_app_2; [|apply IH; constructor].
      destruct cur as [|c0 cur0]; [constructor|].
      constructor; [by apply flush_word|constructor].
    + apply IH. by constructor.
Qed.

Lemma split_from_word w cur s :
  no_space (list_ascii_of_string w) ->
  Text.split_from cur (w +:+ s)
  = Text.split_from (rev (list_ascii_of_string w) ++ cur) s.
Proof.
  revert cur. induction w as [|c w IH]; intros cur S; [done|].
  cbn [list_ascii_of_string] in S. apply Forall_cons in S as [C S].
  change (String c w +:+ s) with (String c (w +:+ s)).
  cbn [Text.split_from list_ascii_of_string rev]. rewrite C.
  rewrite IH by exact S. by rewrite <- app_assoc.
Qed.

Lemma append_empty w : w +:+ EmptyString = w.
Proof.
  induction w as [|c w IH]; [done|].
  change (String c (w +:+ EmptyString) = String c w). by rewrite IH.
Qed.

Lemma split_join ws :
  Forall word ws -> Text.split (Text.join " " ws) = ws.
Proof.
  unfold Text.split, Text.join.
  induction 1 as [|w ws [N S] F IH]; [done|].
  assert (R : string_of_list_ascii (rev (rev (list_ascii_of_string w))) = w).
  { by rewrite rev_involutive, string_of_list_ascii_of_string. }
  assert (NE : rev (list_ascii_of_string w) <> []).
  { intros E. apply N. rewrite <- R, E. done. }
  destruct ws as [|w' ws'].
  - cbn [String.concat]. rewrite <- (append_empty w) at 1.
    rewrite split_from_word by exact S. rewrite app_nil_r. cbn [Text.split_from].
    destruct (rev (list_ascii_of_string w)); [done|]. by rewrite R.
  - change (String.concat " " (w :: w' :: ws'))
      with (w +:+ String " " (String.concat " " (w' :: ws'))).
    rewrite split_from_word by exact S.
    rewrite app_nil_r. cbn [Text.split_from].
    replace (Text.is_space " ") with true by reflexivity.
    rewrite IH. destruct (rev (list_ascii_of_string w)); [done|]. by rewrite R.
Qed.

Lemma split_plain_words s :
  plain s -> Forall (fun w => word w /\ plain w) (Text.split s).
Proof.
  intros P. apply Forall_and. split.
  - apply split_from_words. constructor.
  - by apply split_plain.
Qed.

(** X7: on plain (ASCII) text, where the space characters of the embedding
    are those of [str.split]: the tokens of a line are never empty, contain
    no space character and are plain, and splitting is the inverse of
    joining such tokens with single spaces. So the task [add todo] stores
    for a plain line, the remaining tokens joined by single spaces, has no
    leading, trailing or doubled space, and typing it again gives the same
    tokens. *)
Theorem split_tokens :
  (forall s, plain s -> Forall (fun w => word w /\ plain w) (Text.split s)) /\
  (forall ws, Forall (fun w => word w /\ plain w) ws ->
              Text.split (Text.join " " ws) = ws) /\
  (forall s, plain s -> Text.split (Text.join " " (Text.split s)) = Text.split s).
Proof.
  split; [exact split_plain_words|]. split.
  - intros ws W. apply split_join. eapply Forall_impl; [exact W|]. by intros w [H _].
  - intros s P. apply split_join. apply split_from_words. constructor.
Qed.

Lemma split_tokens_witness :
  Text.split (Text.join " " ["wash"; "the"; "dishes"]) = ["wash"; "the"; "dishes"].
Proof.
  apply (proj1 (proj2 split_tokens)).
  repeat constructor; try discriminate.
Defined.

(** X8: a line made of [add], a sub-noun starting with ["to"] and one or
    more words separated by single spaces, all of plain (ASCII) text, adds
    exactly the to-do whose task is those words separated by single spaces
    (or reports it as a duplicate): the dispatcher behaves as [add_todo]
    called on that text. *)
Theorem add_todo_line io now sub ws a :
  Text.startswith (Text.lower sub) "to" = true ->
  word sub -> plain sub ->
  Forall (fun w => word w /\ plain w) ws -> ws <> [] ->
  parse_command io now (Text.join " " ("add" :: sub :: ws)) a
  = call (add_todo io (Text.join " " ws)) a.
Proof.
  intros T Ws _ W N.
  assert (S : Text.split (Text.join " " ("add" :: sub :: ws)) = "add" :: sub :: ws).
  { apply split_join. constructor; [|constructor; [exact Ws|]].
    - split; [discriminate|]. by repeat constructor.
    - eapply Forall_impl; [exact W|]. by intros w [H _]. }
  rewrite (parse_command_add _ _ _ _ _ _ S eq_refl).
  unfold parse_add. cbn [length Nat.ltb Nat.leb tok nth].
  apply add_sub_cmd_todo in T. rewrite T. cbn [String.eqb Ascii.eqb Bool.eqb].
  unfold add_todo_cmd. destruct ws as [|w ws]; [done|]. reflexivity.
Qed.

Lemma add_todo_line_witness :
  parse_command true 0 (Text.join " " ["add"; "Todo"; "wash"; "the"; "dishes"])
    (init NoFile)
  = call (add_todo true (Text.join " " ["wash"; "the"; "dishes"])) (init NoFile).
Proof.
  apply (add_todo_line true 0 "Todo" ["wash"; "the"; "dishes"] (init NoFile)).
  - reflexivity.
  - split; [discriminate|]. by repeat constructor.
  - reflexivity.
  - repeat constructor; discriminate.
  - discriminate.
Defined.

(** ** What the dispatcher returns and what it leaves alone *)

Lemma call_true c a b a' o : call c a = Ok (b, a', o) -> b = true.
Proof. unfold call. destruct (c a) as [[r a1] o1]. by intros [= <- _ _]. Qed.

Lemma query_true q a b a' o : query q a = Ok (b, a', o) -> b = true /\ a' = a.
Proof. unfold query. destruct (q (data a)); [|done]. by intros [= <- <- _]. Qed.

Ltac step_leaf :=
  match goal with
  | H : say _ _ = Ok _ |- _ => unfold say in H; by injection H as <- <- <-
  | H : call _ _ = Ok _ |- _ => by apply call_true in H
  | H : query _ _ = Ok _ |- _ => by apply query_true in H as [? ?]
  end.

Lemma parse_add_true io parts a b a' o :
  parse_add io parts a = Ok (b, a', o) -> b = true.
Proof.
  unfold parse_add, add_schedule_cmd, add_todo_cmd. intros H.
  repeat match type of H with
         | context [if ?c then _ else _] => destruct c
         end; step_leaf.
Qed.

Lemma parse_update_true io parts a b a' o :
  parse_update io parts a = Ok (b, a', o) -> b = true.
Proof.
  unfold parse_update, update_todo_cmd, update_schedule_cmd. intros H.
  repeat match type of H with
         | context [if ?c then _ else _] => destruct c
         | context [match Text.int ?s with _ => _ end] => destruct (Text.int s)
         end; step_leaf.
Qed.

Lemma parse_list_unchanged now parts a b a' o :
  parse_list now parts a = Ok (b, a', o) -> b = true /\ a' = a.
Proof.
  unfold parse_list. intros H.
  repeat match type of H with
         | context [if ?c then _ else _] => destruct c
         end;
    first [ by apply query_true in H
          | unfold say in H; by injection H as <- <- <- ].
Qed.

(** X9: for a line of plain (ASCII) text, [parse_command] returns [False],
    which ends the input loop, exactly when the first token is [exit] in
    any letter case. Such a line, whatever follows the first token, returns
    [False], prints nothing and leaves the session state as it is; and a
    line that returns [False] has [exit] as its first token, so every other
    line that does not raise returns [True]. *)
Theorem exit_only io now command a :
  plain command ->
  ((exists first rest, Text.split command = first :: rest /\
                       Text.lower first = "exit") ->
   parse_command io now command a = Ok (false, a, [])) /\
  (forall b a' o,
     parse_command io now command a = Ok (b, a', o) -> b = false ->
     exists first rest, Text.split command = first :: rest /\
                        Text.lower first = "exit").
Proof.
  intros _. split.
  - intros (first & rest & S & L). unfold parse_command. rewrite S. cbv zeta.
    rewrite L. reflexivity.
  - intros b a' o. unfold parse_command.
    destruct (Text.split command) as [|first rest] eqn:S; [by intros [= <- <- <-]|].
    cbv zeta. destruct (Text.lower first =? "help")%string eqn:Hh.
    { unfold say. by intros [= <- <- <-]. }
    destruct (Text.lower first =? "exit")%string eqn:He.
    { intros _ _. apply String.eqb_eq in He. by exists first, rest. }
    intros H B. exfalso. subst b.
    assert (B : false = true); [|done].
    repeat match type of H with
           | context [if ?c then _ else _] => destruct c
           | context [match Text.int ?s with _ => _ end] => destruct (Text.int s)
           end;
      first [ step_leaf | by apply parse_add_true in H
            | by apply parse_update_true in H
            | by apply parse_list_unchanged in H as [? ?] ].
Qed.

Lemma exit_only_witness :
  parse_command true 0 "  EXIT now" (init NoFile) = Ok (false, init NoFile, []).
Proof.
  apply (proj1 (exit_only true 0 "  EXIT now" (init NoFile) eq_refl)).
  by exists "EXIT", ["now"].
Defined.

(** X10: a line whose first token, lower-cased, is none of [add],
    [update], [done], [delete], [del], [rm] and [undo] leaves the session
    state exactly as it was: listing, help, [exit], blank lines and
    unknown verbs never touch the document or the checkpoint. *)
Theorem other_verbs_leave_state io now command a b a' o :
  (forall first rest, Text.split command = first :: rest ->
                      Text.lower first ∉ writing_verbs) ->
  parse_command io now command a = Ok (b, a', o) ->
  a' = a.
Proof.
  intros V. unfold parse_command.
  destruct (Text.split command) as [|first rest] eqn:S; [by intros [= _ <- _]|].
  specialize (V first rest eq_refl). unfold writing_verbs in V.
  rewrite !not_elem_of_cons in V.
  destruct V as (V1 & V2 & V3 & V4 & V5 & V6 & V7 & _).
  apply String.eqb_neq in V1, V2, V3, V4, V5, V6, V7.
  cbv zeta. rewrite V1, V2, V3, V4, V5, V6, V7. cbn [orb].
  intros H.
  repeat match type of H with
         | context [if ?c then _ else _] => destruct c
         end;
    first [ by apply parse_list_unchanged in H as [? ?]
          | unfold say in H; by injection H as _ <- _
          | by injection H as _ <- _ ].
Qed.

Lemma other_verbs_leave_state_witness :
  (init (Stored example_schedules)) = init (Stored example_schedules).
Proof.
  apply (other_verbs_leave_state true example_now "LIST sc"
           (init (Stored example_schedules)) true _
           [PastHeader; Rule;
            ScheduleLine 1 IconDone "recent" "2024-04-16 14:00" (DaysAgo 29) "completed";
            FutureHeader; Rule;
            ScheduleLine 1 IconClock "later" "2024-05-20 09:00" (DaysLater 4) "pending"]).
  - intros first rest [= <- <-]. unfold writing_verbs.
    rewrite !not_elem_of_cons. repeat split; try discriminate. apply not_elem_of_nil.
  - vm_compute. reflexivity.
Defined.

(** ** Routing of [list], [done] and [delete] *)

Lemma startswith_one a s :
  Text.startswith s (String a EmptyString) = true <-> exists r, s = String a r.
Proof.
  unfold Text.startswith. split.
  - destruct s as [|c r]; cbn; [discriminate|].
    destruct (ascii_dec a c) as [->|]; [|discriminate]. eauto.
  - intros [r ->]. cbn. destruct (ascii_dec a a); [|done]. by destruct r.
Qed.

Lemma parse_command_list io now command first rest a :
  Text.split command = first :: rest -> Text.lower first = "list" ->
  parse_command io now command a = parse_list now (first :: rest) a.
Proof. intros S L. unfold parse_command. rewrite S. cbv zeta. by rewrite L. Qed.

(** The sub-noun is one of the abbreviations of [todos] that [list] and
    [update] accept. *)
Lemma names_todo_test s :
  Text.startswith s "to" || (s =? "t")%string = true
  <-> Text.startswith s "to" = true \/ s = "t".
Proof. by rewrite orb_true_iff, String.eqb_eq. Qed.

(** X11: [list] alone lists everything. Otherwise the lower-cased token 1
    decides, in this order: starting with ["sc"] or being ["s"] lists the
    schedules; starting with ["to"] or being ["t"] lists the to-dos;
    starting with ["a"] lists everything; anything else prints the
    unknown-listing guidance. Later tokens are ignored, and the session
    state is returned unchanged in every case. *)
Theorem list_routing io now command first rest a :
  Text.split command = first :: rest ->
  Text.lower first = "list" ->
  match rest with
  | [] => parse_command io now command a = query (list_all now) a
  | sub :: _ =>
      let s := Text.lower sub in
      let todo := Text.startswith s "to" = true \/ s = "t" in
      (names_schedule s ->
       parse_command io now command a = query (list_schedules now) a) /\
      (todo ->
       parse_command io now command a = query (fun d => Ok (list_todos d)) a) /\
      (~ names_schedule s -> ~ todo -> Text.startswith s "a" = true ->
       parse_command io now command a = query (list_all now) a) /\
      (~ names_schedule s -> ~ todo -> Text.startswith s "a" = false ->
       parse_command io now command a = Ok (true, a, [UnknownList; ListKindsHint]))
  end.
Proof.
  intros S L. rewrite (parse_command_list _ _ _ _ _ _ S L).
  destruct rest as [|sub rest]; [reflexivity|].
  intros s todo. subst todo. unfold parse_list.
  cbn [length Nat.eqb tok nth]. fold s. unfold list_sub_cmd.
  split; [|split; [|split]].
  - intros N. apply names_schedule_test in N. by rewrite N.
  - intros T. destruct (Text.startswith s "sc" || _) eqn:N.
    + apply names_schedule_test in N.
      destruct T as [T| ->]; [by destruct (to_not_schedule _ T)|].
      destruct N as [N|N]; discriminate.
    + apply names_todo_test in T. by rewrite T.
  - intros N T A. rewrite <- names_schedule_test in N.
    rewrite <- names_todo_test in T.
    apply not_true_false in N, T. by rewrite N, T, A.
  - intros N T A. rewrite <- names_schedule_test in N.
    rewrite <- names_todo_test in T.
    apply not_true_false in N, T. rewrite N, T, A.
    assert (s <> "schedules") by (intros E; rewrite E in N; discriminate).
    assert (s <> "todos") by (intros E; rewrite E in T; discriminate).
    assert (s <> "all") by (intros E; rewrite E in A; discriminate).
    rewrite <- String.eqb_neq in *.
    by repeat match goal with H : (s =? _)%string = false |- _ => rewrite H; clear H end.
Qed.

Lemma list_routing_witness :
  parse_command true 0 "list Tasks now" (init NoFile)
  = Ok (true, init NoFile, [UnknownList; ListKindsHint]).
Proof.
  apply (list_routing true 0 "list Tasks now" "list" ["Tasks"; "now"]
           (init NoFile) eq_refl eq_refl).
  - intros [N|N]; discriminate.
  - intros [N|N]; discriminate.
  - reflexivity.
Defined.

Lemma parse_command_done io now command first rest a :
  Text.split command = first :: rest -> Text.lower first = "done" ->
  parse_command io now command a =
  match rest with
  | [] => Ok (true, a, [DoneUsage; DoneHint])
  | t :: _ =>
      match Text.int t with
      | Some n => call (done_todo_by_number io n) a
      | None => Ok (true, a, [NotANumber; DoneHint])
      end
  end.
Proof.
  intros S L. unfold parse_command. rewrite S. cbv zeta. rewrite L.
  cbn [String.eqb Ascii.eqb Bool.eqb orb]. destruct rest as [|t rest]; [done|].
  cbn [length Nat.ltb Nat.leb tok nth]. by destruct (Text.int t).
Qed.

Lemma parse_command_delete io now command first rest a :
  Text.split command = first :: rest ->
  Text.lower first ∈ ["delete"; "del"; "rm"] ->
  parse_command io now command a =
  match rest with
  | [] => Ok (true, a, [DeleteUsage; DeleteHint])
  | t :: _ =>
      match Text.int t with
      | Some n => call (delete_todo_by_number io n) a
      | None => Ok (true, a, [NotANumber; DeleteHint])
      end
  end.
Proof.
  intros S L. unfold parse_command. rewrite S. cbv zeta.
  rewrite !elem_of_cons in L.
  destruct L as [->|[->|[->|L]]]; [| | |by apply elem_of_nil in L];
    cbn [String.eqb Ascii.eqb Bool.eqb orb];
    (destruct rest as [|t rest]; [done|]);
    cbn [length Nat.ltb Nat.leb tok nth]; by destruct (Text.int t).
Qed.

(** ** Numbers: printing, parsing and the numbers of the to-do listing *)

Lemma digit_pretty_N_char d :
  (d < 10)%N -> Text.digit (pretty_N_char d) = Some (Z.of_N d).
Proof.
  intros H.
  assert (d = 0 \/ d = 1 \/ d = 2 \/ d = 3 \/ d = 4 \/ d = 5 \/ d = 6 \/ d = 7
          \/ d = 8 \/ d = 9)%N as D by lia.
  repeat (destruct D as [->|D]; [reflexivity|]). by subst d.
Qed.

Lemma int_digits_digit acc b c d r :
  Text.digit c = Some d ->
  Text.int_digits acc b (String c r) = Text.int_digits (10 * acc + d) true r.
Proof. intros D. cbn [Text.int_digits]. by rewrite D. Qed.

(** Reading the decimal digits of [x] in front of [s] shifts the value
    read so far and adds [x]. *)
Lemma int_digits_pretty_N_go x :
  (0 < x)%N ->
  exists p, forall acc b s,
    Text.int_digits acc b (pretty_N_go x s)
    = Text.int_digits (acc * p + Z.of_N x) true s.
Proof.
  induction (N.lt_wf_0 x) as [x _ IH]. intros Hx.
  assert (Hm : (x `mod` 10 < 10)%N) by (apply N.mod_lt; lia).
  pose proof (digit_pretty_N_char _ Hm) as D.
  pose proof (N.div_mod x 10 ltac:(lia)) as E.
  destruct (decide (x `div` 10 = 0)%N) as [Z0|NZ].
  - exists 10. intros acc b s. rewrite pretty_N_go_step by exact Hx.
    rewrite Z0, pretty_N_go_0, (int_digits_digit _ _ _ _ _ D). f_equal. lia.
  - destruct (IH (x `div` 10)%N) as [p Hp]; [apply N.div_lt; lia|lia|].
    exists (10 * p). intros acc b s. rewrite pretty_N_go_step by exact Hx.
    rewrite Hp, (int_digits_digit _ _ _ _ _ D). f_equal. lia.
Qed.

Lemma int_digits_pretty_N (x : N) :
  Text.int_digits 0 false (pretty x) = Some (Z.of_N x).
Proof.
  unfold pretty, pretty_N. destruct (decide (x = 0)%N) as [->|NZ]; [done|].
  destruct (int_digits_pretty_N_go x) as [p Hp]; [lia|]. by rewrite Hp.
Qed.

(** A literal that [int_digits] reads from the start is read by [int]
    the same way: it does not begin with a sign. *)
Lemma int_unsigned s v :
  Text.int_digits 0 false s = Some v -> Text.int s = Some v.
Proof.
  destruct s as [|c r]; [done|].
  destruct c as [[] [] [] [] [] [] [] []]; try done.
Qed.

Lemma int_pretty_Z (n : Z) : Text.int (pretty n) = Some n.
Proof.
  destruct n as [|p|p]; [done| |].
  - apply int_unsigned. unfold pretty, pretty_Z, pretty, pretty_positive.
    by rewrite int_digits_pretty_N.
  - unfold pretty, pretty_Z.
    change (Text.int ("-" +:+ pretty p))
      with (option_map Z.opp (Text.int_digits 0 false (pretty (N.pos p)))).
    by rewrite int_digits_pretty_N.
Qed.

Lemma int_digits_no_space acc b s v :
  Text.int_digits acc b s = Some v -> no_space (list_ascii_of_string s).
Proof.
  revert acc b. induction s as [|c r IH]; intros acc b; [constructor|].
  cbn [Text.int_digits list_ascii_of_string].
  destruct (Text.digit c) as [d|] eqn:D.
  - intros H. constructor; [by eapply CalendarFacts.digit_not_space|by eapply IH].
  - destruct (Ascii.eqb c "_") eqn:U; [|done]. destruct b; [|done]. cbn.
    intros H. apply Ascii.eqb_eq in U. subst c.
    constructor; [reflexivity|by eapply IH].
Qed.

Lemma int_word s v : Text.int s = Some v -> word s.
Proof.
  destruct s as [|c r]; [done|]. intros H. split; [done|].
  assert (C : (c = "+" \/ c = "-")%char \/ Text.int (String c r)
              = Text.int_digits 0 false (String c r)).
  { destruct c as [[] [] [] [] [] [] [] []]; auto. }
  destruct C as [[-> | ->]|C].
  - cbn in H. cbn [list_ascii_of_string].
    constructor; [reflexivity|by eapply int_digits_no_space].
  - cbn in H. destruct (Text.int_digits 0 false r) eqn:E; [|done].
    cbn [list_ascii_of_string].
    constructor; [reflexivity|by eapply int_digits_no_space].
  - rewrite C in H. by eapply int_digits_no_space.
Qed.

Lemma list_todos_nonempty d :
  todos d <> [] -> list_todos d = TodoHeader :: Rule :: imap todo_line (todos d).
Proof. unfold list_todos. by destruct (todos d). Qed.

Lemma split_verb_number verb (n : Z) :
  word verb -> Text.split (verb +:+ " " +:+ pretty n) = [verb; pretty n].
Proof.
  intros W.
  change (verb +:+ " " +:+ pretty n) with (Text.join " " [verb; pretty n]).
  apply split_join. constructor; [exact W|]. constructor; [|constructor].
  eapply int_word, int_pretty_Z.
Qed.

Lemma number_of_index (i : nat) : Z.to_nat (Z.of_nat (S i) - 1) = i.
Proof. lia. Qed.

Lemma index_in_range (i : nat) (l : list TodoItem) t :
  l !! i = Some t -> in_range (Z.of_nat (S i)) l.
Proof. intros L. apply lookup_lt_Some in L. unfold in_range. lia. Qed.

(** X12: the number the to-do listing prints in front of an item is the
    number that addresses it. If the item at index [i] is listed on the
    line numbered [i+1], then typing [done], [del] or [update t] followed
    by that number as printed completes, deletes or toggles exactly that
    item: the dispatcher parses the printed number back and the operation
    reaches the listed item. *)
Theorem listed_number_addresses io now a (i : nat) t :
  todos (data a) !! i = Some t ->
  let n := Z.of_nat (S i) in
  list_todos (data a) !! (2 + i)%nat
    = Some (TodoLine (S i) (icon_of (t_status t) IconHourglass)
                     (t_task t) (t_status t)) /\
  parse_command io now ("done " +:+ pretty n) a
    = Ok (true,
          changed ("done " +:+ pretty n +:+ " (" +:+ t_task t +:+ ")")
            (fun d => with_todos
               (<[i := t_with_status "completed" t]> (todos d)) d) a,
          saved_or io (TodoCompleted (t_task t))) /\
  parse_command io now ("del " +:+ pretty n) a
    = Ok (true,
          changed ("delete " +:+ pretty n +:+ " (" +:+ t_task t +:+ ")")
            (fun d => with_todos (delete i (todos d)) d) a,
          saved_or io (TodoDeleted (t_task t))) /\
  parse_command io now ("update t " +:+ pretty n) a
    = Ok (true,
          changed ("update todo " +:+ pretty n +:+ " (" +:+ t_task t +:+ ": "
                   +:+ t_status t +:+ " -> " +:+ toggled (t_status t) +:+ ")")
            (fun d => with_todos
               (<[i := t_with_status (toggled (t_status t)) t]> (todos d)) d) a,
          saved_or io (TodoStatusChanged
                         (icon_of (toggled (t_status t)) IconHourglass)
                         (t_task t) (t_status t) (toggled (t_status t)))).
Proof.
  intros L n. subst n.
  pose proof (index_in_range _ _ _ L) as R.
  assert (L' : todos (data a) !! Z.to_nat (Z.of_nat (S i) - 1) = Some t)
    by (by rewrite number_of_index).
  split; [|split; [|split]].
  - rewrite list_todos_nonempty by (intros E; by rewrite E in L).
    change (imap todo_line (todos (data a)) !! i
            = Some (TodoLine (S i) (icon_of (t_status t) IconHourglass)
                             (t_task t) (t_status t))).
    by rewrite list_lookup_imap, L.
  - rewrite (parse_command_done io now _ "done" [pretty (Z.of_nat (S i))]);
      [|apply (split_verb_number "done"); split; [done|by repeat constructor]
       |reflexivity].
    rewrite int_pretty_Z. unfold call.
    rewrite (done_todo_by_number_eq _ _ _ t R L'). by rewrite number_of_index.
  - rewrite (parse_command_delete io now _ "del" [pretty (Z.of_nat (S i))]);
      [|apply (split_verb_number "del"); split; [done|by repeat constructor]
       |apply elem_of_cons; right; apply elem_of_cons; by left].
    rewrite int_pretty_Z. unfold call.
    rewrite (delete_todo_by_number_eq _ _ _ t R L'). by rewrite number_of_index.
  - assert (S : Text.split ("update t " +:+ pretty (Z.of_nat (S i)))
                = ["update"; "t"; pretty (Z.of_nat (S i))]).
    { change ("update t " +:+ pretty (Z.of_nat (S i)))
        with (Text.join " " ["update"; "t"; pretty (Z.of_nat (S i))]).
      apply split_join. constructor; [split; [done|by repeat constructor]|].
      constructor; [split; [done|by repeat constructor]|].
      constructor; [|constructor]. eapply int_word, int_pretty_Z. }
    rewrite (parse_command_update _ _ _ _ _ _ S eq_refl).
    unfold parse_update, update_todo_cmd. cbn [length Nat.ltb Nat.leb Nat.eqb tok nth].
    replace (update_sub_cmd (Text.lower "t")) with "todo" by reflexivity.
    cbn [String.eqb Ascii.eqb Bool.eqb]. rewrite int_pretty_Z. unfold call.
    rewrite (toggle_todo_by_number_eq _ _ _ t R L'). by rewrite number_of_index.
Qed.

Lemma listed_number_addresses_witness :
  let a := init (Stored {| schedules := [];
                           todos := [{| t_task := "a"; t_status := "pending" |};
                                     {| t_task := "b"; t_status := "pending" |}] |}) in
  list_todos (data a) !! 3%nat = Some (TodoLine 2 IconHourglass "b" "pending") /\
  parse_command true 0 ("done " +:+ pretty 2) a
    = Ok (true,
          changed ("done " +:+ pretty 2 +:+ " (b)")
            (fun d => with_todos
               (<[1%nat := {| t_task := "b"; t_status := "completed" |}]> (todos d)) d) a,
          [TodoCompleted "b"]).
Proof.
  intros a.
  destruct (listed_number_addresses true 0 a 1 {| t_task := "b"; t_status := "pending" |}
              eq_refl) as (H1 & H2 & _).
  split; [exact H1|exact H2].
Defined.

(** ** Status changes *)

Lemma toggled_twice s : known_status s = true -> toggled (toggled s) = s.
Proof.
  unfold known_status, toggled. intros K.
  destruct (s =? "pending")%string eqn:P.
  - apply String.eqb_eq in P. by subst s.
  - rewrite orb_false_r in K. apply String.eqb_eq in K. by subst s.
Qed.

Lemma t_with_status_twice s1 s2 t :
  t_with_status s2 (t_with_status s1 t) = t_with_status s2 t.
Proof. done. Qed.

Lemma t_with_status_same t : t_with_status (t_status t) t = t.
Proof. by destruct t. Qed.

Lemma in_range_insert n (i : nat) t (l : list TodoItem) :
  in_range n l -> in_range n (<[i := t]> l).
Proof. unfold in_range. by rewrite length_insert. Qed.

(** X13: toggling the same to-do twice gives back the document as it was,
    provided the item's status was [pending] or [completed]; this holds
    whether or not the two saves succeed. *)
Theorem toggle_twice io1 io2 n a t :
  in_range n (todos (data a)) ->
  item_at n (todos (data a)) = Some t ->
  known_status (t_status t) = true ->
  data (toggle_todo_by_number io2 n (toggle_todo_by_number io1 n a).1.2).1.2
  = data a.
Proof.
  unfold item_at. intros R L K.
  rewrite (toggle_todo_by_number_eq io1 n a t R L). cbn [fst snd].
  set (t1 := t_with_status (toggled (t_status t)) t).
  assert (L1 : <[Z.to_nat (n - 1) := t1]> (todos (data a)) !! Z.to_nat (n - 1)
               = Some t1).
  { apply list_lookup_insert_eq. by apply lookup_lt_Some in L. }
  erewrite (toggle_todo_by_number_eq io2 n _ t1);
    [|by apply in_range_insert|exact L1].
  cbn. rewrite list_insert_insert_eq. subst t1. cbn [t_status t_with_status].
  rewrite toggled_twice by exact K.
  rewrite t_with_status_twice, t_with_status_same, list_insert_id by exact L.
  unfold with_todos. by destruct (data a).
Qed.

Lemma toggle_twice_witness :
  let a := init (Stored {| schedules := [];
                           todos := [{| t_task := "a"; t_status := "pending" |}] |}) in
  data (toggle_todo_by_number false 1 (toggle_todo_by_number true 1 a).1.2).1.2
  = data a.
Proof.
  intros a.
  apply (toggle_twice true false 1 a {| t_task := "a"; t_status := "pending" |});
    [|reflexivity|reflexivity].
  cbv. split; discriminate.
Defined.

(** X14: completing a to-do is idempotent: [done n] on an item that is
    already completed is not an error. It reports success when its save
    succeeds and leaves the document as the first [done n] left it, with
    the item completed. *)
Theorem done_idempotent io1 io2 n a t :
  in_range n (todos (data a)) ->
  item_at n (todos (data a)) = Some t ->
  let a1 := (done_todo_by_number io1 n a).1.2 in
  item_at n (todos (data a1)) = Some (t_with_status "completed" t) /\
  (done_todo_by_number io2 n a1).1.1 = io2 /\
  data (done_todo_by_number io2 n a1).1.2 = data a1.
Proof.
  intros R L a1. subst a1. unfold item_at in *.
  rewrite (done_todo_by_number_eq io1 n a t R L). cbn [fst snd].
  set (t1 := t_with_status "completed" t).
  assert (L1 : <[Z.to_nat (n - 1) := t1]> (todos (data a)) !! Z.to_nat (n - 1)
               = Some t1).
  { apply list_lookup_insert_eq. by apply lookup_lt_Some in L. }
  split; [exact L1|].
  erewrite (done_todo_by_number_eq io2 n _ t1);
    [|by apply in_range_insert|exact L1].
  split; [reflexivity|]. cbn. rewrite list_insert_insert_eq. reflexivity.
Qed.

Lemma done_idempotent_witness :
  let a := init (Stored {| schedules := [];
                           todos := [{| t_task := "a"; t_status := "pending" |}] |}) in
  let a1 := (done_todo_by_number true 1 a).1.2 in
  item_at 1 (todos (data a1)) = Some {| t_task := "a"; t_status := "completed" |} /\
  (done_todo_by_number true 1 a1).1.1 = true /\
  data (done_todo_by_number true 1 a1).1.2 = data a1.
Proof.
  intros a.
  apply (done_idempotent true true 1 a {| t_task := "a"; t_status := "pending" |});
    [|reflexivity].
  cbv. split; discriminate.
Defined.

(** ** What a mutation can and cannot change *)

Lemma edit_footprint d d' :
  edit d d' ->
  (s_key <$> schedules d' = s_key <$> schedules d /\
   t_task <$> todos d' = t_task <$> todos d) \/
  (exists k, s_key <$> schedules d' = (s_key <$> schedules d) ++ [k] /\
             todos d' = todos d) \/
  (exists task, schedules d' = schedules d /\
                t_task <$> todos d' = (t_task <$> todos d) ++ [task]) \/
  (exists i : nat, (i < length (todos d))%nat /\
                   schedules d' = schedules d /\
                   todos d' = delete i (todos d)).
Proof.
  intros E. destruct E as [task dt V N|task N|i s status K L|i t status K L|i t L];
    cbn.
  - right. left. exists (task, dt). by rewrite fmap_app.
  - right. right. left. exists task. by rewrite fmap_app.
  - left. by rewrite set_schedule_status_keys.
  - left. by rewrite set_todo_status_tasks.
  - right. right. right. exists i. split; [by eapply lookup_lt_Some|done].
Qed.

(** X15: what one call of a mutating operation can do to the document:
    one of four things. The tasks, datetimes and order of the
    schedules and the tasks and order of the to-dos all stay as they are
    (only statuses can differ); or exactly one schedule is appended at the
    end and the to-dos are untouched; or exactly one to-do is appended at
    the end and the schedules are untouched; or exactly one to-do is
    removed, the others keeping their order, and the schedules are
    untouched. No operation removes, renames, re-dates or reorders a
    schedule, appends more than one item, or renames or reorders to-dos. *)
Theorem mutation_footprint io m a :
  let d := data a in
  let d' := data (apply_mutation io m a).1.2 in
  (s_key <$> schedules d' = s_key <$> schedules d /\
   t_task <$> todos d' = t_task <$> todos d) \/
  (exists k, s_key <$> schedules d' = (s_key <$> schedules d) ++ [k] /\
             todos d' = todos d) \/
  (exists task, schedules d' = schedules d /\
                t_task <$> todos d' = (t_task <$> todos d) ++ [task]) \/
  (exists i : nat, (i < length (todos d))%nat /\
                   schedules d' = schedules d /\
                   todos d' = delete i (todos d)).
Proof.
  intros d d'. subst d d'.
  destruct (apply_mutation_edit io m a) as [->|[[label ->]|(label & f & E & ->)]].
  - by left.
  - by left.
  - by apply edit_footprint.
Qed.

(** A call that is not [update_schedule_status] leaves every schedule that
    is there in its place and unchanged. *)
Lemma other_mutations_keep_schedules io m a (j : nat) s :
  (forall task status, m <> UpdateSchedule task status) ->
  schedules (data a) !! j = Some s ->
  schedules (data (apply_mutation io m a).1.2) !! j = Some s.
Proof.
  intros NU L.
  destruct m as [task dt|task|task status|task status|n|n|n]; cbn [apply_mutation].
  - rewrite add_schedule_eq. destruct (negb _); [done|]. cbv zeta.
    destruct (existsb _ _); [done|]. cbn. by apply lookup_app_l_Some.
  - rewrite add_todo_eq. cbv zeta. by destruct (existsb _ _).
  - by destruct (NU task status).
  - rewrite update_todo_status_eq. destruct (negb _); [done|]. cbv zeta.
    by destruct (list_find _ _) as [[i t]|].
  - unfold done_todo_by_number at 1.
    destruct (by_number_cases n a) as [E|[[E R]|[R [t Lt]]]].
    + by rewrite by_number_empty.
    + by rewrite by_number_out_of_range.
    + fold (done_todo_by_number io n).
      by rewrite (done_todo_by_number_eq _ _ _ t R Lt).
  - unfold delete_todo_by_number at 1.
    destruct (by_number_cases n a) as [E|[[E R]|[R [t Lt]]]].
    + by rewrite by_number_empty.
    + by rewrite by_number_out_of_range.
    + fold (delete_todo_by_number io n).
      by rewrite (delete_todo_by_number_eq _ _ _ t R Lt).
  - unfold toggle_todo_by_number at 1.
    destruct (by_number_cases n a) as [E|[[E R]|[R [t Lt]]]].
    + by rewrite by_number_empty.
    + by rewrite by_number_out_of_range.
    + fold (toggle_todo_by_number io n).
      by rewrite (toggle_todo_by_number_eq _ _ _ t R Lt).
Qed.

(** X16: [update_schedule_status] looks a schedule up by its task alone and
    changes the first match, so a schedule that comes after another one
    with the same task (at another datetime) is out of reach: no call of
    any mutating operation changes it. *)
Theorem later_namesake_frozen io m a (i j : nat) s s' :
  (i < j)%nat ->
  schedules (data a) !! i = Some s ->
  schedules (data a) !! j = Some s' ->
  s_task s = s_task s' ->
  schedules (data (apply_mutation io m a).1.2) !! j = Some s'.
Proof.
  intros Hij Li Lj T.
  assert (exists task status, m = UpdateSchedule task status
          \/ forall task status, m <> UpdateSchedule task status) as (task & status & [->|NU]).
  { destruct m; try (exists EmptyString, EmptyString; right; discriminate).
    eexists _, _. by left. }
  - cbn [apply_mutation]. rewrite update_schedule_status_eq.
    destruct (negb _); [done|]. cbv zeta.
    destruct (list_find _ _) as [[k x]|] eqn:F; [|done].
    apply list_find_Some in F as (Lk & Tk & First). cbn.
    rewrite list_lookup_insert_ne; [done|]. intros ->.
    rewrite Lj in Lk. injection Lk as <-.
    apply (First i s Li Hij). congruence.
  - by apply other_mutations_keep_schedules.
Qed.

Lemma later_namesake_frozen_witness :
  let a := init (Stored {| schedules :=
             [{| s_task := "gym"; s_datetime := "2024-05-20 09:00"; s_status := "pending" |};
              {| s_task := "gym"; s_datetime := "2024-05-27 09:00"; s_status := "pending" |}];
             todos := [] |}) in
  schedules (data (update_schedule_status true "gym" "completed" a).1.2) !! 1%nat
  = Some {| s_task := "gym"; s_datetime := "2024-05-27 09:00"; s_status := "pending" |}.
Proof.
  intros a.
  apply (later_namesake_frozen true (UpdateSchedule "gym" "completed") a 0 1
           {| s_task := "gym"; s_datetime := "2024-05-20 09:00"; s_status := "pending" |});
    [lia|reflexivity..].
Defined.

(** X17: a call of a mutating operation that got past its first checks can
    be undone even though it did not succeed. When the call failed because
    its save failed, or was rejected as a duplicate or for a task not found,
    the next undo (with a working save) returns success and leaves the
    document the call started from; in the two rejected cases that document
    is the current one, so this undo changes nothing and the checkpoint of
    the last successful command is gone. *)
Theorem undo_after_failed_call io m a k :
  fails_with k (apply_mutation io m a) ->
  checked_first k = false ->
  exists label,
    last_command (apply_mutation io m a).1.2 = Some label /\
    undo_last_command true (apply_mutation io m a).1.2
    = (true, {| data := data a; backup_data := None; last_command := None |},
       [Undone label]) /\
    (checked_after k = true -> data (apply_mutation io m a).1.2 = data a).
Proof.
  intros [_ K] F.
  pose proof (apply_mutation_outcome io m a) as H.
  destruct (apply_mutation io m a) as [[r a'] o]. cbn [fst snd] in *.
  inversion H as [msg k0 Km F0|label msg k0 Km F0|label f msg Km]; subst.
  - cbn in K. rewrite Km in K. injection K as <-. congruence.
  - exists label. rewrite undo_last_command_eq. by cbn.
  - exists label. rewrite undo_last_command_eq. cbn. split; [done|]. split; [done|].
    destruct r; cbn in K; [congruence|]. injection K as <-. discriminate.
Qed.

Lemma undo_after_failed_call_witness :
  exists label,
    last_command (add_todo false "a" (init NoFile)).1.2 = Some label /\
    undo_last_command true (add_todo false "a" (init NoFile)).1.2
    = (true, {| data := empty_document; backup_data := None;
                last_command := None |}, [Undone label]) /\
    (checked_after PersistenceFailure = true ->
     data (add_todo false "a" (init NoFile)).1.2 = empty_document).
Proof.
  apply (undo_after_failed_call false (AddTodo "a") (init NoFile) PersistenceFailure).
  - split; reflexivity.
  - reflexivity.
Defined.

(** ** Accepted datetimes are real *)

(** X18: every datetime text [validate_datetime] accepts names a real
    date and time: [strptime] returns a year from 1 to 9999, a month from
    1 to 12, a day the month has in that year (29 February only in leap
    years), an hour up to 23 and a minute up to 59. A text it rejects is
    never stored as a schedule. *)
Theorem accepted_datetime_real text :
  validate_datetime text = true ->
  exists f, Calendar.strptime text = Some f /\ real_datetime f.
Proof.
  unfold validate_datetime.
  destruct (Calendar.strptime text) as [f|] eqn:E; [|done]. intros _.
  exists f. split; [done|]. unfold Calendar.strptime in E.
  destruct (Calendar.format_regex text) as [|[f' r] rest] eqn:R; [done|].
  destruct r; [|done]. destruct (Calendar.valid_date f') eqn:V; [|done].
  injection E as ->.
  assert (I : In (f, EmptyString) (Calendar.format_regex text))
    by (rewrite R; by left).
  apply ParserBounds.yields_format_regex in I.
  unfold Calendar.valid_date in V.
  apply andb_true_iff in V as [V V3]. apply andb_true_iff in V as [V1 V2].
  apply Z.leb_le in V1, V2, V3. unfold real_datetime. lia.
Qed.

Lemma accepted_datetime_real_witness :
  exists f, Calendar.strptime "2024-2-29 9:05" = Some f /\ real_datetime f.
Proof. apply (accepted_datetime_real "2024-2-29 9:05"). reflexivity. Defined.

(** ** Relative-day labels and tab completion *)

Lemma label_arith t :
  0 <= t ->
  let day := Calendar.usec_per_day in
  let n := Calendar.days_of t in
  0 <= n /\ (n = 0 <-> t < day) /\ (n = 1 <-> day <= t < 2 * day) /\
  (2 * day <= t <-> 2 <= n) /\ (t <= 30 * day -> n <= 30).
Proof.
  intros Ht day n. subst day n.
  unfold Calendar.days_of, Calendar.usec_per_day, Calendar.usec_per_minute.
  repeat split; intros; Z.div_mod_to_equations; lia.
Qed.

Lemma past_label_cases now t :
  let n := Calendar.days_of (now - t) in
  (past_label now t = Today <-> n = 0) /\
  (past_label now t = Yesterday <-> n = 1) /\
  (2 <= n -> past_label now t = DaysAgo n).
Proof.
  intros n. unfold past_label. fold n.
  destruct (n =? 0) eqn:E0; [|destruct (n =? 1) eqn:E1];
    rewrite ?Z.eqb_eq, ?Z.eqb_neq in *.
  all: repeat split; intros; try done; lia.
Qed.

Lemma future_label_cases now t :
  let n := Calendar.days_of (t - now) in
  (future_label now t = Today <-> n = 0) /\
  (future_label now t = Tomorrow <-> n = 1) /\
  (2 <= n -> future_label now t = DaysLater n).
Proof.
  intros n. unfold future_label. fold n.
  destruct (n =? 0) eqn:E0; [|destruct (n =? 1) eqn:E1];
    rewrite ?Z.eqb_eq, ?Z.eqb_neq in *.
  all: repeat split; intros; try done; lia.
Qed.

(** X19: the relative-day text of a listed schedule counts elapsed
    24-hour periods, not calendar days. A past schedule is labelled [Today]
    exactly when it lies less than 24 hours back, [Yesterday] exactly when
    it lies at least 24 and less than 48 hours back, and otherwise
    [DaysAgo n] with [n] the whole days elapsed, between 2 and 30. A future
    schedule is labelled [Today] exactly when it is less than 24 hours
    ahead, [Tomorrow] when at least 24 and less than 48 hours ahead, and
    otherwise [DaysLater n] with [n] at least 2. *)
Theorem labels_count_elapsed_days now ks x :
  (x ∈ past_schedules now ks ->
   0 <= Calendar.days_of (now - fst x) <= 30 /\
   (past_label now (fst x) = Today <-> now - fst x < Calendar.usec_per_day) /\
   (past_label now (fst x) = Yesterday
    <-> Calendar.usec_per_day <= now - fst x < 2 * Calendar.usec_per_day) /\
   (2 * Calendar.usec_per_day <= now - fst x ->
    2 <= Calendar.days_of (now - fst x) /\
    past_label now (fst x) = DaysAgo (Calendar.days_of (now - fst x)))) /\
  (x ∈ future_schedules now ks ->
   0 <= Calendar.days_of (fst x - now) /\
   (future_label now (fst x) = Today <-> fst x - now < Calendar.usec_per_day) /\
   (future_label now (fst x) = Tomorrow
    <-> Calendar.usec_per_day <= fst x - now < 2 * Calendar.usec_per_day) /\
   (2 * Calendar.usec_per_day <= fst x - now ->
    2 <= Calendar.days_of (fst x - now) /\
    future_label now (fst x) = DaysLater (Calendar.days_of (fst x - now)))).
Proof.
  split.
  - intros I. unfold past_schedules, recent in I.
    apply list_elem_of_filter in I as [P I].
    apply list_elem_of_filter in I as [R _]. unfold thirty_days in R.
    assert (Ht : 0 <= now - fst x) by lia.
    destruct (label_arith _ Ht) as (A0 & A1 & A2 & A3 & A4).
    destruct (past_label_cases now (fst x)) as (L0 & L1 & L2).
    cbv zeta in *. rewrite L0, L1, A1, A2.
    split; [split; [done|apply A4; lia]|]. split; [done|]. split; [done|].
    intros H. apply A3 in H. split; [done|by apply L2].
  - intros I. unfold future_schedules in I.
    apply list_elem_of_filter in I as [P _].
    assert (Ht : 0 <= fst x - now) by lia.
    destruct (label_arith _ Ht) as (A0 & A1 & A2 & A3 & A4).
    destruct (future_label_cases now (fst x)) as (L0 & L1 & L2).
    cbv zeta in *. rewrite L0, L1, A1, A2.
    split; [done|]. split; [done|]. split; [done|].
    intros H. apply A3 in H. split; [done|by apply L2].
Qed.

Lemma labels_count_elapsed_days_witness :
  let late_evening :=
    (Calendar.timestamp {| Calendar.year := 2024; Calendar.month := 5;
                           Calendar.day := 14; Calendar.hour := 23;
                           Calendar.minute := 0 |},
     {| s_task := "call"; s_datetime := "2024-05-14 23:00"; s_status := "pending" |}) in
  past_label example_now (fst late_evening) = Today.
Proof.
  intros x.
  destruct (labels_count_elapsed_days example_now [x] x) as [P _].
  apply P; [|vm_compute; reflexivity].
  unfold past_schedules, recent. rewrite !list_elem_of_filter.
  split; [vm_compute; reflexivity|]. split; [vm_compute; discriminate|].
  cbn. by apply list_elem_of_singleton.
Defined.

Lemma completer_lookup text (state : nat) :
  completer text state
  = filter (fun cmd => Text.startswith cmd text = true) commands !! state.
Proof.
  unfold completer. cbv zeta. destruct (_ <? _)%nat eqn:C; [done|].
  apply Nat.ltb_ge in C. symmetry. by apply lookup_ge_None.
Qed.

Lemma commands_NoDup : NoDup commands.
Proof. apply (bool_decide_unpack _). vm_compute. reflexivity. Qed.

(** X20: tab completion offers exactly the commands of its table that
    start with the typed text, each one once: every suggestion is such a
    command, every such command is suggested at some state, no command is
    suggested at two states, and after the first [None] every later state
    gives [None] too. *)
Theorem completer_exact text :
  (forall state c, completer text state = Some c ->
                   c ∈ commands /\ Text.startswith c text = true) /\
  (forall c, c ∈ commands -> Text.startswith c text = true ->
             exists state, completer text state = Some c) /\
  (forall s1 s2 c, completer text s1 = Some c -> completer text s2 = Some c ->
                   s1 = s2) /\
  (forall s1 s2, completer text s1 = None -> (s1 <= s2)%nat ->
                 completer text s2 = None).
Proof.
  split; [|split; [|split]].
  - intros state c. rewrite completer_lookup. intros L.
    apply list_elem_of_lookup_2 in L. apply list_elem_of_filter in L. tauto.
  - intros c I S.
    assert (F : c ∈ filter (fun cmd => Text.startswith cmd text = true) commands)
      by (by apply list_elem_of_filter).
    apply list_elem_of_lookup_1 in F as [state L]. exists state.
    by rewrite completer_lookup.
  - intros s1 s2 c. rewrite !completer_lookup. intros L1 L2.
    eapply NoDup_lookup; [|exact L1|exact L2].
    apply NoDup_filter, commands_NoDup.
  - intros s1 s2. rewrite !completer_lookup. intros L1 Hs.
    apply lookup_ge_None in L1. apply lookup_ge_None. lia.
Qed.

Lemma completer_exact_witness :
  "list schedules" ∈ commands /\ Text.startswith "list schedules" "list s" = true.
Proof.
  apply (proj1 (completer_exact "list s") 0%nat "list schedules"). reflexivity.
Defined.


(** ** Commands on plain text *)

Lemma int_digits_plain acc b s v :
  Text.int_digits acc b s = Some v -> plain s.
Proof.
  revert acc b. induction s as [|c r IH]; intros acc b; [done|].
  cbn [Text.int_digits]. rewrite plain_cons.
  destruct (Text.digit c) as [d|] eqn:D.
  - intros H. split; [|by eapply IH].
    unfold Text.digit in D. cbv zeta in D.
    destruct (_ && _) eqn:R; [|done]. apply andb_true_iff in R as [_ R]. lia.
  - destruct (Ascii.eqb c "_") eqn:U; [|done]. destruct b; [|done]. cbn.
    intros H. apply Ascii.eqb_eq in U. subst c. split; [done|by eapply IH].
Qed.

Lemma int_plain s v : Text.int s = Some v -> plain s.
Proof.
  destruct s as [|c r]; [done|]. intros H.
  assert (C : (c = "+" \/ c = "-")%char \/ Text.int (String c r)
              = Text.int_digits 0 false (String c r)).
  { destruct c as [[] [] [] [] [] [] [] []]; auto. }
  destruct C as [[-> | ->]|C].
  - cbn in H. apply plain_cons. split; [done|by eapply int_digits_plain].
  - cbn in H. destruct (Text.int_digits 0 false r) eqn:E; [|done].
    apply plain_cons. split; [done|by eapply int_digits_plain].
  - rewrite C in H. by eapply int_digits_plain.
Qed.

Lemma plain_pretty (n : Z) : plain (pretty n).
Proof. eapply int_plain, int_pretty_Z. Qed.

Lemma toggled_plain s : plain (toggled s).
Proof. unfold toggled. by destruct (s =? "pending")%string. Qed.

Lemma known_status_plain s : known_status s = true -> plain s.
Proof.
  unfold known_status. intros H. apply orb_true_iff in H as [H|H];
    apply String.eqb_eq in H; by subst s.
Qed.

Lemma plain_document_lookup_todo d (i : nat) t :
  plain_document d -> todos d !! i = Some t -> plain (t_task t) /\ plain (t_status t).
Proof.
  intros [_ T] L. rewrite Forall_forall in T. apply T.
  by eapply list_elem_of_lookup_2.
Qed.

Lemma plain_document_lookup_schedule d (i : nat) s :
  plain_document d -> schedules d !! i = Some s ->
  plain (s_task s) /\ plain (s_datetime s) /\ plain (s_status s).
Proof.
  intros [S _] L. rewrite Forall_forall in S. apply S.
  by eapply list_elem_of_lookup_2.
Qed.

Lemma plain_session_checkpointed label a :
  plain label -> plain_session a -> plain_session (checkpointed label a).
Proof.
  intros L [[D H] _]. split; [split; [exact D|]|].
  - cbn. by intros d [= <-].
  - cbn. by intros l [= <-].
Qed.

Lemma plain_session_changed label f a :
  plain label -> plain_document (f (data a)) -> plain_session a ->
  plain_session (changed label f a).
Proof.
  intros L F [[D H] _]. split; [split; [exact F|]|].
  - cbn. by intros d [= <-].
  - cbn. by intros l [= <-].
Qed.

Ltac plain_text :=
  rewrite ?plain_app;
  repeat split;
  first [ done | apply plain_pretty | apply toggled_plain | assumption ].

Lemma apply_mutation_plain io m a :
  plain_mutation m -> plain_session a ->
  plain_session (apply_mutation io m a).1.2.
Proof.
  intros M I. pose proof I as [[D _] _].
  destruct m as [task dt|task|task status|task status|n|n|n];
    cbn [apply_mutation plain_mutation] in *.
  - destruct M as [Pt Pd]. rewrite add_schedule_eq.
    destruct (negb _); [exact I|]. cbv zeta.
    destruct (existsb _ _); cbn [fst snd].
    + apply plain_session_checkpointed; [plain_text|exact I].
    + apply plain_session_changed; [plain_text| |exact I].
      destruct D as [S T]. split; [|exact T]. cbn.
      apply Forall_app_2; [exact S|]. by repeat constructor.
  - rewrite add_todo_eq. cbv zeta. destruct (existsb _ _); cbn [fst snd].
    + apply plain_session_checkpointed; [plain_text|exact I].
    + apply plain_session_changed; [plain_text| |exact I].
      destruct D as [S T]. split; [exact S|]. cbn.
      apply Forall_app_2; [exact T|]. by repeat constructor.
  - destruct M as [Pt Ps]. rewrite update_schedule_status_eq.
    destruct (negb _); [exact I|]. cbv zeta.
    destruct (list_find _ _) as [[i s]|] eqn:F; cbn [fst snd].
    + apply list_find_Some in F as (L & _ & _).
      apply plain_session_changed; [plain_text| |exact I].
      destruct (plain_document_lookup_schedule _ _ _ D L) as (P1 & P2 & P3).
      destruct D as [S T]. split; [|exact T]. cbn. by apply Forall_insert.
    + apply plain_session_checkpointed; [plain_text|exact I].
  - destruct M as [Pt Ps]. rewrite update_todo_status_eq.
    destruct (negb _); [exact I|]. cbv zeta.
    destruct (list_find _ _) as [[i t]|] eqn:F; cbn [fst snd].
    + apply list_find_Some in F as (L & _ & _).
      apply plain_session_changed; [plain_text| |exact I].
      destruct (plain_document_lookup_todo _ _ _ D L) as (P1 & P2).
      destruct D as [S T]. split; [exact S|]. cbn. by apply Forall_insert.
    + apply plain_session_checkpointed; [plain_text|exact I].
  - unfold done_todo_by_number at 1.
    destruct (by_number_cases n a) as [E|[[E R]|[R [t L]]]].
    + by rewrite by_number_empty.
    + by rewrite by_number_out_of_range.
    + fold (done_todo_by_number io n).
      rewrite (done_todo_by_number_eq _ _ _ t R L). cbn [fst snd].
      destruct (plain_document_lookup_todo _ _ _ D L) as (P1 & P2).
      apply plain_session_changed; [plain_text| |exact I].
      destruct D as [S T]. split; [exact S|]. cbn. by apply Forall_insert.
  - unfold delete_todo_by_number at 1.
    destruct (by_number_cases n a) as [E|[[E R]|[R [t L]]]].
    + by rewrite by_number_empty.
    + by rewrite by_number_out_of_range.
    + fold (delete_todo_by_number io n).
      rewrite (delete_todo_by_number_eq _ _ _ t R L). cbn [fst snd].
      destruct (plain_document_lookup_todo _ _ _ D L) as (P1 & P2).
      apply plain_session_changed; [plain_text| |exact I].
      destruct D as [S T]. split; [exact S|]. cbn. by apply Forall_delete.
  - unfold toggle_todo_by_number at 1.
    destruct (by_number_cases n a) as [E|[[E R]|[R [t L]]]].
    + by rewrite by_number_empty.
    + by rewrite by_number_out_of_range.
    + fold (toggle_todo_by_number io n).
      rewrite (toggle_todo_by_number_eq _ _ _ t R L). cbn [fst snd].
      destruct (plain_document_lookup_todo _ _ _ D L) as (P1 & P2).
      apply plain_session_changed; [plain_text| |exact I].
      destruct D as [S T]. split; [exact S|]. cbn.
      apply Forall_insert; [exact T|]. split; [exact P1|apply toggled_plain].
Qed.

Lemma undo_plain io a :
  plain_session a -> plain_session (undo_last_command io a).1.2.
Proof.
  intros I. rewrite undo_last_command_eq.
  destruct (backup_data a) as [h|] eqn:Eb; [|by destruct (last_command a)].
  destruct (last_command a) as [label|] eqn:El; [|exact I].
  destruct I as [[D H] L]. unfold held_document in H. rewrite Eb in H.
  assert (X : plain_document match h with OwnCopy d => d | SameObject => data a end).
  { destruct h; [by apply H|exact D]. }
  destruct io; cbn; (split; [split; [exact X|]|]); cbn; try done.
  - by intros d [= <-].
  - intros l [= <-]. by apply L.
Qed.

(** What a command line on plain text does. *)
Lemma parse_command_plain_cases io now command a :
  plain command ->
  (exists b o, parse_command io now command a = Ok (b, a, o)) \/
  (exists e, parse_command io now command a = Raise e) \/
  (exists m, plain_mutation m /\
             parse_command io now command a = call (apply_mutation io m) a) \/
  parse_command io now command a = call (undo_last_command io) a.
Proof.
  intros P. apply split_plain in P.
  unfold parse_command. destruct (Text.split command) as [|first rest].
  { left. by eexists _, _. }
  unfold parse_add, parse_list, parse_update, add_schedule_cmd, add_todo_cmd,
    update_todo_cmd, update_schedule_cmd.
  split_ifs;
    first
      [ left; unfold say; by eexists _, _
      | unfold query;
        match goal with
        | |- context [match ?q with Ok _ => _ | Raise _ => _ end] =>
            destruct q; [left; by eexists _, _|right; left; by eexists]
        end
      | right; right; right; reflexivity
      | right; right; left; eexists (AddSchedule _ _); split; [|reflexivity]
      | right; right; left; eexists (AddTodo _); split; [|reflexivity]
      | right; right; left; eexists (UpdateSchedule _ _); split; [|reflexivity]
      | right; right; left; eexists (UpdateTodo _ _); split; [|reflexivity]
      | right; right; left; by eexists (DoneByNumber _)
      | right; right; left; by eexists (DeleteByNumber _)
      | right; right; left; by eexists (ToggleByNumber _) ];
    cbn [plain_mutation]; rewrite ?plain_app;
    repeat split;
    first [ done | apply plain_lower, plain_tok, P | apply plain_tok, P
          | apply plain_join, Forall_drop, P ].
Qed.

Lemma parse_command_plain io now command a b a' o :
  plain command -> plain_session a ->
  parse_command io now command a = Ok (b, a', o) ->
  plain_session a'.
Proof.
  intros P I E.
  destruct (parse_command_plain_cases io now command a P)
    as [(b0 & o0 & H)|[(e & H)|[(m & M & H)|H]]]; rewrite H in E.
  - by injection E as _ <- _.
  - discriminate.
  - unfold call in E. pose proof (apply_mutation_plain io m a M I) as X.
    destruct (apply_mutation io m a) as [[r a1] o1]. by injection E as _ <- _.
  - unfold call in E. pose proof (undo_plain io a I) as X.
    destruct (undo_last_command io a) as [[r a1] o1]. by injection E as _ <- _.
Qed.

(** X3: on plain (ASCII) text a command line never raises. If the line
    typed is plain and at most 4300 characters long, every text the session
    holds is plain, every stored schedule datetime passes
    [validate_datetime] (in the live document and in the checkpoint) and
    the clock is at least thirty days after [datetime.min], then
    [parse_command] returns, the stored datetimes are still all valid and
    the session still holds plain text only. So the [strptime] calls of
    [list_schedules] cannot fail on schedules the program stored itself,
    and since all text stays plain the [json.dump] of [save_data], which
    catches [IOError] only, has nothing it cannot encode. Writing to the
    terminal is taken to succeed. *)
Theorem valid_datetimes_no_exception io now command a :
  thirty_days <= now ->
  plain_line command ->
  plain_session a ->
  session_ok datetimes_valid a ->
  exists b a' o,
    parse_command io now command a = Ok (b, a', o) /\
    session_ok datetimes_valid a' /\
    plain_session a'.
Proof.
  intros Hnow [P _] Q I.
  destruct (parse_command_ok io now command a Hnow (proj1 I)) as [[[b a'] o] E].
  exists b, a', o. split; [exact E|]. split.
  - eapply session_ok_parse_command; [apply edit_datetimes_valid|exact I|exact E].
  - by eapply parse_command_plain.
Qed.

Lemma valid_datetimes_no_exception_witness :
  exists b a' o,
    parse_command true example_now "list" (init (Stored example_schedules))
      = Ok (b, a', o) /\
    session_ok datetimes_valid a' /\
    plain_session a'.
Proof.
  apply (valid_datetimes_no_exception true example_now "list"
           (init (Stored example_schedules))).
  - vm_compute. discriminate.
  - split; [reflexivity|vm_compute; discriminate].
  - split; [split|]; [|intros d H; discriminate|intros l H; discriminate].
    split; by repeat constructor.
  - split; [by repeat constructor|]. intros d H. discriminate.
Defined.

(** X4: the input loop on plain (ASCII) text. Started from a well-formed
    session that holds plain text only, and run on typed lines that are
    plain and at most 4300 characters long, with clocks at least thirty
    days after [datetime.min], the loop never ends with an uncaught
    exception of the command processing, and it leaves a session that is
    well-formed and still holds plain text only (live document, checkpoint
    and label). Writing to the terminal is taken to succeed. *)
Theorem loop_safe inputs a :
  session_ok well_formed a ->
  plain_session a ->
  Forall (fun i => thirty_days <= clock i /\ plain_line (typed i)) inputs ->
  (forall e, (loop inputs a).1.1 <> Crashed e) /\
  session_ok well_formed (loop inputs a).1.2 /\
  plain_session (loop inputs a).1.2.
Proof.
  intros I Q C. split; [|split; [by apply session_ok_loop; [apply edit_well_formed|]|]].
  - revert a I Q. induction C as [|i rest [Hi [Pi _]] C IH]; intros a I Q e;
      cbn [loop]; [done|].
    destruct (strip (typed i)) as [|c r] eqn:S; [by apply IH|].
    assert (V : datetimes_valid (data a)) by (destruct I as [(_ & V & _) _]; exact V).
    destruct (parse_command_ok (saves i) (clock i) (String c r) a Hi V)
      as [[[b a'] o] E].
    rewrite E. destruct b; [|done].
    pose proof E as E'.
    apply session_ok_parse_command with (P := well_formed) in E;
      [|apply edit_well_formed|exact I].
    apply parse_command_plain in E'; [|rewrite <- S; by apply strip_plain|exact Q].
    specialize (IH a' E E' e). by destruct (loop rest a') as [[e' a''] o'].
  - revert a I Q. induction C as [|i rest [Hi [Pi _]] C IH]; intros a I Q;
      cbn [loop]; [exact Q|].
    destruct (strip (typed i)) as [|c r] eqn:S; [by apply IH|].
    destruct (parse_command _ _ _ a) as [[[b a'] o]|e] eqn:E; [|exact Q].
    pose proof E as E'.
    apply session_ok_parse_command with (P := well_formed) in E;
      [|apply edit_well_formed|exact I].
    apply parse_command_plain in E'; [|rewrite <- S; by apply strip_plain|exact Q].
    destruct b; [|exact E'].
    specialize (IH a' E E'). by destruct (loop rest a') as [[e' a''] o'].
Qed.

Lemma loop_safe_witness :
  let inputs := [{| typed := "add s meeting 2024-05-20 09:00"; saves := true;
                    clock := example_now |};
                 {| typed := "list"; saves := false; clock := example_now |}] in
  (forall e, (loop inputs (init NoFile)).1.1 <> Crashed e) /\
  session_ok well_formed (loop inputs (init NoFile)).1.2 /\
  plain_session (loop inputs (init NoFile)).1.2.
Proof.
  apply loop_safe.
  - split; [|intros d H; discriminate].
    repeat split; cbn; try apply Forall_nil_2; apply NoDup_nil_2.
  - split; [split|]; [|intros d H; discriminate|intros l H; discriminate].
    split; constructor.
  - repeat constructor; vm_compute; discriminate.
Defined.
